(** * mp4_converter: a shallow embedding of [mp4_converter.py]

    The development follows the Python module function by function:
    [get_video_info], [detect_gpu_encoder], [convert_video], [parse_progress],
    [convert_all_mp4s] and the [__main__] block.  Python values are modelled
    as the interpreter has them: [str] as [string] (code points below 256),
    [int] as [Z], [float] as IEEE 754 binary64 ([spec_float] at precision 53
    and maximal exponent 1024, rounding to nearest even), lists as [list],
    raised exceptions as the [Raise] case of [result].  Everything the module
    asks of the outside world (sub-processes, the file system, the keyboard)
    is answered by an explicit environment record, and what it does to the
    outside world is logged as a list of actions. *)

From Stdlib Require Import ZArith List String Ascii Bool Lia.
From Stdlib Require Import Floats.SpecFloat.
Import ListNotations.

Local Open Scope string_scope.
Local Open Scope Z_scope.

(** ** Exceptions and results *)

(** The exception classes the module names in an [except] clause or can
    raise from its own arithmetic; [OtherError] stands for any other
    subclass of [Exception]. *)
Inductive exn : Type :=
  | TimeoutExpired
  | CalledProcessError
  | FileNotFoundError
  | ValueError
  | IndexError
  | ZeroDivisionError
  | OverflowError
  | KeyboardInterrupt
  | OtherError.

Definition exn_eqb (a b : exn) : bool :=
  match a, b with
  | TimeoutExpired, TimeoutExpired
  | CalledProcessError, CalledProcessError
  | FileNotFoundError, FileNotFoundError
  | ValueError, ValueError
  | IndexError, IndexError
  | ZeroDivisionError, ZeroDivisionError
  | OverflowError, OverflowError
  | KeyboardInterrupt, KeyboardInterrupt
  | OtherError, OtherError => true
  | _, _ => false
  end.

(** [KeyboardInterrupt] derives from [BaseException], every other class
    here from [Exception]. *)
Definition is_Exception (e : exn) : bool := negb (exn_eqb e KeyboardInterrupt).

Inductive result (A : Type) : Type :=
  | Return (a : A)
  | Raise (e : exn).
Arguments Return {A} a.
Arguments Raise {A} e.

Definition bind {A B} (r : result A) (k : A -> result B) : result B :=
  match r with
  | Return a => k a
  | Raise e => Raise e
  end.

Notation "x <- r ;; k" := (bind r (fun x => k))
  (at level 61, r at next level, right associativity).

(** [try: body  except (classes): handler]. *)
Definition try_except {A} (body : result A) (classes : exn -> bool)
    (handler : result A) : result A :=
  match body with
  | Return a => Return a
  | Raise e => if classes e then handler else Raise e
  end.

Definition one_of (l : list exn) (e : exn) : bool := existsb (exn_eqb e) l.

(** ** Strings *)

Definition code (a : ascii) : Z := Z.of_nat (nat_of_ascii a).

(** [str.isspace] on one code point below 256. *)
Definition is_space (a : ascii) : bool :=
  let n := code a in
  ((9 <=? n) && (n <=? 13)) || ((28 <=? n) && (n <=? 32))
  || (n =? 133) || (n =? 160).

Definition is_digit (a : ascii) : bool :=
  let n := code a in (48 <=? n) && (n <=? 57).

Definition digit_value (a : ascii) : Z := code a - 48.

(** [sub in s]. *)
Fixpoint contains (sub s : string) : bool :=
  if prefix sub s then true
  else match s with
       | EmptyString => false
       | String _ s' => contains sub s'
       end.

(** [s.split(c)] for a separator of one character. *)
Fixpoint split (c : ascii) (s : string) : list string :=
  match s with
  | EmptyString => [EmptyString]
  | String a s' =>
      if Ascii.eqb a c then EmptyString :: split c s'
      else match split c s' with
           | h :: t => String a h :: t
           | [] => [String a EmptyString]
           end
  end.

(** [l[i]] for [i >= 0]. *)
Definition getitem {A} (l : list A) (i : nat) : result A :=
  match nth_error l i with
  | Some a => Return a
  | None => Raise IndexError
  end.

Fixpoint lstrip (s : string) : string :=
  match s with
  | EmptyString => EmptyString
  | String a s' => if is_space a then lstrip s' else s
  end.

Fixpoint rstrip (s : string) : string :=
  match s with
  | EmptyString => EmptyString
  | String a s' =>
      match rstrip s' with
      | EmptyString => if is_space a then EmptyString else String a EmptyString
      | r => String a r
      end
  end.

(** [s.strip()]. *)
Definition strip (s : string) : string := rstrip (lstrip s).

(** [s.replace(old, new)] for a non-empty [old]: occurrences are replaced
    from the left and do not overlap; [skip] counts the characters of a
    replaced occurrence still to be dropped. *)
Fixpoint replace_from (old new : string) (skip : nat) (s : string) : string :=
  match s with
  | EmptyString => EmptyString
  | String a s' =>
      match skip with
      | S k => replace_from old new k s'
      | O =>
          if prefix old s
          then new ++ replace_from old new (String.length old - 1) s'
          else String a (replace_from old new 0 s')
      end
  end.

Definition replace (old new s : string) : string := replace_from old new 0 s.

(** ASCII lower-casing, as [str.lower] acts on the code points below 128. *)
Definition lower_ascii (a : ascii) : ascii :=
  let n := nat_of_ascii a in
  if ((65 <=? n) && (n <=? 90))%nat then ascii_of_nat (n + 32) else a.

Fixpoint lower (s : string) : string :=
  match s with
  | EmptyString => EmptyString
  | String a s' => String (lower_ascii a) (lower s')
  end.

(** ** Numbers *)

(** *** [int(s)] in base 10 *)

(** The digits of a literal: groups of digits separated by single
    underscores.  [after_digit] tells whether the previous character was a
    digit; a literal may neither start nor end with an underscore. *)
Fixpoint int_digits (after_digit : bool) (acc : Z) (s : string) : option Z :=
  match s with
  | EmptyString => if after_digit then Some acc else None
  | String a s' =>
      if is_digit a then int_digits true (10 * acc + digit_value a) s'
      else if Ascii.eqb a "_" && after_digit then int_digits false acc s'
      else None
  end.

(** [int(s)]: surrounding white space is dropped, one sign is allowed;
    anything else raises [ValueError]. *)
Definition py_int (s : string) : result Z :=
  let t := strip s in
  let r := match t with
           | String "+" u => int_digits false 0 u
           | String "-" u => option_map Z.opp (int_digits false 0 u)
           | _ => int_digits false 0 t
           end in
  match r with
  | Some z => Return z
  | None => Raise ValueError
  end.

(** *** [float]: IEEE 754 binary64 *)

Definition prec : Z := 53.
Definition emax : Z := 1024.

Definition float : Type := spec_float.

Definition fdiv : float -> float -> float := SFdiv prec emax.
Definition fmul : float -> float -> float := SFmul prec emax.
Definition fadd : float -> float -> float := SFadd prec emax.
(** [x < y]; false as soon as one side is NaN. *)
Definition fltb : float -> float -> bool := SFltb.
Definition feqb : float -> float -> bool := SFeqb.
(** [x > y]. *)
Definition fgtb (x y : float) : bool := fltb y x.

Definition is_finite (x : float) : bool :=
  match x with
  | S754_zero _ | S754_finite _ _ _ => true
  | _ => false
  end.

(** The quotient [a / b] of two integers, [b <> 0], rounded once to the
    nearest binary64 number; an infinite result stands for a quotient too
    large for a float. *)
Definition round_quotient (a b : Z) : float :=
  let s := xorb (a <? 0) (b <? 0) in
  match Z.abs a, Z.abs b with
  | Zpos p, Zpos q => SFdiv prec emax (S754_finite s p 0) (S754_finite false q 0)
  | Z0, _ => S754_zero s
  | _, _ => S754_nan
  end.

(** [float(n)] for an [int] literal of the source. *)
Definition float_of_int (n : Z) : float := round_quotient n 1.

(** [a / b] on two [int]s (true division). *)
Definition int_truediv (a b : Z) : result float :=
  if b =? 0 then Raise ZeroDivisionError
  else let q := round_quotient a b in
       if is_finite q then Return q else Raise OverflowError.

(** *** [float(s)] *)

(** Underscores of a numeric literal must each stand between two digits. *)
Fixpoint underscores_ok (after_digit : bool) (s : string) : bool :=
  match s with
  | EmptyString => true
  | String a s' =>
      if Ascii.eqb a "_" then
        after_digit
        && match s' with String b _ => is_digit b | EmptyString => false end
        && underscores_ok false s'
      else underscores_ok (is_digit a) s'
  end.

Fixpoint remove_underscores (s : string) : string :=
  match s with
  | EmptyString => EmptyString
  | String a s' =>
      if Ascii.eqb a "_" then remove_underscores s'
      else String a (remove_underscores s')
  end.

(** The longest run of digits at the head of [s]: its value on top of
    [acc], its length on top of [n], and what follows it. *)
Fixpoint take_digits (acc : Z) (n : nat) (s : string) : Z * nat * string :=
  match s with
  | EmptyString => (acc, n, s)
  | String a s' =>
      if is_digit a then take_digits (10 * acc + digit_value a) (S n) s'
      else (acc, n, s)
  end.

Definition take_sign (s : string) : bool * string :=
  match s with
  | String "-" u => (true, u)
  | String "+" u => (false, u)
  | _ => (false, s)
  end.

(** A decimal literal [digits [. digits] [e [sign] digits]] with at least
    one digit before the exponent, read as mantissa [m] and power of ten
    [e]: the literal denotes [m * 10 ^ e]. *)
Definition parse_decimal (s : string) : option (Z * Z) :=
  let '(i, ni, r1) := take_digits 0 0 s in
  let '(m, nf, r2) :=
    match r1 with
    | String "." r => take_digits i 0 r
    | _ => (i, O, r1)
    end in
  if (ni + nf =? 0)%nat then None
  else match r2 with
       | EmptyString => Some (m, - Z.of_nat nf)
       | String c r3 =>
           if Ascii.eqb c "e" || Ascii.eqb c "E" then
             let '(neg, r4) := take_sign r3 in
             let '(x, nx, r5) := take_digits 0 0 r4 in
             match nx, r5 with
             | S _, EmptyString =>
                 Some (m, (if neg then - x else x) - Z.of_nat nf)
             | _, _ => None
             end
           else None
       end.

(** [neg] and [m * 10 ^ e] rounded once to binary64. *)
Definition round_decimal (neg : bool) (m e : Z) : float :=
  match m with
  | Zpos p =>
      if 0 <=? e
      then SFdiv prec emax (S754_finite neg (p * Z.to_pos (10 ^ e)) 0)
                           (S754_finite false 1 0)
      else SFdiv prec emax (S754_finite neg p 0)
                           (S754_finite false (Z.to_pos (10 ^ (- e))) 0)
  | _ => S754_zero neg
  end.

(** [float(s)]: white space around the literal is dropped; [inf],
    [infinity] and [nan] are read in any letter case; a literal too large
    for a float reads as an infinity; anything else raises [ValueError]. *)
Definition py_float (s : string) : result float :=
  let t := strip s in
  if negb (underscores_ok false t) then Raise ValueError
  else
    let '(neg, u) := take_sign (remove_underscores t) in
    let l := lower u in
    if String.eqb l "inf" || String.eqb l "infinity" then Return (S754_infinity neg)
    else if String.eqb l "nan" then Return S754_nan
    else match parse_decimal u with
         | Some (m, e) => Return (round_decimal neg m e)
         | None => Raise ValueError
         end.

(** ** [parse_progress] *)

(** The pair the function returns: [(time_seconds, percentage)],
    [(None, fps)] or [(None, None)]. *)
Definition progress : Type := (option float * option float)%type.

Definition no_event : progress := (None, None).

(** The body of a [try] block either returns from the function
    ([Some v]) or runs to its end ([None]). *)
Definition parse_progress (line : string) (duration : float) : result progress :=
  returned <-
    (if contains "out_time_us=" line then
       try_except
         (field <- getitem (split "=" line) 1 ;;
          time_us <- py_int (strip field) ;;
          time_seconds <- int_truediv time_us 1000000 ;;
          if fgtb duration (float_of_int 0) then
            let percentage :=
              fmul (fdiv time_seconds duration) (float_of_int 100) in
            Return (Some (Some time_seconds, Some percentage))
          else Return None)
         (one_of [ValueError; IndexError])
         (Return None)
     else if contains "fps=" line then
       try_except
         (field <- getitem (split "=" line) 1 ;;
          let fps_str := strip field in
          let fps_str := strip (replace " fps" "" fps_str) in
          fps <- py_float fps_str ;;
          Return (Some (None, Some fps)))
         (one_of [ValueError; IndexError])
         (Return None)
     else Return None) ;;
  match returned with
  | Some v => Return v
  | None => Return no_event
  end.

(** ** The outside world *)

Inductive os : Type := Posix | Windows.

(** What [subprocess.run(cmd, capture_output=True, ...)] comes back with:
    a completed process (exit status and captured standard output) or a
    raised exception. *)
Inductive run_outcome : Type :=
  | Completed (returncode : Z) (stdout : string)
  | Failed (e : exn).

(** What happens to an encode launched with [subprocess.Popen] while the
    loop of [convert_all_mp4s] supervises it: it ends after writing some
    lines, or the user interrupts after some lines were read, or the launch
    itself raises. *)
Inductive encode_outcome : Type :=
  | Finished (lines : list string) (return_code : Z)
  | Interrupted (lines : list string)
  | LaunchFailed (e : exn).

Record world : Type := {
  platform : os;
  run_process : list string -> run_outcome;
  popen : list string -> encode_outcome;
  listdir : string -> list string;
  path_exists : string -> bool
}.

(** What the module prints, by kind. *)
Inductive message : Type :=
  | MsgUsingEncoder (name encoder : string)
  | MsgNoGpuEncoder
  | MsgProbeError (e : exn)
  | MsgNoFiles
  | MsgFound (count : nat) (output_directory : string)
  | MsgProcessing (index total : nat) (filename : string)
  | MsgOutputExists (output_file : string)
  | MsgNoVideoInfo (filename : string)
  | MsgResolution (width height : Z) (duration : float)
  | MsgAlreadyCorrect
  | MsgStarting
  | MsgProgress (percentage fps : float)
  | MsgCompleted (filename : string)
  | MsgConvertError (filename : string) (return_code : Z)
  | MsgReadError (e : exn)
  | MsgInterrupted
  | MsgUnexpected (filename : string) (e : exn)
  | MsgAllDone
  | MsgToolsMissing.

(** What the module does to the outside world. *)
Inductive action : Type :=
  | Run (cmd : list string)
  | Popen (cmd : list string)
  | Terminate (cmd : list string)
  | Exists (path : string)
  | Makedirs (path : string)
  | Glob (pathname : string)
  | Print (msg : message).

(** A computation with effects: the actions performed, in order, and the
    value returned or the exception raised. *)
Definition io (A : Type) : Type := (list action * result A)%type.

Definition ret {A} (a : A) : io A := ([], Return a).
Definition throw {A} (e : exn) : io A := ([], Raise e).
Definition lift {A} (r : result A) : io A := ([], r).
Definition emit (a : action) : io unit := ([a], Return tt).

Definition io_bind {A B} (m : io A) (k : A -> io B) : io B :=
  match m with
  | (t, Return a) => let '(t', r) := k a in ((t ++ t')%list, r)
  | (t, Raise e) => (t, Raise e)
  end.

Notation "x <~ m ;; k" := (io_bind m (fun x => k))
  (at level 61, m at next level, right associativity).
Notation "m ;;; k" := (io_bind m (fun _ => k))
  (at level 61, right associativity).

Definition io_try {A} (body : io A) (classes : exn -> bool)
    (handler : exn -> io A) : io A :=
  match body with
  | (t, Raise e) =>
      if classes e then let '(t', r) := handler e in ((t ++ t')%list, r)
      else (t, Raise e)
  | done => done
  end.

Definition trace {A} (m : io A) : list action := fst m.
Definition outcome {A} (m : io A) : result A := snd m.

(** ** [get_video_info] *)

Definition dquote : ascii := "034"%char.

(** [s] without its prefix [p], when it has it. *)
Fixpoint drop_prefix (p s : string) : option string :=
  match p, s with
  | EmptyString, _ => Some s
  | String a p', String b s' => if Ascii.eqb a b then drop_prefix p' s' else None
  | String _ _, EmptyString => None
  end.

(** The longest prefix whose characters satisfy [f], and the rest. *)
Fixpoint span (f : ascii -> bool) (s : string) : string * string :=
  match s with
  | EmptyString => (EmptyString, EmptyString)
  | String a s' =>
      if f a then let '(h, t) := span f s' in (String a h, t)
      else (EmptyString, s)
  end.

(** Group 1 of the leftmost match of [key], white space and one or more
    digits: the digits. *)
Fixpoint search_digits (key s : string) : option string :=
  let here :=
    match drop_prefix key s with
    | Some r =>
        match fst (span is_digit (lstrip r)) with
        | EmptyString => None
        | ds => Some ds
        end
    | None => None
    end in
  match here, s with
  | Some ds, _ => Some ds
  | None, String _ s' => search_digits key s'
  | None, EmptyString => None
  end.

(** Group 1 of the leftmost match of [key], white space, a double quote,
    one or more characters other than a double quote, and a double quote:
    the characters between the two quotes. *)
Fixpoint search_quoted (key s : string) : option string :=
  let here :=
    match drop_prefix key s with
    | Some r =>
        match lstrip r with
        | String q r' =>
            if Ascii.eqb q dquote then
              match span (fun a => negb (Ascii.eqb a dquote)) r' with
              | (String a body, String _ _) => Some (String a body)
              | _ => None
              end
            else None
        | EmptyString => None
        end
    | None => None
    end in
  match here, s with
  | Some v, _ => Some v
  | None, String _ s' => search_quoted key s'
  | None, EmptyString => None
  end.

Definition json_key (name : string) : string :=
  String dquote (name ++ String dquote ":").

Definition ffprobe_cmd (video_path : string) : list string :=
  ["ffprobe"; "-v"; "quiet"; "-print_format"; "json";
   "-show_format"; "-show_streams"; video_path].

Definition video_info : Type := (option Z * option Z * float)%type.

Definition no_video_info : video_info := (None, None, float_of_int 0).

(** What the function makes of the text the probe tool printed: the
    three searches, and the conversions of what they matched. *)
Definition parse_video_info (stdout : string) : result video_info :=
  let width_match := search_digits (json_key "width") stdout in
  let height_match := search_digits (json_key "height") stdout in
  let duration_match := search_quoted (json_key "duration") stdout in
  match width_match, height_match with
  | Some ws, Some hs =>
      width <- py_int ws ;;
      height <- py_int hs ;;
      duration <- match duration_match with
                  | Some ds => py_float ds
                  | None => Return (float_of_int 0)
                  end ;;
      Return (Some width, Some height, duration)
  | _, _ => Return no_video_info
  end.

Definition get_video_info (w : world) (video_path : string) : io video_info :=
  io_try
    (let cmd := ffprobe_cmd video_path in
     emit (Run cmd) ;;;
     match run_process w cmd with
     | Failed e => throw e
     | Completed _ stdout => lift (parse_video_info stdout)
     end)
    is_Exception
    (fun e => emit (Print (MsgProbeError e)) ;;; ret no_video_info).

(** ** [detect_gpu_encoder] *)

Definition encoders : list (string * string) :=
  [("h264_nvenc", "NVIDIA NVENC");
   ("h264_amf", "AMD AMF");
   ("h264_qsv", "Intel QuickSync");
   ("libx264", "CPU (fallback)")].

Definition probe_cmd (encoder : string) : list string :=
  ["ffmpeg"; "-hide_banner"; "-f"; "lavfi"; "-i";
   "testsrc=duration=1:size=320x240:rate=1";
   "-c:v"; encoder; "-f"; "null"; "-"].

(** The [for] loop over the candidates followed by the statements after
    it.  The [try] body returns the candidate on exit status 0 and falls
    out of the [if] otherwise; the three listed exception classes
    [continue]; any other exception leaves the function. *)
Fixpoint detect_loop (w : world) (candidates : list (string * string)) : io string :=
  match candidates with
  | [] =>
      emit (Print MsgNoGpuEncoder) ;;;
      ret "libx264"
  | (encoder, name) :: rest =>
      let cmd := probe_cmd encoder in
      emit (Run cmd) ;;;
      match run_process w cmd with
      | Completed returncode _ =>
          if returncode =? 0 then
            emit (Print (MsgUsingEncoder name encoder)) ;;;
            ret encoder
          else detect_loop w rest
      | Failed e =>
          if one_of [TimeoutExpired; CalledProcessError; FileNotFoundError] e
          then detect_loop w rest
          else throw e
      end
  end.

Definition detect_gpu_encoder (w : world) : io string := detect_loop w encoders.

(** ** [convert_video] *)

(** [l.insert(i, x)]: a negative index counts from the end, and an index
    out of range is clipped to the nearest end. *)
Definition insert {A} (l : list A) (i : Z) (x : A) : list A :=
  let n := Z.of_nat (List.length l) in
  let j := if i <? 0 then Z.max 0 (i + n) else Z.min i n in
  (firstn (Z.to_nat j) l ++ x :: skipn (Z.to_nat j) l)%list.

(** [cmd.insert(-3, x)] for each [x] of [xs] in turn. *)
Definition insert_all (cmd xs : list string) : list string :=
  fold_left (fun c x => insert c (-3) x) xs cmd.

Definition convert_video (input_path output_path : string)
    (original_width original_height : Z) (gpu_encoder : string)
    : result (list string) :=
  aspect_ratio <- int_truediv original_width original_height ;;
  target_aspect <- int_truediv 1920 1080 ;;
  let scale_filter :=
    if fgtb aspect_ratio target_aspect
    then "scale=1920:1080:force_original_aspect_ratio=decrease,pad=1920:1080:-1:-1:black"
    else "scale=1920:1080:force_original_aspect_ratio=decrease,pad=1920:1080:-1:-1:black" in
  let cmd :=
    ["ffmpeg"; "-i"; input_path; "-vf"; scale_filter; "-c:v"; gpu_encoder;
     "-c:a"; "copy"; "-y"; "-stats"; output_path] in
  let cmd :=
    if contains "nvenc" gpu_encoder then
      insert_all cmd ["-preset"; "p1"; "-tune"; "hq"; "-rc"; "vbr"; "-cq"; "23"]
    else if contains "amf" gpu_encoder then
      insert_all cmd ["-usage"; "transcoding"; "-rc"; "cqp";
                      "-qp_i"; "23"; "-qp_p"; "23"]
    else if contains "qsv" gpu_encoder then
      insert_all cmd ["-preset"; "veryfast"; "-global_quality"; "23"]
    else
      insert_all cmd ["-preset"; "ultrafast"; "-crf"; "23"] in
  Return cmd.

(** ** Supervising one encode *)

(** The two variables the reading loop updates. *)
Record progress_state : Type := {
  current_fps : float;
  last_percentage : float
}.

Definition initial_progress : progress_state :=
  {| current_fps := float_of_int 0; last_percentage := float_of_int 0 |}.

(** The statements both platform branches run on the pair returned by
    [parse_progress]. *)
Definition update_progress (ev : progress) (st : progress_state)
    : io progress_state :=
  match ev with
  | (Some _, Some percentage) =>
      if fgtb percentage (fadd (last_percentage st) (float_of_int 1)) then
        emit (Print (MsgProgress percentage (current_fps st))) ;;;
        ret {| current_fps := current_fps st; last_percentage := percentage |}
      else ret st
  | (Some _, None) => throw OtherError
  | (None, Some fps) =>
      ret {| current_fps := fps; last_percentage := last_percentage st |}
  | (None, None) => ret st
  end.

(** One line read on a Unix-like platform. *)
Definition handle_line (duration : float) (st : progress_state) (line : string)
    : io progress_state :=
  let line := strip line in
  ev <~ lift (parse_progress line duration) ;;
  update_progress ev st.

(** Group 1, 2 and 3 of the leftmost match of [time=], two digits, a
    colon, two digits, a colon, two digits, any character but a line feed,
    two digits. *)
Definition match_clock (r : string) : option (string * string * string) :=
  match r with
  | String h1 (String h2 (String c1 (String m1 (String m2 (String c2
      (String s1 (String s2 (String p (String f1 (String f2 _)))))))))) =>
      if is_digit h1 && is_digit h2 && Ascii.eqb c1 ":"
         && is_digit m1 && is_digit m2 && Ascii.eqb c2 ":"
         && is_digit s1 && is_digit s2 && negb (Ascii.eqb p "010"%char)
         && is_digit f1 && is_digit f2
      then Some (String h1 (String h2 EmptyString),
                 String m1 (String m2 EmptyString),
                 String s1 (String s2 (String p (String f1 (String f2 EmptyString)))))
      else None
  | _ => None
  end.

Fixpoint search_time (s : string) : option (string * string * string) :=
  let here := match drop_prefix "time=" s with
              | Some r => match_clock r
              | None => None
              end in
  match here, s with
  | Some g, _ => Some g
  | None, String _ s' => search_time s'
  | None, EmptyString => None
  end.

(** Group 1 of the leftmost match of [fps=], white space, and one or more
    digits or dots. *)
Fixpoint search_fps (s : string) : option string :=
  let here :=
    match drop_prefix "fps=" s with
    | Some r =>
        match fst (span (fun a => is_digit a || Ascii.eqb a ".") (lstrip r)) with
        | EmptyString => None
        | g => Some g
        end
    | None => None
    end in
  match here, s with
  | Some g, _ => Some g
  | None, String _ s' => search_fps s'
  | None, EmptyString => None
  end.

Definition fsub : float -> float -> float := SFsub prec emax.

(** One line read on Windows; the caller has already skipped a line that
    is empty once stripped. *)
Definition handle_line_windows (duration : float) (st : progress_state)
    (line : string) : io progress_state :=
  ev <~ lift (parse_progress line duration) ;;
  st <~ update_progress ev st ;;
  if contains "frame=" line || contains "time=" line then
    match search_time line with
    | Some (hours, minutes, seconds) =>
        if fgtb duration (float_of_int 0) then
          h <~ lift (py_int hours) ;;
          m <~ lift (py_int minutes) ;;
          s <~ lift (py_float seconds) ;;
          let current_time := fadd (float_of_int (h * 3600 + m * 60)) s in
          let percentage :=
            fmul (fdiv current_time duration) (float_of_int 100) in
          let fps :=
            match search_fps line with
            | Some g =>
                match py_float g with
                | Return f => f
                | Raise _ => current_fps st
                end
            | None => current_fps st
            end in
          if fgtb percentage (fadd (last_percentage st) (float_of_int 1))
             || fgtb (fsub percentage (last_percentage st)) (float_of_int 5)
          then emit (Print (MsgProgress percentage fps)) ;;;
               ret {| current_fps := fps; last_percentage := percentage |}
          else ret {| current_fps := fps; last_percentage := last_percentage st |}
        else ret st
    | None => ret st
    end
  else ret st.

(** The lines the reading loop gets from the process, in order. *)
Fixpoint read_lines (p : os) (duration : float) (st : progress_state)
    (lines : list string) : io progress_state :=
  match lines with
  | [] => ret st
  | line :: rest =>
      match p with
      | Posix =>
          st' <~ handle_line duration st line ;;
          read_lines p duration st' rest
      | Windows =>
          let line := strip line in
          if String.eqb line EmptyString then read_lines p duration st rest
          else
            step <~ io_try
                      (st' <~ handle_line_windows duration st line ;;
                       ret (Some st'))
                      is_Exception
                      (fun e => emit (Print (MsgReadError e)) ;;; ret None) ;;
            match step with
            | Some st' => read_lines p duration st' rest
            | None => ret st
            end
      end
  end.

(** ** Paths *)

Definition slash : ascii := "/"%char.
Definition backslash : ascii := "\"%char.

Definition is_sep (p : os) (a : ascii) : bool :=
  match p with
  | Posix => Ascii.eqb a slash
  | Windows => Ascii.eqb a slash || Ascii.eqb a backslash
  end.

Fixpoint last_char (s : string) : option ascii :=
  match s with
  | EmptyString => None
  | String a EmptyString => Some a
  | String _ s' => last_char s'
  end.

(** [os.path.join(a, b)] for a component [b] that is relative and names
    no drive. *)
Definition join (p : os) (a b : string) : string :=
  match last_char a with
  | None => b
  | Some c =>
      match p with
      | Posix => if Ascii.eqb c slash then a ++ b else a ++ String slash b
      | Windows =>
          if is_sep Windows c || Ascii.eqb c ":" then a ++ b
          else a ++ String backslash b
      end
  end.

(** [os.path.basename(path)] for a path that names no drive: what follows
    the last separator. *)
Fixpoint basename (p : os) (path : string) : string :=
  match path with
  | EmptyString => EmptyString
  | String a s' =>
      if existsb (is_sep p) (list_ascii_of_string path)
      then basename p s'
      else path
  end.

Fixpoint map_string (f : ascii -> ascii) (s : string) : string :=
  match s with
  | EmptyString => EmptyString
  | String a s' => String (f a) (map_string f s')
  end.

(** [os.path.normcase]. *)
Definition normcase (p : os) (s : string) : string :=
  match p with
  | Posix => s
  | Windows =>
      lower (map_string (fun a => if Ascii.eqb a slash then backslash else a) s)
  end.

(** ** Discovery *)

(** [fnmatch] for a pattern made of literal characters, [*] and [?],
    both sides already case-normalised. *)
Fixpoint wildcard (pat : string) : string -> bool :=
  match pat with
  | EmptyString => fun s => match s with EmptyString => true | _ => false end
  | String c pat' =>
      if Ascii.eqb c "*" then
        fix star (s : string) : bool :=
          wildcard pat' s
          || match s with
             | EmptyString => false
             | String _ s' => star s'
             end
      else if Ascii.eqb c "?" then
        fun s => match s with
                 | EmptyString => false
                 | String _ s' => wildcard pat' s'
                 end
      else
        fun s => match s with
                 | EmptyString => false
                 | String a s' => Ascii.eqb a c && wildcard pat' s'
                 end
  end.

Definition fnmatch (p : os) (name pat : string) : bool :=
  wildcard (normcase p pat) (normcase p name).

Definition is_hidden (name : string) : bool :=
  match name with
  | String a _ => Ascii.eqb a "."
  | EmptyString => false
  end.

(** [glob.glob(os.path.join(directory, pattern))] for a directory name
    without wildcard characters and a pattern that does not start with a
    dot: the entries of the directory that match, hidden ones left out,
    each joined to the directory. *)
Definition glob (w : world) (directory pattern : string) : io (list string) :=
  emit (Glob (join (platform w) directory pattern)) ;;;
  ret (map (join (platform w) directory)
           (filter (fun name => negb (is_hidden name)
                                && fnmatch (platform w) name pattern)
                   (listdir w directory))).

(** The inner [for file in found_files] loop. *)
Definition add_found (p : os) (mp4_files found_files : list string) : list string :=
  fold_left
    (fun acc file =>
       let normalized_path := normcase p file in
       if negb (existsb (fun existing => String.eqb (normcase p existing) normalized_path) acc)
       then (acc ++ [file])%list
       else acc)
    found_files mp4_files.

Definition discover (w : world) (input_directory : string) : io (list string) :=
  found1 <~ glob w input_directory "*.mp4" ;;
  let mp4_files := add_found (platform w) [] found1 in
  found2 <~ glob w input_directory "*.MP4" ;;
  ret (add_found (platform w) mp4_files found2).

(** ** [convert_all_mp4s] *)

(** How one turn of the [for] loop ends. *)
Inductive loop_control : Type := Continue | Break.

(** The [try] statement around one encode.  [process] is the function's
    variable of that name: unbound before the first launch, and bound to
    the last launched process afterwards; the handler of
    [KeyboardInterrupt] terminates whatever it is bound to. *)
Definition encode (w : world) (filename : string) (cmd : list string)
    (duration : float) (process : option (list string))
    : io (loop_control * option (list string)) :=
  let body : io (option (list string)) * option (list string) :=
    match popen w cmd with
    | LaunchFailed e =>
        (emit (Print MsgStarting) ;;; emit (Popen cmd) ;;; throw e, process)
    | Finished lines return_code =>
        (emit (Print MsgStarting) ;;;
         emit (Popen cmd) ;;;
         read_lines (platform w) duration initial_progress lines ;;;
         (if return_code =? 0
          then emit (Print (MsgCompleted filename))
          else emit (Print (MsgConvertError filename return_code))) ;;;
         ret (Some cmd), Some cmd)
    | Interrupted lines =>
        (emit (Print MsgStarting) ;;;
         emit (Popen cmd) ;;;
         read_lines (platform w) duration initial_progress lines ;;;
         throw KeyboardInterrupt, Some cmd)
    end in
  let '(run, bound) := body in
  match run with
  | (t, Return _) => (t, Return (Continue, bound))
  | (t, Raise e) =>
      if exn_eqb e KeyboardInterrupt then
        match bound with
        | Some p =>
            (t ++ [Print MsgInterrupted; Terminate p], Return (Break, bound))%list
        | None => ((t ++ [Print MsgInterrupted])%list, Raise OtherError)
        end
      else
        ((t ++ [Print (MsgUnexpected filename e)])%list, Return (Continue, bound))
  end.

(** The body of the [for] loop for the [i]-th of [total] files. *)
Definition process_file (w : world) (output_directory gpu_encoder : string)
    (total i : nat) (input_file : string) (process : option (list string))
    : io (loop_control * option (list string)) :=
  let filename := basename (platform w) input_file in
  let output_file :=
    join (platform w) output_directory ("converted_" ++ filename) in
  emit (Print (MsgProcessing i total filename)) ;;;
  emit (Exists output_file) ;;;
  if path_exists w output_file then
    emit (Print (MsgOutputExists output_file)) ;;;
    ret (Continue, process)
  else
    info <~ get_video_info w input_file ;;
    match info with
    | (Some width, Some height, duration) =>
        emit (Print (MsgResolution width height duration)) ;;;
        if (width =? 1920) && (height =? 1080) then
          emit (Print MsgAlreadyCorrect) ;;;
          ret (Continue, process)
        else
          cmd <~ lift (convert_video input_file output_file width height gpu_encoder) ;;
          encode w filename cmd duration process
    | _ =>
        emit (Print (MsgNoVideoInfo filename)) ;;;
        ret (Continue, process)
    end.

(** The [for] loop, from the [i]-th file on: how it ended ([Break] when a
    turn left it early, [Continue] when the files ran out) and what
    [process] is bound to afterwards. *)
Fixpoint process_files (w : world) (output_directory gpu_encoder : string)
    (total i : nat) (files : list string) (process : option (list string))
    : io (loop_control * option (list string)) :=
  match files with
  | [] => ret (Continue, process)
  | input_file :: rest =>
      step <~ process_file w output_directory gpu_encoder total i input_file process ;;
      match step with
      | (Continue, process') =>
          process_files w output_directory gpu_encoder total (S i) rest process'
      | (Break, process') => ret (Break, process')
      end
  end.

Definition convert_all_mp4s (w : world) (input_directory : string)
    (output_directory : option string) : io unit :=
  let output_directory :=
    match output_directory with
    | Some d => d
    | None => join (platform w) input_directory "converted"
    end in
  emit (Makedirs output_directory) ;;;
  gpu_encoder <~ detect_gpu_encoder w ;;
  mp4_files <~ discover w input_directory ;;
  match mp4_files with
  | [] => emit (Print MsgNoFiles)
  | _ =>
      emit (Print (MsgFound (List.length mp4_files) output_directory)) ;;;
      process_files w output_directory gpu_encoder (List.length mp4_files) 1
                    mp4_files None ;;;
      emit (Print MsgAllDone)
  end.

(** ** The [__main__] block *)

(** [subprocess.run(cmd, capture_output=True, check=True)]. *)
Definition run_checked (w : world) (cmd : list string) : io unit :=
  emit (Run cmd) ;;;
  match run_process w cmd with
  | Completed returncode _ =>
      if returncode =? 0 then ret tt else throw CalledProcessError
  | Failed e => throw e
  end.

(** The exit status of the interpreter when the script ends by an
    exception nobody caught. *)
Definition uncaught_status (e : exn) : Z :=
  if exn_eqb e KeyboardInterrupt then 130 else 1.

(** The script run as a program: the actions performed and the exit
    status of the process. *)
Definition main (w : world) : list action * Z :=
  let checks :=
    io_try
      (run_checked w ["ffmpeg"; "-version"] ;;;
       run_checked w ["ffprobe"; "-version"] ;;;
       ret true)
      (one_of [CalledProcessError; FileNotFoundError])
      (fun _ => emit (Print MsgToolsMissing) ;;; ret false) in
  match checks with
  | (t, Raise e) => (t, uncaught_status e)
  | (t, Return false) => (t, 1)
  | (t, Return true) =>
      match convert_all_mp4s w "." None with
      | (t', Return _) => ((t ++ t')%list, 0)
      | (t', Raise e) => ((t ++ t')%list, uncaught_status e)
      end
  end.

(** ** Vocabulary of the properties *)

(** The capability probe of [encoder] exits with status 0. *)
Definition probe_accepts (w : world) (encoder : string) : bool :=
  match run_process w (probe_cmd encoder) with
  | Completed returncode _ => returncode =? 0
  | Failed _ => false
  end.

(** The capability probe of [encoder] is rejected: it exits with another
    status, or raises one of the exceptions the selector catches. *)
Definition probe_rejects (w : world) (encoder : string) : bool :=
  match run_process w (probe_cmd encoder) with
  | Completed returncode _ => negb (returncode =? 0)
  | Failed e => one_of [TimeoutExpired; CalledProcessError; FileNotFoundError] e
  end.

(** The commands given to [subprocess.run], in order. *)
Fixpoint runs (t : list action) : list (list string) :=
  match t with
  | [] => []
  | Run cmd :: t' => cmd :: runs t'
  | _ :: t' => runs t'
  end.

(** The commands given to [subprocess.Popen], in order. *)
Fixpoint launches (t : list action) : list (list string) :=
  match t with
  | [] => []
  | Popen cmd :: t' => cmd :: launches t'
  | _ :: t' => launches t'
  end.

(** A world in which every sub-process times out. *)
Definition timeout_world : world :=
  {| platform := Posix;
     run_process := fun _ => Failed TimeoutExpired;
     popen := fun _ => LaunchFailed OtherError;
     listdir := fun _ => [];
     path_exists := fun _ => false |}.

(** A world in which the probes of the first two candidates time out and
    every other sub-process exits with status 0. *)
Definition third_candidate_world : world :=
  {| platform := Posix;
     run_process := fun cmd =>
       if existsb (String.eqb "h264_nvenc") cmd
          || existsb (String.eqb "h264_amf") cmd
       then Failed TimeoutExpired
       else Completed 0 EmptyString;
     popen := fun _ => Finished [] 0;
     listdir := fun _ => [];
     path_exists := fun _ => false |}.


(** Every character of [s] satisfies [f]. *)
Fixpoint all_chars (f : ascii -> bool) (s : string) : bool :=
  match s with
  | EmptyString => true
  | String a s' => f a && all_chars f s'
  end.

Definition not_eq_sign (a : ascii) : bool := negb (Ascii.eqb a "=").

(** The decimal digits of [n >= 0], most significant first, put in
    front of [acc]; [fuel] bounds the number of digits. *)
Fixpoint show_digits (fuel : nat) (n : Z) (acc : string) : string :=
  match fuel with
  | O => acc
  | S fuel' =>
      let acc' := String (ascii_of_nat (48 + Z.to_nat (n mod 10))) acc in
      if n <? 10 then acc' else show_digits fuel' (n / 10) acc'
  end.

(** An integer as the encoder prints it: decimal digits, with a minus
    sign in front when negative. *)
Definition show_Z (z : Z) : string :=
  if z <? 0
  then String "-" (show_digits (S (Z.to_nat (Z.log2 (- z)))) (- z) EmptyString)
  else show_digits (S (Z.to_nat (Z.log2 z))) z EmptyString.

(** The field [parse_progress] reads a number from: what stands between
    the first and the second equals sign of the line. *)
Definition numeric_field (line : string) : result string :=
  getitem (split "=" line) 1.

(** A line whose recognised numeric field cannot be parsed: it carries
    the elapsed-time marker and [int] rejects the field, or it carries the
    frame-rate marker only and [float] rejects the field. *)
Definition malformed (line : string) : Prop :=
  (contains "out_time_us=" line = true /\
   forall field, numeric_field line = Return field ->
                 py_int (strip field) = Raise ValueError)
  \/ (contains "out_time_us=" line = false /\
      contains "fps=" line = true /\
      forall field, numeric_field line = Return field ->
                    py_float (strip (replace " fps" "" (strip field))) = Raise ValueError).

(** The filter both branches of [convert_video] assign. *)
Definition scale_pad_filter : string :=
  "scale=1920:1080:force_original_aspect_ratio=decrease,pad=1920:1080:-1:-1:black".

(** The command [convert_video] builds around the encoder parameters. *)
Definition encode_cmd (input_path output_path gpu_encoder : string)
    (params : list string) : list string :=
  (["ffmpeg"; "-i"; input_path; "-vf"; scale_pad_filter;
    "-c:v"; gpu_encoder; "-c:a"; "copy"]
   ++ params ++ ["-y"; "-stats"; output_path])%list.

(** The destination [convert_all_mp4s] computes for an input file. *)
Definition output_path (w : world) (output_directory input_file : string) : string :=
  join (platform w) output_directory
       ("converted_" ++ basename (platform w) input_file).

(** A trace that only prints. *)
Definition only_prints (t : list action) : Prop :=
  Forall (fun a => exists msg, a = Print msg) t.

(** The three guards of the batch loop, as facts about the world: the
    destination does not exist, the probe of the file succeeds with some
    dimensions, and the dimensions are not exactly 1920x1080. *)
Definition destination_free (w : world) (output_directory input_file : string) : Prop :=
  path_exists w (output_path w output_directory input_file) = false.

Definition probe_succeeds (w : world) (input_file : string)
    (width height : Z) (duration : float) : Prop :=
  outcome (get_video_info w input_file) = Return (Some width, Some height, duration).

Definition needs_conversion (width height : Z) : Prop :=
  ~ (width = 1920 /\ height = 1080).

(** The text the probe tool prints for a stream of the given dimensions
    and duration, reduced to the three fields [get_video_info] reads. *)
Definition probe_json (width height : Z) (duration : string) : string :=
  "{" ++ json_key "width" ++ " " ++ show_Z width ++ ", "
      ++ json_key "height" ++ " " ++ show_Z height ++ ", "
      ++ json_key "duration" ++ " " ++ String dquote (duration ++ String dquote "}").

(** A world with the given directory entries, probe answers per input
    path, existing paths and encode outcomes, in which every other
    sub-process exits with status 0. *)
Definition batch_world (p : os) (names : list string)
    (info : string -> run_outcome) (existing : string -> bool)
    (enc : list string -> encode_outcome) : world :=
  {| platform := p;
     run_process := fun cmd =>
       match cmd with
       | "ffprobe" :: "-v" :: _ => info (last cmd EmptyString)
       | _ => Completed 0 EmptyString
       end;
     popen := enc;
     listdir := fun _ => names;
     path_exists := existing |}.

(** The scenario of the specification: [a.mp4] is 1280x720 and lasts
    10 s, [b.mp4] is 1920x1080 and lasts 5 s, no output exists yet, and
    encodes succeed. *)
Definition scenario_world : world :=
  batch_world Posix ["a.mp4"; "b.mp4"]
    (fun path => if String.eqb path "./a.mp4"
                 then Completed 0 (probe_json 1280 720 "10.000000")
                 else Completed 0 (probe_json 1920 1080 "5.000000"))
    (fun _ => false)
    (fun _ => Finished ["frame=  250 fps= 50 q=-1.0 size=    1024kB"] 0).

(** The same directory once [a.mp4] has been converted. *)
Definition second_run_world : world :=
  batch_world Posix ["a.mp4"; "b.mp4"]
    (fun path => if String.eqb path "./a.mp4"
                 then Completed 0 (probe_json 1280 720 "10.000000")
                 else Completed 0 (probe_json 1920 1080 "5.000000"))
    (fun path => String.eqb path "./converted/converted_a.mp4")
    (fun _ => Finished [] 0).

(** Three 1280x720 files; the encode of [a.mp4] succeeds, the user
    interrupts the encode of [b.mp4] after two lines of output. *)
Definition interrupt_world : world :=
  batch_world Posix ["a.mp4"; "b.mp4"; "c.mp4"]
    (fun _ => Completed 0 (probe_json 1280 720 "10.000000"))
    (fun _ => false)
    (fun cmd => if existsb (String.eqb "./b.mp4") cmd
                then Interrupted ["out_time_us=2000000"; "fps=50.0"]
                else Finished ["out_time_us=10000000"] 0).

(** Two files, the first of which the probe tool reports with a height
    of 0; the tools are present and every encode would succeed. *)
Definition zero_height_world : world :=
  batch_world Posix ["a.mp4"; "b.mp4"]
    (fun path => if String.eqb path "./a.mp4"
                 then Completed 0 (probe_json 1920 0 "10.000000")
                 else Completed 0 (probe_json 1280 720 "5.000000"))
    (fun _ => false)
    (fun _ => Finished [] 0).

(** A directory with one file whose extension is spelled [.Mp4]. *)
Definition mixed_case_world (p : os) : world :=
  batch_world p ["clip.Mp4"]
    (fun _ => Completed 0 (probe_json 1280 720 "10.000000"))
    (fun _ => false)
    (fun _ => Finished [] 0).

(** A directory listing with [Clip.MP4] and [clip.mp4]. *)
Definition two_spellings_world (p : os) : world :=
  batch_world p ["Clip.MP4"; "clip.mp4"]
    (fun _ => Completed 0 (probe_json 1280 720 "10.000000"))
    (fun _ => false)
    (fun _ => Finished [] 0).

(** A character that stands for itself in a pattern. *)
Definition literal_char (a : ascii) : bool :=
  negb (Ascii.eqb a "*") && negb (Ascii.eqb a "?").

(** [s] ends with [suffix]. *)
Definition ends_with (suffix s : string) : Prop := exists pre, s = pre ++ suffix.

(** The destinations whose existence the loop checked, in order: one per
    turn. *)
Fixpoint checks (t : list action) : list string :=
  match t with
  | [] => []
  | Exists path :: t' => path :: checks t'
  | _ :: t' => checks t'
  end.

(** A file whose turn stays within what the loop handles: its destination
    exists, or its probe fails, or it already has the target dimensions, or
    its command can be built and its encode ends or fails to start without
    the user interrupting. *)
Definition contained (w : world) (output_directory gpu_encoder input_file : string)
    : Prop :=
  path_exists w (output_path w output_directory input_file) = true
  \/ outcome (get_video_info w input_file) = Return no_video_info
  \/ (exists duration, probe_succeeds w input_file 1920 1080 duration)
  \/ (exists width height duration cmd,
        probe_succeeds w input_file width height duration
        /\ convert_video input_file (output_path w output_directory input_file)
             width height gpu_encoder = Return cmd
        /\ ((exists lines return_code, popen w cmd = Finished lines return_code)
            \/ (exists e, popen w cmd = LaunchFailed e /\ is_Exception e = true))).

(** A world in which the probe tool prints nothing and exits with the
    given status. *)
Definition silent_probe_world (returncode : Z) : world :=
  batch_world Posix ["a.mp4"]
    (fun _ => Completed returncode EmptyString)
    (fun _ => false)
    (fun _ => Finished [] 0).



(** A world in which the probe of the second candidate is refused by the
    operating system, the first having timed out. *)
Definition refused_probe_world : world :=
  {| platform := Posix;
     run_process := fun cmd =>
       if existsb (String.eqb "h264_nvenc") cmd then Failed TimeoutExpired
       else if existsb (String.eqb "h264_amf") cmd then Failed OtherError
       else Completed 0 EmptyString;
     popen := fun _ => Finished [] 0;
     listdir := fun _ => ["a.mp4"];
     path_exists := fun _ => false |}.

(** A trace made of runs of [subprocess.run] only. *)
Definition only_runs (t : list action) : Prop :=
  Forall (fun a => exists cmd, a = Run cmd) t.

Definition is_blank (a : ascii) : bool := Ascii.eqb a " ".

(** The head of the statistics line the encoder prints while it works:
    the frame counter, padded with blanks, and the frame-rate marker;
    [rest] is what follows that marker. *)
Definition stats_line (pad : string) (frames : Z) (rest : string) : string :=
  "frame=" ++ pad ++ show_Z frames ++ " fps=" ++ rest.

(** A name without a path separator. *)
Definition sep_free (p : os) (name : string) : bool :=
  all_chars (fun a => negb (is_sep p a)) name.

(** A name as the entries of a directory are: without a path separator
    and, on Windows, without a colon. *)
Definition plain_name (p : os) (name : string) : bool :=
  sep_free p name
  && match p with
     | Posix => true
     | Windows => all_chars (fun a => negb (Ascii.eqb a ":")) name
     end.

(** A directory name [os.path.join] and [os.path.basename] treat as the
    model does: on Windows, one that does not end with the colon of a
    drive. *)
Definition no_drive_end (p : os) (directory : string) : Prop :=
  p = Posix \/ last_char directory <> Some ":"%char.

(** The version check of a tool succeeds: it exits with status 0. *)
Definition tool_ok (w : world) (cmd : list string) : bool :=
  match run_process w cmd with
  | Completed returncode _ => returncode =? 0
  | Failed _ => false
  end.

(** The version check of a tool fails in one of the two ways the script
    expects: another exit status (which [check=True] turns into
    [CalledProcessError]), or no such executable. *)
Definition tool_fails (w : world) (cmd : list string) : bool :=
  match run_process w cmd with
  | Completed returncode _ => negb (returncode =? 0)
  | Failed e => one_of [CalledProcessError; FileNotFoundError] e
  end.

(** What a trace does besides printing. *)
Fixpoint deeds (t : list action) : list action :=
  match t with
  | [] => []
  | Print _ :: t' => deeds t'
  | a :: t' => a :: deeds t'
  end.

(** A world without the two tools. *)
Definition no_tools_world : world :=
  {| platform := Posix;
     run_process := fun _ => Failed FileNotFoundError;
     popen := fun _ => LaunchFailed FileNotFoundError;
     listdir := fun _ => ["a.mp4"];
     path_exists := fun _ => false |}.

(** The percentages of the progress messages of a trace, in order. *)
Fixpoint percentages (t : list action) : list float :=
  match t with
  | [] => []
  | Print (MsgProgress percentage _) :: t' => percentage :: percentages t'
  | _ :: t' => percentages t'
  end.

(** Each percentage is more than 1 above the one before it, the first
    being more than 1 above [start]. *)
Fixpoint steps_up (start : float) (ps : list float) : Prop :=
  match ps with
  | [] => True
  | p :: ps' => fgtb p (fadd start (float_of_int 1)) = true /\ steps_up p ps'
  end.

(** * Properties *)

(** ** The encoder selector *)

Lemma io_bind_trace {A B} (m : io A) (k : A -> io B) a :
  outcome m = Return a ->
  trace (io_bind m k) = (trace m ++ trace (k a))%list.
Proof.
  destruct m as [t [x | e]]; simpl; intros H; inversion H; subst.
  destruct (k a); reflexivity.
Qed.

Lemma io_bind_outcome {A B} (m : io A) (k : A -> io B) a :
  outcome m = Return a ->
  outcome (io_bind m k) = outcome (k a).
Proof.
  destruct m as [t [x | e]]; simpl; intros H; inversion H; subst.
  destruct (k a); reflexivity.
Qed.

Lemma emit_then {A} (x : action) (k : io A) :
  (emit x ;;; k) = (x :: trace k, outcome k).
Proof. unfold emit, io_bind. destruct k; reflexivity. Qed.

Lemma detect_loop_step (w : world) encoder name rest :
  detect_loop w ((encoder, name) :: rest) =
  match run_process w (probe_cmd encoder) with
  | Completed returncode _ =>
      if returncode =? 0
      then ([Run (probe_cmd encoder); Print (MsgUsingEncoder name encoder)],
            Return encoder)
      else (Run (probe_cmd encoder) :: trace (detect_loop w rest),
            outcome (detect_loop w rest))
  | Failed e =>
      if one_of [TimeoutExpired; CalledProcessError; FileNotFoundError] e
      then (Run (probe_cmd encoder) :: trace (detect_loop w rest),
            outcome (detect_loop w rest))
      else ([Run (probe_cmd encoder)], Raise e)
  end.
Proof.
  cbn [detect_loop]. rewrite emit_then.
  destruct (run_process w (probe_cmd encoder)) as [rc out | e].
  - destruct (rc =? 0); reflexivity.
  - destruct (one_of _ e); reflexivity.
Qed.

Lemma accepts_not_rejects w enc :
  probe_accepts w enc = true -> probe_rejects w enc = false.
Proof.
  unfold probe_accepts, probe_rejects.
  destruct (run_process w (probe_cmd enc)); [intros -> | discriminate]; reflexivity.
Qed.

(** One turn of the loop: the candidate is accepted and returned, or
    rejected and the loop goes on, or its probe raises out of the
    function. *)
Lemma detect_loop_cases (w : world) enc name rest :
  (probe_accepts w enc = true /\
   detect_loop w ((enc, name) :: rest) =
     ([Run (probe_cmd enc); Print (MsgUsingEncoder name enc)], Return enc))
  \/ (probe_rejects w enc = true /\
      detect_loop w ((enc, name) :: rest) =
        (Run (probe_cmd enc) :: trace (detect_loop w rest),
         outcome (detect_loop w rest)))
  \/ (probe_accepts w enc = false /\ probe_rejects w enc = false /\
      exists e, detect_loop w ((enc, name) :: rest) =
                  ([Run (probe_cmd enc)], Raise e)).
Proof.
  rewrite detect_loop_step. unfold probe_accepts, probe_rejects.
  destruct (run_process w (probe_cmd enc)) as [rc out | e].
  - destruct (rc =? 0); [left | right; left]; split; reflexivity.
  - destruct (one_of _ e); [right; left | right; right]; repeat split; eauto.
Qed.

(** Candidates rejected in a row are passed over, each probed once. *)
Lemma detect_loop_skip (w : world) pre rest :
  forallb (probe_rejects w) (map fst pre) = true ->
  outcome (detect_loop w (pre ++ rest)) = outcome (detect_loop w rest) /\
  runs (trace (detect_loop w (pre ++ rest))) =
    (map probe_cmd (map fst pre) ++ runs (trace (detect_loop w rest)))%list.
Proof.
  induction pre as [| [enc name] pre IH]; cbn [app map fst forallb]; intros H.
  - split; reflexivity.
  - apply andb_true_iff in H as [Hr Hpre]. specialize (IH Hpre) as [IHo IHt].
    destruct (detect_loop_cases w enc name (pre ++ rest)%list)
      as [[Ha _] | [[_ ->] | [_ [Hn _]]]].
    + apply accepts_not_rejects in Ha. congruence.
    + cbn [outcome trace fst snd runs]. rewrite IHo, IHt. split; reflexivity.
    + congruence.
Qed.

Lemma detect_loop_accept (w : world) enc name post :
  probe_accepts w enc = true ->
  detect_loop w ((enc, name) :: post) =
    ([Run (probe_cmd enc); Print (MsgUsingEncoder name enc)], Return enc).
Proof.
  intros H.
  destruct (detect_loop_cases w enc name post) as [[_ ->] | [[Hr _] | [Hn _]]].
  - reflexivity.
  - apply accepts_not_rejects in H. congruence.
  - congruence.
Qed.

(** Whatever the selector returns was accepted, unless it is the fallback
    returned after the loop. *)
Lemma detect_loop_returns (w : world) candidates enc :
  outcome (detect_loop w candidates) = Return enc ->
  (In enc (map fst candidates) /\ probe_accepts w enc = true)
  \/ (enc = "libx264" /\ forallb (probe_rejects w) (map fst candidates) = true).
Proof.
  induction candidates as [| [c name] rest IH]; cbn [map fst forallb In].
  - intros H. inversion H. right. split; reflexivity.
  - destruct (detect_loop_cases w c name rest)
      as [[Ha ->] | [[Hr ->] | [_ [_ [e ->]]]]]; cbn [outcome snd]; intros H.
    + inversion H; subst. left. auto.
    + destruct (IH H) as [[Hin Hacc] | [-> Hall]]; [left | right]; auto.
      rewrite Hr, Hall. auto.
    + discriminate.
Qed.

(** C1 (as amended): over every ordered candidate list, the selector
    returns the first candidate whose capability probe exits with status 0,
    having probed exactly the candidates up to it; when every candidate is
    rejected it returns the fallback libx264, even when libx264 was itself
    among the rejected candidates; a rejected candidate other than that
    fallback is never returned; and the selector returns normally whenever
    each probe is accepted or rejected. *)
Theorem detect_first_accepted (w : world) (candidates : list (string * string)) :
  (forall pre enc name post,
      candidates = (pre ++ (enc, name) :: post)%list ->
      forallb (probe_rejects w) (map fst pre) = true ->
      probe_accepts w enc = true ->
      outcome (detect_loop w candidates) = Return enc /\
      runs (trace (detect_loop w candidates)) =
        map probe_cmd (map fst pre ++ [enc])%list)
  /\ (forallb (probe_rejects w) (map fst candidates) = true ->
      outcome (detect_loop w candidates) = Return "libx264" /\
      runs (trace (detect_loop w candidates)) = map probe_cmd (map fst candidates))
  /\ (forall enc,
        outcome (detect_loop w candidates) = Return enc ->
        probe_rejects w enc = true ->
        enc = "libx264")
  /\ ((forall enc, In enc (map fst candidates) ->
         probe_accepts w enc = true \/ probe_rejects w enc = true) ->
      exists enc, outcome (detect_loop w candidates) = Return enc).
Proof.
  repeat split.
  - subst candidates. destruct (detect_loop_skip w pre ((enc, name) :: post) H0) as [-> _].
    rewrite detect_loop_accept by assumption. reflexivity.
  - subst candidates. destruct (detect_loop_skip w pre ((enc, name) :: post) H0) as [_ ->].
    rewrite detect_loop_accept by assumption. simpl.
    rewrite !map_app. reflexivity.
  - destruct (detect_loop_skip w candidates [] H) as [Ho _].
    rewrite app_nil_r in Ho. rewrite Ho. reflexivity.
  - destruct (detect_loop_skip w candidates [] H) as [_ Ht].
    rewrite app_nil_r in Ht. rewrite Ht. simpl. apply app_nil_r.
  - intros enc Hret Hrej.
    destruct (detect_loop_returns w candidates enc Hret) as [[_ Hacc] | [-> _]]; [| reflexivity].
    apply accepts_not_rejects in Hacc. congruence.
  - induction candidates as [| [c name] rest IH]; intros Hall.
    + eexists. reflexivity.
    + destruct (detect_loop_cases w c name rest)
        as [[_ ->] | [[_ ->] | [Ha [Hr _]]]].
      * eexists. reflexivity.
      * apply IH. intros enc Hin. apply Hall. right. exact Hin.
      * destruct (Hall c (or_introl eq_refl)); congruence.
Qed.

(** The scenario of the specification: the first two probes time out and
    the third succeeds; the third candidate is returned and the fourth is
    never probed. *)
Lemma detect_first_accepted_witness :
  outcome (detect_gpu_encoder third_candidate_world) = Return "h264_qsv" /\
  runs (trace (detect_gpu_encoder third_candidate_world)) =
    [probe_cmd "h264_nvenc"; probe_cmd "h264_amf"; probe_cmd "h264_qsv"].
Proof.
  exact (proj1 (detect_first_accepted third_candidate_world encoders)
           [("h264_nvenc", "NVIDIA NVENC"); ("h264_amf", "AMD AMF")]
           "h264_qsv" "Intel QuickSync" [("libx264", "CPU (fallback)")]
           eq_refl eq_refl eq_refl).
Defined.

(** C1 as stated fails: when every probe times out, libx264 is probed and
    rejected like the others, and is returned all the same. *)
Lemma detect_returns_rejected_fallback :
  outcome (detect_gpu_encoder timeout_world) = Return "libx264" /\
  In (probe_cmd "libx264") (runs (trace (detect_gpu_encoder timeout_world))) /\
  In "libx264" (map fst encoders) /\
  probe_rejects timeout_world "libx264" = true.
Proof.
  repeat split; vm_compute; auto 10.
Qed.

(** ** Binary64 rounding *)

(** The lemmas of this part describe what [binary_round_aux] does to a
    mantissa and an exponent, in terms of integer division by powers of
    two.  They are what is needed to know that a quotient is a valid
    finite float, and to bound it from below. *)

Lemma fexp_eq (e : Z) : fexp prec emax e = Z.max (e - 53) (-1074).
Proof. reflexivity. Qed.

Lemma digits2_pos_size (p : positive) : digits2_pos p = Pos.size p.
Proof. induction p; simpl; congruence. Qed.

Lemma digits_log2 (m : Z) : 0 < m -> Zdigits2 m = Z.log2 m + 1.
Proof.
  destruct m as [| p | p]; try lia. intros _. simpl Zdigits2.
  rewrite digits2_pos_size. destruct p; simpl; lia.
Qed.

Lemma digits_pos (m : Z) : 0 < m -> 0 < Zdigits2 m.
Proof. intros H. rewrite digits_log2 by assumption. pose proof (Z.log2_nonneg m). lia. Qed.

Lemma digits_bounds (m : Z) :
  0 < m -> 2 ^ (Zdigits2 m - 1) <= m < 2 ^ Zdigits2 m.
Proof.
  intros H. rewrite digits_log2 by assumption.
  replace (Z.log2 m + 1 - 1) with (Z.log2 m) by lia.
  replace (Z.log2 m + 1) with (Z.succ (Z.log2 m)) by lia.
  apply Z.log2_spec. assumption.
Qed.

Lemma digits_unique (m k : Z) :
  2 ^ (k - 1) <= m < 2 ^ k -> 0 < k -> Zdigits2 m = k.
Proof.
  intros H Hk.
  assert (0 < m) by (pose proof (Z.pow_pos_nonneg 2 (k - 1)); lia).
  rewrite digits_log2 by assumption.
  rewrite (Z.log2_unique m (k - 1)); try lia.
  replace (Z.succ (k - 1)) with k by lia. assumption.
Qed.

Lemma digits_le (m k : Z) : 0 < m -> m < 2 ^ k -> Zdigits2 m <= k.
Proof.
  intros Hm H. destruct (Z_lt_le_dec k (Zdigits2 m)) as [Hlt | ]; [| assumption].
  pose proof (digits_bounds m Hm) as [Hlo _].
  assert (0 <= k).
  { destruct (Z_lt_le_dec k 0); [| assumption]. rewrite Z.pow_neg_r in H; lia. }
  assert (2 ^ k <= 2 ^ (Zdigits2 m - 1)) by (apply Z.pow_le_mono_r; lia).
  lia.
Qed.

Lemma digits_ge (m k : Z) : 2 ^ (k - 1) <= m -> 0 < k -> k <= Zdigits2 m.
Proof.
  intros H Hk.
  assert (Hm : 0 < m) by (pose proof (Z.pow_pos_nonneg 2 (k - 1)); lia).
  destruct (Z_lt_le_dec (Zdigits2 m) k) as [Hlt | ]; [| assumption].
  pose proof (digits_bounds m Hm) as [_ Hhi]. pose proof (digits_pos m Hm).
  assert (2 ^ Zdigits2 m <= 2 ^ (k - 1)) by (apply Z.pow_le_mono_r; lia).
  lia.
Qed.

Lemma digits_div_pow2 (m n : Z) :
  0 < m -> 0 <= n -> n < Zdigits2 m -> Zdigits2 (m / 2 ^ n) = Zdigits2 m - n.
Proof.
  intros Hm Hn Hlt.
  pose proof (digits_bounds m Hm) as [Hlo Hhi].
  assert (Hp : 0 < 2 ^ n) by (apply Z.pow_pos_nonneg; lia).
  apply digits_unique; [| lia]. split.
  - apply Z.div_le_lower_bound; [assumption |].
    rewrite <- Z.pow_add_r by lia.
    replace (n + (Zdigits2 m - n - 1)) with (Zdigits2 m - 1) by lia. assumption.
  - apply Z.div_lt_upper_bound; [assumption |].
    rewrite <- Z.pow_add_r by lia.
    replace (n + (Zdigits2 m - n)) with (Zdigits2 m) by lia. assumption.
Qed.

Lemma div_pow2_small (m n : Z) :
  0 < m -> Zdigits2 m <= n -> m / 2 ^ n = 0.
Proof.
  intros Hm Hn. apply Z.div_small.
  pose proof (digits_bounds m Hm) as [_ Hhi]. pose proof (digits_pos m Hm).
  assert (2 ^ Zdigits2 m <= 2 ^ n) by (apply Z.pow_le_mono_r; lia). lia.
Qed.

(** *** Shifting a mantissa to the right *)

Lemma shr_1_m (mrs : shr_record) :
  0 <= shr_m mrs -> shr_m (shr_1 mrs) = shr_m mrs / 2.
Proof.
  destruct mrs as [m r s]. simpl. intros Hm.
  destruct m as [| [p | p |] | p]; cbn [shr_m]; try lia.
  - reflexivity.
  - rewrite Pos2Z.inj_xI. apply (Z.div_unique _ _ _ 1); lia.
  - rewrite Pos2Z.inj_xO. apply (Z.div_unique _ _ _ 0); lia.
  - reflexivity.
Qed.

Lemma iter_pos_nat {A} (f : A -> A) (p : positive) (x : A) :
  iter_pos f p x = Nat.iter (Pos.to_nat p) f x.
Proof.
  revert x. induction p as [p IH | p IH |]; intros x.
  - change (iter_pos f p~1 x) with (iter_pos f p (iter_pos f p (f x))).
    rewrite !IH, Pos2Nat.inj_xI, Nat.iter_succ_r.
    replace (2 * Pos.to_nat p)%nat with (Pos.to_nat p + Pos.to_nat p)%nat by lia.
    rewrite Nat.iter_add. reflexivity.
  - change (iter_pos f p~0 x) with (iter_pos f p (iter_pos f p x)).
    rewrite !IH, Pos2Nat.inj_xO.
    replace (2 * Pos.to_nat p)%nat with (Pos.to_nat p + Pos.to_nat p)%nat by lia.
    rewrite Nat.iter_add. reflexivity.
  - reflexivity.
Qed.

Lemma shr_iter_m (n : nat) (mrs : shr_record) :
  0 <= shr_m mrs ->
  shr_m (Nat.iter n shr_1 mrs) = shr_m mrs / 2 ^ Z.of_nat n.
Proof.
  intros Hm. induction n as [| n IH].
  - simpl. rewrite Z.div_1_r. reflexivity.
  - rewrite Nat2Z.inj_succ, Z.pow_succ_r by lia. simpl Nat.iter.
    rewrite shr_1_m.
    + rewrite IH. rewrite Z.div_div by (try apply Z.pow_pos_nonneg; lia).
      f_equal. lia.
    + rewrite IH. apply Z.div_pos; [assumption | apply Z.pow_pos_nonneg; lia].
Qed.

(** [shr] by [n] divides the mantissa by [2 ^ n] and adds [n] to the
    exponent; a shift that is not positive changes nothing. *)
Lemma shr_m_e (mrs : shr_record) (e n : Z) :
  0 <= shr_m mrs ->
  shr_m (fst (shr mrs e n)) = shr_m mrs / 2 ^ Z.max 0 n /\
  snd (shr mrs e n) = e + Z.max 0 n.
Proof.
  intros Hm. destruct n as [| p | p]; simpl.
  - rewrite Z.div_1_r. split; [reflexivity | lia].
  - rewrite iter_pos_nat, shr_iter_m by assumption.
    rewrite positive_nat_Z. split; reflexivity.
  - rewrite Z.div_1_r. split; [reflexivity | lia].
Qed.

Lemma shr_record_of_loc_m (m : Z) (l : location) :
  shr_m (shr_record_of_loc m l) = m.
Proof. destruct l as [| []]; reflexivity. Qed.

Lemma round_nearest_even_bounds (m : Z) (l : location) :
  m <= round_nearest_even m l <= m + 1.
Proof.
  destruct l as [| []]; simpl; try lia. destruct (Z.even m); lia.
Qed.

Lemma digits_mono (a b : Z) : 0 < a -> a <= b -> Zdigits2 a <= Zdigits2 b.
Proof.
  intros Ha Hab. rewrite !digits_log2 by lia.
  pose proof (Z.log2_le_mono a b Hab). lia.
Qed.

(** The first shift of [binary_round_aux]: the mantissa is divided by
    the power of two that brings the exponent to [fexp], and what is left
    has at most 53 digits. *)
Lemma shr_fexp_first (m e : Z) (l : location) :
  0 < m -> e <= fexp prec emax (Zdigits2 m + e) ->
  let e1 := fexp prec emax (Zdigits2 m + e) in
  let m1 := shr_m (fst (shr_fexp prec emax m e l)) in
  snd (shr_fexp prec emax m e l) = e1 /\
  m1 = m / 2 ^ (e1 - e) /\
  0 <= m1 < 2 ^ 53 /\
  -1074 <= e1 /\
  (m1 = 0 -> e1 = -1074) /\
  (0 < m1 -> Zdigits2 m1 + e1 = Zdigits2 m + e).
Proof.
  intros Hm He e1 m1. subst m1. unfold shr_fexp.
  fold e1. fold e1 in He.
  destruct (shr_m_e (shr_record_of_loc m l) e (e1 - e)) as [Hsm Hse].
  { rewrite shr_record_of_loc_m. lia. }
  rewrite shr_record_of_loc_m in Hsm.
  rewrite Z.max_r in Hsm, Hse by lia.
  rewrite Hsm, Hse.
  assert (He1 : e1 = Z.max (Zdigits2 m + e - 53) (-1074)) by apply fexp_eq.
  pose proof (digits_pos m Hm) as Hd.
  assert (Hp : 0 < 2 ^ (e1 - e)) by (apply Z.pow_pos_nonneg; lia).
  split; [lia |]. split; [reflexivity |].
  destruct (Z_lt_le_dec (e1 - e) (Zdigits2 m)) as [Hlt | Hge].
  - pose proof (digits_div_pow2 m (e1 - e) Hm ltac:(lia) Hlt) as Hdd.
    assert (Hpos : 0 < m / 2 ^ (e1 - e)).
    { apply Z.div_str_pos. split; [assumption |].
      pose proof (digits_bounds m Hm) as [Hlo _].
      assert (2 ^ (e1 - e) <= 2 ^ (Zdigits2 m - 1)) by (apply Z.pow_le_mono_r; lia).
      lia. }
    pose proof (digits_bounds _ Hpos) as [_ Hhi].
    assert (2 ^ Zdigits2 (m / 2 ^ (e1 - e)) <= 2 ^ 53)
      by (apply Z.pow_le_mono_r; lia).
    repeat split; try lia.
  - rewrite (div_pow2_small m (e1 - e)) by assumption.
    repeat split; try lia.
Qed.

(** What [binary_round_aux] returns on a positive mantissa whose exponent
    is not above the one its magnitude calls for: the mantissa shifted and
    rounded, renormalised when rounding carried into a 54th digit, and
    turned into an infinity when the exponent is too large. *)
Lemma binary_round_aux_shape (s : bool) (m e : Z) (l : location) :
  0 < m -> e <= fexp prec emax (Zdigits2 m + e) ->
  let e1 := fexp prec emax (Zdigits2 m + e) in
  let mrs := fst (shr_fexp prec emax m e l) in
  let mr := round_nearest_even (shr_m mrs) (loc_of_shr_record mrs) in
  shr_m mrs <= mr <= 2 ^ 53 /\
  (0 < mr < 2 ^ 53 -> fexp prec emax (Zdigits2 mr + e1) = e1) /\
  binary_round_aux prec emax s m e l =
    if mr =? 0 then S754_zero s
    else if mr =? 2 ^ 53 then
      if e1 + 1 <=? 971 then S754_finite s (Z.to_pos (2 ^ 52)) (e1 + 1)
      else S754_infinity s
    else
      if e1 <=? 971 then S754_finite s (Z.to_pos mr) e1
      else S754_infinity s.
Proof.
  intros Hm He e1 mrs mr.
  destruct (shr_fexp_first m e l Hm He) as (Hsnd & Hm1 & Hrange & Hemin & Hzero & Hdig).
  fold e1 in Hsnd, Hm1, Hemin, Hzero, Hdig. fold mrs in Hm1, Hrange, Hzero, Hdig.
  pose proof (round_nearest_even_bounds (shr_m mrs) (loc_of_shr_record mrs)) as Hr.
  fold mr in Hr.
  assert (Hcanon : 0 < mr < 2 ^ 53 -> fexp prec emax (Zdigits2 mr + e1) = e1).
  { intros Hmr. rewrite fexp_eq.
    pose proof (digits_le mr 53 ltac:(lia) ltac:(lia)) as Hle.
    pose proof (digits_pos mr ltac:(lia)) as Hdp.
    destruct (Z.eq_dec (shr_m mrs) 0) as [Hz | Hnz].
    - specialize (Hzero Hz). lia.
    - specialize (Hdig ltac:(lia)).
      pose proof (digits_mono (shr_m mrs) mr ltac:(lia) ltac:(lia)) as Hmono.
      assert (He1 : e1 = Z.max (Zdigits2 m + e - 53) (-1074)) by apply fexp_eq.
      lia. }
  split; [lia |]. split; [exact Hcanon |].
  unfold binary_round_aux.
  destruct (shr_fexp prec emax m e l) as [mrs0 e0] eqn:Hshr.
  cbn [fst snd] in *. subst mrs. subst e0. fold mr.
  unfold shr_fexp.
  destruct (shr_m_e (shr_record_of_loc mr loc_Exact) e1
              (fexp prec emax (Zdigits2 mr + e1) - e1)) as [Hsm Hse].
  { cbn [shr_record_of_loc shr_m]. lia. }
  cbn [shr_record_of_loc shr_m] in Hsm, Hse.
  destruct (shr {| shr_m := mr; shr_r := false; shr_s := false |} e1
              (fexp prec emax (Zdigits2 mr + e1) - e1)) as [mrs2 e2] eqn:Hshr2.
  cbn [fst snd] in Hsm, Hse.
  cbn [shr_record_of_loc].
  rewrite Hshr2.
  destruct (Z.eqb_spec mr 0) as [H0 | H0].
  - rewrite H0 in Hsm. rewrite Z.div_0_l in Hsm
      by (apply Z.pow_nonzero; lia). rewrite Hsm. reflexivity.
  - destruct (Z.eqb_spec mr (2 ^ 53)) as [H53 | H53].
    + rewrite H53 in Hsm, Hse.
      replace (Zdigits2 (2 ^ 53)) with 54 in Hsm, Hse by reflexivity.
      rewrite fexp_eq in Hsm, Hse.
      replace (Z.max 0 (Z.max (54 + e1 - 53) (-1074) - e1)) with 1 in Hsm, Hse by lia.
      rewrite Hsm, Hse. reflexivity.
    + specialize (Hcanon ltac:(lia)). rewrite Hcanon in Hsm, Hse.
      rewrite Z.sub_diag in Hsm, Hse. simpl in Hsm, Hse.
      rewrite Z.div_1_r in Hsm. rewrite Hsm.
      replace e2 with e1 by lia.
      destruct mr as [| p | p]; try lia. reflexivity.
Qed.

(** A float returned by [binary_round_aux] under the same conditions is
    valid, and finite as soon as its exponent leaves room. *)
Lemma binary_round_aux_valid (s : bool) (m e : Z) (l : location) :
  0 < m -> e <= fexp prec emax (Zdigits2 m + e) ->
  valid_binary prec emax (binary_round_aux prec emax s m e l) = true /\
  (fexp prec emax (Zdigits2 m + e) + 1 <= 971 ->
   is_finite (binary_round_aux prec emax s m e l) = true).
Proof.
  intros Hm He.
  destruct (binary_round_aux_shape s m e l Hm He) as (Hr & Hcanon & ->).
  set (e1 := fexp prec emax (Zdigits2 m + e)) in *.
  set (mr := round_nearest_even _ _) in *.
  assert (Hemin : -1074 <= e1) by (subst e1; rewrite fexp_eq; lia).
  destruct (Z.eqb_spec mr 0) as [H0 | H0]; [split; reflexivity |].
  destruct (Z.eqb_spec mr (2 ^ 53)) as [H53 | H53].
  - destruct (Z.leb_spec (e1 + 1) 971) as [Hle | Hgt].
    + split; [| reflexivity]. cbn [valid_binary]. unfold bounded, canonical_mantissa.
      change (Z.pos (digits2_pos (Z.to_pos (2 ^ 52)))) with 53.
      rewrite fexp_eq. apply andb_true_iff. split.
      * apply Z.eqb_eq. lia.
      * apply Z.leb_le. unfold emax, prec. lia.
    + split; [reflexivity | lia].
  - pose proof (shr_fexp_first m e l Hm He) as (_ & _ & [Hlo _] & _).
    assert (Hpos : 0 < mr < 2 ^ 53) by lia.
    specialize (Hcanon Hpos).
    destruct (Z.leb_spec e1 971) as [Hle | Hgt].
    + split; [| reflexivity]. cbn [valid_binary]. unfold bounded, canonical_mantissa.
      destruct mr as [| p | p]; try lia. cbn [Z.to_pos].
      change (Z.pos (digits2_pos p)) with (Zdigits2 (Z.pos p)).
      rewrite Hcanon. apply andb_true_iff. split.
      * apply Z.eqb_refl.
      * apply Z.leb_le. unfold emax, prec. lia.
    + split; [reflexivity | lia].
Qed.

(** *** Division *)

Lemma SFdiv_core_spec (mx my : positive) (ex ey : Z) :
  let e' := Z.min (fexp prec emax (Zdigits2 (Z.pos mx) + ex - (Zdigits2 (Z.pos my) + ey)))
                  (ex - ey) in
  let m' := Z.pos mx * 2 ^ (ex - ey - e') in
  SFdiv_core_binary prec emax (Z.pos mx) ex (Z.pos my) ey =
    (m' / Z.pos my, e', new_location (Z.pos my) (m' mod Z.pos my)).
Proof.
  intros e' m'. unfold SFdiv_core_binary. fold e'.
  assert (Hs : 0 <= ex - ey - e') by (subst e'; lia).
  assert (Hm' : match ex - ey - e' with
                | Z.pos _ => Z.shiftl (Z.pos mx) (ex - ey - e')
                | 0 => Z.pos mx
                | Z.neg _ => 0
                end = m').
  { subst m'. destruct (ex - ey - e') as [| p | p] eqn:E.
    - simpl. lia.
    - rewrite Z.shiftl_mul_pow2 by lia. reflexivity.
    - lia. }
  rewrite Hm'. unfold Z.div, Z.modulo.
  destruct (Z.div_eucl m' (Z.pos my)); reflexivity.
Qed.

(** The number of digits of a positive quotient, within one. *)
Lemma quotient_digits (a b : Z) :
  0 < a -> 0 < b -> 0 < a / b ->
  Zdigits2 a - Zdigits2 b <= Zdigits2 (a / b) <= Zdigits2 a - Zdigits2 b + 1.
Proof.
  intros Ha Hb Hq.
  pose proof (digits_bounds a Ha) as [Halo Hahi].
  pose proof (digits_bounds b Hb) as [Hblo Hbhi].
  pose proof (digits_pos a Ha). pose proof (digits_pos b Hb).
  pose proof (digits_pos _ Hq).
  assert (Hba : b <= a).
  { destruct (Z_lt_le_dec a b); [rewrite Z.div_small in Hq; lia | lia]. }
  pose proof (digits_mono b a Hb Hba).
  split.
  - destruct (Z_lt_le_dec (Zdigits2 a - Zdigits2 b) 1) as [Hsmall | Hbig]; [lia |].
    apply digits_ge; [| lia].
    apply Z.div_le_lower_bound; [assumption |].
    assert (b * 2 ^ (Zdigits2 a - Zdigits2 b - 1)
            <= 2 ^ Zdigits2 b * 2 ^ (Zdigits2 a - Zdigits2 b - 1)).
    { apply Z.mul_le_mono_nonneg_r; [apply Z.pow_nonneg |]; lia. }
    rewrite <- Z.pow_add_r in H3 by lia.
    replace (Zdigits2 b + (Zdigits2 a - Zdigits2 b - 1)) with (Zdigits2 a - 1) in H3 by lia.
    lia.
  - apply digits_le; [assumption |].
    assert (a / b <= a / 2 ^ (Zdigits2 b - 1)).
    { apply Z.div_le_compat_l; [lia |]. split; [apply Z.pow_pos_nonneg; lia | assumption]. }
    assert (a / 2 ^ (Zdigits2 b - 1) < 2 ^ (Zdigits2 a - Zdigits2 b + 1)).
    { apply Z.div_lt_upper_bound; [apply Z.pow_pos_nonneg; lia |].
      rewrite <- Z.pow_add_r by lia.
      replace (Zdigits2 b - 1 + (Zdigits2 a - Zdigits2 b + 1)) with (Zdigits2 a) by lia.
      assumption. }
    lia.
Qed.

Lemma digits_mul_pow2 (m n : Z) :
  0 < m -> 0 <= n -> Zdigits2 (m * 2 ^ n) = Zdigits2 m + n.
Proof.
  intros Hm Hn. pose proof (digits_bounds m Hm) as [Hlo Hhi].
  pose proof (digits_pos m Hm).
  assert (0 < 2 ^ n) by (apply Z.pow_pos_nonneg; lia).
  apply digits_unique; [| lia].
  replace (Zdigits2 m + n - 1) with (Zdigits2 m - 1 + n) by lia.
  rewrite !Z.pow_add_r by lia. split; nia.
Qed.

(** The quotient of two finite floats is the rounding of the integer
    quotient of the core division. *)
Lemma SFdiv_finite (sx sy : bool) (mx my : positive) (ex ey : Z) :
  let e' := Z.min (fexp prec emax (Zdigits2 (Z.pos mx) + ex - (Zdigits2 (Z.pos my) + ey)))
                  (ex - ey) in
  let m' := Z.pos mx * 2 ^ (ex - ey - e') in
  SFdiv prec emax (S754_finite sx mx ex) (S754_finite sy my ey) =
    binary_round_aux prec emax (xorb sx sy) (m' / Z.pos my) e'
      (new_location (Z.pos my) (m' mod Z.pos my)).
Proof.
  intros e' m'. unfold SFdiv. rewrite SFdiv_core_spec. reflexivity.
Qed.

(** The exponent of the core quotient is never above the one its magnitude
    calls for, and the magnitude of the quotient is that of the operands. *)
Lemma SFdiv_core_digits (mx my : positive) (ex ey : Z) :
  let d := Zdigits2 (Z.pos mx) + ex - (Zdigits2 (Z.pos my) + ey) in
  let e' := Z.min (fexp prec emax d) (ex - ey) in
  let q := Z.pos mx * 2 ^ (ex - ey - e') / Z.pos my in
  0 < q ->
  d <= Zdigits2 q + e' <= d + 1 /\ e' <= fexp prec emax (Zdigits2 q + e').
Proof.
  intros d e' q Hq.
  assert (Hs : 0 <= ex - ey - e') by (subst e'; lia).
  assert (Hp : 0 < 2 ^ (ex - ey - e')) by (apply Z.pow_pos_nonneg; lia).
  pose proof (quotient_digits (Z.pos mx * 2 ^ (ex - ey - e')) (Z.pos my)
                ltac:(lia) ltac:(lia) Hq) as Hqd.
  rewrite digits_mul_pow2 in Hqd by lia. fold q in Hqd.
  assert (Hd : d <= Zdigits2 q + e' <= d + 1) by (subst d; lia).
  split; [exact Hd |].
  rewrite fexp_eq. subst e'. rewrite fexp_eq in *. lia.
Qed.

(** A zero mantissa rounds to a zero or to the smallest float above it,
    never to an infinity, when the exponent is not positive. *)
Lemma binary_round_aux_zero_finite (s : bool) (e : Z) (l : location) :
  e <= 0 ->
  is_finite (binary_round_aux prec emax s 0 e l) = true.
Proof.
  intros He. unfold binary_round_aux.
  destruct (shr_fexp prec emax 0 e l) as [mrs1 e1] eqn:H1.
  assert (Hm1 : shr_m mrs1 = 0 /\ e1 <= 0).
  { unfold shr_fexp in H1.
    destruct (shr_m_e (shr_record_of_loc 0 l) e
                (fexp prec emax (Zdigits2 0 + e) - e)) as [Hsm Hse].
    { rewrite shr_record_of_loc_m. lia. }
    rewrite H1 in Hsm, Hse. cbn [fst snd] in Hsm, Hse.
    rewrite shr_record_of_loc_m in Hsm. rewrite Z.div_0_l in Hsm
      by (apply Z.pow_nonzero; lia).
    split; [exact Hsm |]. rewrite Hse. cbn [Zdigits2]. rewrite fexp_eq. lia. }
  destruct Hm1 as [Hm1 He1]. rewrite Hm1.
  set (mr := round_nearest_even 0 (loc_of_shr_record mrs1)).
  pose proof (round_nearest_even_bounds 0 (loc_of_shr_record mrs1)) as Hr.
  fold mr in Hr.
  destruct (shr_fexp prec emax mr e1 loc_Exact) as [mrs2 e2] eqn:H2.
  unfold shr_fexp in H2.
  destruct (shr_m_e (shr_record_of_loc mr loc_Exact) e1
              (fexp prec emax (Zdigits2 mr + e1) - e1)) as [Hsm Hse].
  { rewrite shr_record_of_loc_m. lia. }
  rewrite H2 in Hsm, Hse. cbn [fst snd] in Hsm, Hse.
  rewrite shr_record_of_loc_m in Hsm.
  assert (Hmr : mr = 0 \/ mr = 1) by lia.
  destruct Hmr as [-> | ->].
  - rewrite Z.div_0_l in Hsm by (apply Z.pow_nonzero; lia).
    rewrite Hsm. reflexivity.
  - change (Zdigits2 1) with 1 in Hsm, Hse. rewrite fexp_eq in Hsm, Hse.
    destruct (Z_lt_le_dec 0 (Z.max (1 + e1 - 53) (-1074) - e1)) as [Hpos | Hneg].
    + rewrite Z.div_small in Hsm.
      * rewrite Hsm. reflexivity.
      * split; [lia |]. apply Z.pow_gt_1; lia.
    + rewrite Z.max_l in Hsm, Hse by lia. simpl in Hsm. rewrite Hsm.
      destruct (Z.leb_spec e2 (emax - prec)) as [Hle | Hgt]; [reflexivity |].
      unfold emax, prec in Hgt. lia.
Qed.

(** The rounded quotient of two integers is finite unless the dividend
    is astronomically large. *)
Lemma round_quotient_finite (a b : Z) :
  b <> 0 -> Z.abs a < 2 ^ 1023 -> is_finite (round_quotient a b) = true.
Proof.
  intros Hb Ha. unfold round_quotient.
  destruct (Z.abs a) as [| p | p] eqn:Ea; [reflexivity | | lia].
  destruct (Z.abs b) as [| q | q] eqn:Eb; [lia | | lia].
  rewrite SFdiv_finite.
  set (d := Zdigits2 (Z.pos p) + 0 - (Zdigits2 (Z.pos q) + 0)).
  set (e' := Z.min (fexp prec emax d) (0 - 0)).
  set (Q := Z.pos p * 2 ^ (0 - 0 - e') / Z.pos q).
  assert (He' : e' <= 0) by (subst e'; lia).
  assert (HQ : 0 <= Q).
  { subst Q. apply Z.div_pos; [| lia].
    apply Z.mul_nonneg_nonneg; [lia | apply Z.pow_nonneg; lia]. }
  destruct (Z.eq_dec Q 0) as [-> | Hnz].
  - apply binary_round_aux_zero_finite. exact He'.
  - destruct (SFdiv_core_digits p q 0 0 ltac:(fold d; fold e'; fold Q; lia))
      as [Hd Hpre].
    fold d in Hd, Hpre. fold e' in Hd, Hpre. fold Q in Hd, Hpre.
    apply (binary_round_aux_valid _ Q e' _ ltac:(lia) Hpre).
    pose proof (digits_le (Z.pos p) 1023 ltac:(lia) ltac:(lia)).
    pose proof (digits_pos (Z.pos q) ltac:(lia)).
    rewrite fexp_eq. subst d. lia.
Qed.

Lemma int_truediv_returns (a b : Z) :
  b <> 0 -> Z.abs a < 2 ^ 1023 ->
  int_truediv a b = Return (round_quotient a b).
Proof.
  intros Hb Ha. unfold int_truediv.
  destruct (Z.eqb_spec b 0); [contradiction |].
  rewrite round_quotient_finite by assumption. reflexivity.
Qed.


(** *** Locations *)







(** *** Comparisons *)




(** *** A quotient above one *)


(** *** A percentage above one hundred *)


Lemma float_of_int_0 : float_of_int 0 = S754_zero false.
Proof. reflexivity. Qed.

Lemma float_of_int_1 :
  float_of_int 1 = S754_finite false 4503599627370496 (-52).
Proof. vm_compute. reflexivity. Qed.




(** ** String lemmas *)

Lemma prefix_app (p s : string) : prefix p (p ++ s) = true.
Proof.
  induction p as [| a p IH]; simpl.
  - destruct s; reflexivity.
  - destruct (ascii_dec a a) as [_ | Hne]; [exact IH | contradiction].
Qed.

Lemma contains_app (sub pre rest : string) :
  contains sub (pre ++ sub ++ rest) = true.
Proof.
  induction pre as [| a pre IH]; cbn [append].
  - destruct (sub ++ rest) eqn:E; cbn [contains];
      rewrite <- E, prefix_app; reflexivity.
  - cbn [contains]. rewrite IH.
    destruct (prefix sub (String a (pre ++ sub ++ rest))); reflexivity.
Qed.

Lemma split_nonempty (c : ascii) (s : string) : split c s <> [].
Proof.
  destruct s as [| a s]; simpl; [discriminate |].
  destruct (Ascii.eqb a c); [discriminate |].
  destruct (split c s); discriminate.
Qed.

(** A string without the separator is a single field. *)
Lemma split_no_sep (c : ascii) (s : string) :
  all_chars (fun a => negb (Ascii.eqb a c)) s = true -> split c s = [s].
Proof.
  induction s as [| a s IH]; simpl; [reflexivity |].
  intros H. apply andb_true_iff in H as [Ha Hs].
  apply negb_true_iff in Ha. rewrite Ha, (IH Hs). reflexivity.
Qed.

(** The first field ends at the first separator. *)
Lemma split_app (c : ascii) (a b : string) :
  all_chars (fun x => negb (Ascii.eqb x c)) a = true ->
  split c (a ++ String c b) = a :: split c b.
Proof.
  induction a as [| x a IH]; simpl.
  - intros _. rewrite Ascii.eqb_refl. reflexivity.
  - intros H. apply andb_true_iff in H as [Hx Ha].
    apply negb_true_iff in Hx. rewrite Hx, (IH Ha). reflexivity.
Qed.

Lemma append_assoc (a b c : string) : (a ++ b) ++ c = a ++ b ++ c.
Proof. induction a as [| x a IH]; simpl; [reflexivity | rewrite IH; reflexivity]. Qed.

Lemma all_chars_app f (a b : string) :
  all_chars f (a ++ b) = all_chars f a && all_chars f b.
Proof.
  induction a as [| x a IH]; simpl; [reflexivity |].
  rewrite IH, andb_assoc. reflexivity.
Qed.

Lemma all_chars_impl (f g : ascii -> bool) (s : string) :
  (forall a, f a = true -> g a = true) ->
  all_chars f s = true -> all_chars g s = true.
Proof.
  intros Hfg. induction s as [| a s IH]; simpl; [reflexivity |].
  intros H. apply andb_true_iff in H as [Ha Hs].
  rewrite (Hfg a Ha), (IH Hs). reflexivity.
Qed.

(** The numeric field of a line whose first equals sign is the one of the
    marker. *)
Lemma numeric_field_marker (pre marker field : string) :
  all_chars not_eq_sign pre = true ->
  all_chars not_eq_sign marker = true ->
  all_chars not_eq_sign field = true ->
  numeric_field (pre ++ (marker ++ "=") ++ field) = Return field.
Proof.
  intros Hpre Hmarker Hfield. unfold numeric_field.
  rewrite append_assoc. rewrite <- (append_assoc pre marker).
  change ("=" ++ field) with (String "=" field).
  rewrite split_app.
  - rewrite (split_no_sep "=" field Hfield). reflexivity.
  - rewrite all_chars_app. unfold not_eq_sign in *. rewrite Hpre, Hmarker. reflexivity.
Qed.

Lemma lstrip_no_space (s : string) :
  all_chars (fun a => negb (is_space a)) s = true -> lstrip s = s.
Proof.
  destruct s as [| a s]; simpl; [reflexivity |].
  intros H. apply andb_true_iff in H as [Ha _].
  apply negb_true_iff in Ha. rewrite Ha. reflexivity.
Qed.

Lemma rstrip_no_space (s : string) :
  all_chars (fun a => negb (is_space a)) s = true -> rstrip s = s.
Proof.
  induction s as [| a s IH]; simpl; [reflexivity |].
  intros H. apply andb_true_iff in H as [Ha Hs].
  apply negb_true_iff in Ha. rewrite (IH Hs), Ha.
  destruct s; reflexivity.
Qed.

Lemma strip_no_space (s : string) :
  all_chars (fun a => negb (is_space a)) s = true -> strip s = s.
Proof.
  intros H. unfold strip. rewrite (lstrip_no_space s H). apply rstrip_no_space, H.
Qed.

(** ** Printing and reading an integer *)


Lemma digit_char (n : Z) :
  0 <= n < 10 ->
  is_digit (ascii_of_nat (48 + Z.to_nat n)) = true /\
  digit_value (ascii_of_nat (48 + Z.to_nat n)) = n.
Proof.
  intros H. rewrite <- (Z2Nat.id n) at 3 by lia.
  assert (Hk : (Z.to_nat n < 10)%nat) by lia.
  revert Hk. generalize (Z.to_nat n). clear H. intros k Hk.
  do 10 (destruct k as [| k]; [split; reflexivity |]). lia.
Qed.

Lemma show_digits_chars (fuel : nat) (n : Z) (acc : string) :
  0 <= n -> all_chars is_digit acc = true ->
  all_chars is_digit (show_digits fuel n acc) = true.
Proof.
  revert n acc. induction fuel as [| fuel IH]; intros n acc Hn Hacc; cbn [show_digits].
  - exact Hacc.
  - pose proof (Z.mod_pos_bound n 10 ltac:(lia)) as Hmod.
    destruct (digit_char (n mod 10) Hmod) as [Hd _].
    destruct (n <? 10).
    + cbn [all_chars]. rewrite Hd, Hacc. reflexivity.
    + apply IH; [apply Z.div_pos; lia |]. cbn [all_chars]. rewrite Hd, Hacc. reflexivity.
Qed.

Lemma show_digits_S (fuel : nat) (n : Z) (acc : string) :
  show_digits (S fuel) n acc =
  if n <? 10 then String (ascii_of_nat (48 + Z.to_nat (n mod 10))) acc
  else show_digits fuel (n / 10) (String (ascii_of_nat (48 + Z.to_nat (n mod 10))) acc).
Proof. reflexivity. Qed.

(** Reading back the digits of [n]: the reader is left with the value
    [n] and the rest of the input. *)
Lemma int_digits_show (fuel : nat) (n : Z) (acc : string) (b : bool) :
  0 <= n < 2 ^ Z.of_nat (S fuel) ->
  int_digits b 0 (show_digits (S fuel) n acc) = int_digits true n acc.
Proof.
  revert n acc b. induction fuel as [| fuel IH]; intros n acc b Hn;
    rewrite show_digits_S;
    pose proof (Z.mod_pos_bound n 10 ltac:(lia)) as Hmod;
    destruct (digit_char (n mod 10) Hmod) as [Hd Hv].
  - change (2 ^ Z.of_nat 1) with 2 in Hn.
    replace (n <? 10) with true by (symmetry; apply Z.ltb_lt; lia).
    cbn [int_digits]. rewrite Hd, Hv. rewrite Z.mod_small by lia. reflexivity.
  - destruct (Z.ltb_spec n 10) as [Hlt | Hge].
    + cbn [int_digits]. rewrite Hd, Hv. rewrite Z.mod_small by lia. reflexivity.
    + rewrite IH.
      * cbn [int_digits]. rewrite Hd, Hv. f_equal.
        pose proof (Z.div_mod n 10 ltac:(lia)). lia.
      * split; [apply Z.div_pos; lia |].
        apply Z.div_lt_upper_bound; [lia |].
        rewrite Nat2Z.inj_succ, Z.pow_succ_r in Hn by lia.
        assert (0 < 2 ^ Z.of_nat (S fuel)) by (apply Z.pow_pos_nonneg; lia).
        lia.
Qed.

Lemma log2_fuel (n : Z) : 0 <= n -> n < 2 ^ Z.of_nat (S (Z.to_nat (Z.log2 n))).
Proof.
  intros Hn. rewrite Nat2Z.inj_succ, Z2Nat.id by apply Z.log2_nonneg.
  destruct (Z.eq_dec n 0) as [-> | Hnz]; [reflexivity |].
  apply Z.log2_spec. lia.
Qed.




(** ** The rounded quotient of two integers is a valid float *)


(** ** The progress parser *)









Lemma getitem_raises {A} (l : list A) (i : nat) (e : exn) :
  getitem l i = Raise e -> e = IndexError.
Proof.
  unfold getitem. destruct (nth_error l i); intros H; inversion H. reflexivity.
Qed.

Lemma malformed_no_event (line : string) (duration : float) :
  malformed line -> parse_progress line duration = Return no_event.
Proof.
  unfold malformed, numeric_field, parse_progress.
  intros [[Hc Hfield] | [Hc [Hfps Hfield]]]; rewrite Hc; [| rewrite Hfps].
  - destruct (getitem (split "=" line) 1) as [field | e] eqn:Hget.
    + cbn [bind]. rewrite (Hfield field eq_refl). reflexivity.
    + apply getitem_raises in Hget. subst e. reflexivity.
  - destruct (getitem (split "=" line) 1) as [field | e] eqn:Hget.
    + cbn [bind]. rewrite (Hfield field eq_refl). reflexivity.
    + apply getitem_raises in Hget. subst e. reflexivity.
Qed.

(** C6: a line whose recognised numeric field cannot be parsed gives the
    no-event pair and raises nothing; given the same such line any number
    of times the parser answers the same each time, and the reading loop
    that is fed it prints nothing and keeps its state. *)
Theorem malformed_line_ignored (line : string) (duration : float) :
  malformed line ->
  parse_progress line duration = Return no_event
  /\ (forall n : nat,
        map (fun l => parse_progress l duration) (repeat line n) =
        repeat (Return no_event) n)
  /\ (forall (raw : string) (n : nat) (st : progress_state),
        strip raw = line ->
        read_lines Posix duration st (repeat raw n) = ([], Return st)).
Proof.
  intros Hm. pose proof (malformed_no_event line duration Hm) as Hparse.
  split; [exact Hparse |]. split.
  - induction n as [| n IH]; cbn [repeat map]; [reflexivity |].
    rewrite Hparse, IH. reflexivity.
  - intros raw n st Hraw. induction n as [| n IH]; cbn [repeat read_lines]; [reflexivity |].
    unfold handle_line. rewrite Hraw, Hparse. cbn. rewrite IH. reflexivity.
Qed.

(** A marker without a number, as the encoder prints it before the first
    frame. *)
Lemma malformed_line_ignored_witness :
  parse_progress "out_time_us=N/A" (float_of_int 120) = Return no_event
  /\ read_lines Posix (float_of_int 120) initial_progress
       (repeat "out_time_us=N/A" 3) = ([], Return initial_progress).
Proof.
  assert (Hm : malformed "out_time_us=N/A").
  { left. split; [reflexivity |].
    intros field H. vm_compute in H. inversion H. reflexivity. }
  destruct (malformed_line_ignored "out_time_us=N/A" (float_of_int 120) Hm)
    as (H1 & _ & H3).
  split; [exact H1 |].
  exact (H3 "out_time_us=N/A" 3%nat initial_progress eq_refl).
Defined.

(** ** The command builder *)

Lemma insert_before_last3 {A} (l : list A) (a b c x : A) :
  insert (l ++ [a; b; c]) (-3) x = (l ++ [x; a; b; c])%list.
Proof.
  unfold insert. rewrite length_app. cbn [List.length].
  replace (-3 <? 0) with true by reflexivity.
  replace (Z.max 0 (-3 + Z.of_nat (List.length l + 3))) with (Z.of_nat (List.length l)) by lia.
  rewrite Nat2Z.id.
  rewrite firstn_app, firstn_all, Nat.sub_diag.
  rewrite skipn_app, skipn_all, Nat.sub_diag.
  cbn [firstn skipn app]. rewrite app_nil_r. reflexivity.
Qed.

(** Inserting at index -3 one after the other puts the new elements, in
    order, in front of the last three. *)
Lemma insert_all_before_last3 (xs l : list string) (a b c : string) :
  insert_all (l ++ [a; b; c]) xs = (l ++ xs ++ [a; b; c])%list.
Proof.
  revert l. induction xs as [| x xs IH]; intros l; unfold insert_all in *; cbn [fold_left].
  - reflexivity.
  - rewrite insert_before_last3.
    change (l ++ [x; a; b; c])%list with (l ++ [x] ++ [a; b; c])%list.
    rewrite app_assoc, IH, <- app_assoc. reflexivity.
Qed.

Lemma convert_video_cmd (input_path output_path : string) (w h : Z)
    (gpu_encoder : string) :
  h <> 0 -> Z.abs w < 2 ^ 1023 ->
  convert_video input_path output_path w h gpu_encoder =
    Return (encode_cmd input_path output_path gpu_encoder
              (if contains "nvenc" gpu_encoder then
                 ["-preset"; "p1"; "-tune"; "hq"; "-rc"; "vbr"; "-cq"; "23"]
               else if contains "amf" gpu_encoder then
                 ["-usage"; "transcoding"; "-rc"; "cqp"; "-qp_i"; "23"; "-qp_p"; "23"]
               else if contains "qsv" gpu_encoder then
                 ["-preset"; "veryfast"; "-global_quality"; "23"]
               else
                 ["-preset"; "ultrafast"; "-crf"; "23"])).
Proof.
  intros Hh Hw. unfold convert_video.
  rewrite (int_truediv_returns w h Hh Hw). cbn [bind].
  rewrite (int_truediv_returns 1920 1080) by (discriminate || reflexivity). cbn [bind].
  f_equal. unfold encode_cmd. fold scale_pad_filter.
  replace (if fgtb (round_quotient w h) (round_quotient 1920 1080)
           then scale_pad_filter else scale_pad_filter)
    with scale_pad_filter by (destruct (fgtb _ _); reflexivity).
  change ["ffmpeg"; "-i"; input_path; "-vf"; scale_pad_filter; "-c:v"; gpu_encoder;
          "-c:a"; "copy"; "-y"; "-stats"; output_path]
    with (["ffmpeg"; "-i"; input_path; "-vf"; scale_pad_filter; "-c:v"; gpu_encoder;
           "-c:a"; "copy"] ++ ["-y"; "-stats"; output_path])%list.
  destruct (contains "nvenc" gpu_encoder); [apply insert_all_before_last3 |].
  destruct (contains "amf" gpu_encoder); [apply insert_all_before_last3 |].
  destruct (contains "qsv" gpu_encoder); apply insert_all_before_last3.
Qed.

(** C7: for every encoder identity, the parameters the builder puts in
    the command are those of the identity's family, looked up in this
    order: a name with [nvenc] gets preset p1 (the fastest), tune hq, rate
    control vbr and constant quality 23; otherwise a name with [amf] gets
    usage transcoding, rate control cqp and QP 23 for I- and P-frames;
    otherwise a name with [qsv] gets preset veryfast and global quality 23;
    any other name (the software fallback) gets preset ultrafast and
    constant rate factor 23. *)
Theorem encoder_parameters (input_path output_path : string) (w h : Z)
    (gpu_encoder : string) :
  h <> 0 -> Z.abs w < 2 ^ 1023 ->
  (contains "nvenc" gpu_encoder = true ->
   convert_video input_path output_path w h gpu_encoder =
     Return (encode_cmd input_path output_path gpu_encoder
               ["-preset"; "p1"; "-tune"; "hq"; "-rc"; "vbr"; "-cq"; "23"]))
  /\ (contains "nvenc" gpu_encoder = false ->
      contains "amf" gpu_encoder = true ->
      convert_video input_path output_path w h gpu_encoder =
        Return (encode_cmd input_path output_path gpu_encoder
                  ["-usage"; "transcoding"; "-rc"; "cqp";
                   "-qp_i"; "23"; "-qp_p"; "23"]))
  /\ (contains "nvenc" gpu_encoder = false ->
      contains "amf" gpu_encoder = false ->
      contains "qsv" gpu_encoder = true ->
      convert_video input_path output_path w h gpu_encoder =
        Return (encode_cmd input_path output_path gpu_encoder
                  ["-preset"; "veryfast"; "-global_quality"; "23"]))
  /\ (contains "nvenc" gpu_encoder = false ->
      contains "amf" gpu_encoder = false ->
      contains "qsv" gpu_encoder = false ->
      convert_video input_path output_path w h gpu_encoder =
        Return (encode_cmd input_path output_path gpu_encoder
                  ["-preset"; "ultrafast"; "-crf"; "23"])).
Proof.
  intros Hh Hw. rewrite (convert_video_cmd _ _ w h gpu_encoder Hh Hw).
  repeat split; intros; repeat match goal with H : contains _ _ = _ |- _ => rewrite H; clear H end;
    reflexivity.
Qed.

(** The four encoders the selector can return, on a 1280x720 source. *)
Lemma encoder_parameters_witness :
  convert_video "a.mp4" "out.mp4" 1280 720 "h264_nvenc" =
    Return (encode_cmd "a.mp4" "out.mp4" "h264_nvenc"
              ["-preset"; "p1"; "-tune"; "hq"; "-rc"; "vbr"; "-cq"; "23"])
  /\ convert_video "a.mp4" "out.mp4" 1280 720 "h264_amf" =
       Return (encode_cmd "a.mp4" "out.mp4" "h264_amf"
                 ["-usage"; "transcoding"; "-rc"; "cqp"; "-qp_i"; "23"; "-qp_p"; "23"])
  /\ convert_video "a.mp4" "out.mp4" 1280 720 "h264_qsv" =
       Return (encode_cmd "a.mp4" "out.mp4" "h264_qsv"
                 ["-preset"; "veryfast"; "-global_quality"; "23"])
  /\ convert_video "a.mp4" "out.mp4" 1280 720 "libx264" =
       Return (encode_cmd "a.mp4" "out.mp4" "libx264"
                 ["-preset"; "ultrafast"; "-crf"; "23"]).
Proof.
  assert (Hh : 720 <> 0) by discriminate.
  assert (Hw : Z.abs 1280 < 2 ^ 1023) by reflexivity.
  split; [| split; [| split]].
  - exact (proj1 (encoder_parameters "a.mp4" "out.mp4" 1280 720 "h264_nvenc" Hh Hw) eq_refl).
  - exact (proj1 (proj2 (encoder_parameters "a.mp4" "out.mp4" 1280 720 "h264_amf" Hh Hw))
             eq_refl eq_refl).
  - exact (proj1 (proj2 (proj2 (encoder_parameters "a.mp4" "out.mp4" 1280 720 "h264_qsv" Hh Hw)))
             eq_refl eq_refl eq_refl).
  - exact (proj2 (proj2 (proj2 (encoder_parameters "a.mp4" "out.mp4" 1280 720 "libx264" Hh Hw)))
             eq_refl eq_refl eq_refl).
Defined.



(** ** Traces *)

Lemma io_bind_eq {A B} (m : io A) (k : A -> io B) :
  io_bind m k =
  match outcome m with
  | Return a => ((trace m ++ trace (k a))%list, outcome (k a))
  | Raise e => (trace m, Raise e)
  end.
Proof.
  destruct m as [t [a | e]]; cbn [io_bind outcome trace fst snd]; [| reflexivity].
  destruct (k a); reflexivity.
Qed.

Lemma runs_app (a b : list action) : runs (a ++ b) = (runs a ++ runs b)%list.
Proof.
  induction a as [| x a IH]; [reflexivity |].
  destruct x; cbn [app runs]; rewrite IH; reflexivity.
Qed.

Lemma launches_app (a b : list action) :
  launches (a ++ b) = (launches a ++ launches b)%list.
Proof.
  induction a as [| x a IH]; [reflexivity |].
  destruct x; cbn [app launches]; rewrite IH; reflexivity.
Qed.

Lemma only_prints_quiet (t : list action) :
  only_prints t -> runs t = [] /\ launches t = [].
Proof.
  induction 1 as [| a t [msg ->] Ht IH]; cbn [runs launches]; auto.
Qed.

Lemma only_prints_app (a b : list action) :
  only_prints a -> only_prints b -> only_prints (a ++ b).
Proof. unfold only_prints. intros. apply Forall_app. split; assumption. Qed.

Lemma only_prints_bind {A B} (m : io A) (k : A -> io B) :
  only_prints (trace m) -> (forall a, only_prints (trace (k a))) ->
  only_prints (trace (io_bind m k)).
Proof.
  intros Hm Hk. rewrite io_bind_eq. destruct (outcome m); cbn [trace fst].
  - apply only_prints_app; auto.
  - exact Hm.
Qed.

Lemma only_prints_nil : only_prints [].
Proof. constructor. Qed.

Lemma only_prints_one (msg : message) : only_prints [Print msg].
Proof. constructor; [eexists; reflexivity | constructor]. Qed.

Lemma only_prints_try {A} (body : io A) classes (handler : exn -> io A) :
  only_prints (trace body) -> (forall e, only_prints (trace (handler e))) ->
  only_prints (trace (io_try body classes handler)).
Proof.
  intros Hb Hh. unfold io_try. destruct body as [t [a | e]]; [exact Hb |].
  destruct (classes e); [| exact Hb].
  specialize (Hh e). destruct (handler e). cbn [trace fst] in *.
  apply only_prints_app; assumption.
Qed.

Create HintDb prints.
#[local] Hint Resolve only_prints_nil only_prints_one only_prints_app : prints.

Lemma update_progress_prints (ev : progress) (st : progress_state) :
  only_prints (trace (update_progress ev st)).
Proof.
  unfold update_progress. destruct ev as [[t |] [p |]]; cbn; auto with prints.
  destruct (fgtb _ _); cbn; auto with prints.
Qed.

Lemma lift_prints {A} (r : result A) : only_prints (trace (lift r)).
Proof. apply only_prints_nil. Qed.

Lemma handle_line_prints (duration : float) (st : progress_state) (line : string) :
  only_prints (trace (handle_line duration st line)).
Proof.
  unfold handle_line. apply only_prints_bind; [apply lift_prints |].
  intros ev. apply update_progress_prints.
Qed.

Lemma handle_line_windows_prints (duration : float) (st : progress_state)
    (line : string) :
  only_prints (trace (handle_line_windows duration st line)).
Proof.
  unfold handle_line_windows.
  apply only_prints_bind; [apply lift_prints | intros ev].
  apply only_prints_bind; [apply update_progress_prints | intros st'].
  destruct (_ || _); [| apply only_prints_nil].
  destruct (search_time line) as [[[hours minutes] seconds] |]; [| apply only_prints_nil].
  destruct (fgtb duration _); [| apply only_prints_nil].
  apply only_prints_bind; [apply lift_prints | intros h].
  apply only_prints_bind; [apply lift_prints | intros m].
  apply only_prints_bind; [apply lift_prints | intros sec].
  cbv zeta. destruct (_ || _); cbn; auto with prints.
Qed.

(** While it supervises an encode the loop only prints. *)
Lemma read_lines_prints (p : os) (duration : float) (lines : list string)
    (st : progress_state) :
  only_prints (trace (read_lines p duration st lines)).
Proof.
  revert st. induction lines as [| line rest IH]; intros st; cbn [read_lines].
  - apply only_prints_nil.
  - destruct p.
    + apply only_prints_bind; [apply handle_line_prints | intros st'; apply IH].
    + destruct (String.eqb _ _); [apply IH |].
      apply only_prints_bind.
      * apply only_prints_try.
        -- apply only_prints_bind; [apply handle_line_windows_prints |].
           intros st'. apply only_prints_nil.
        -- intros e. cbn. auto with prints.
      * intros [st' |]; [apply IH | apply only_prints_nil].
Qed.

(** ** One file of the batch *)

(** The probe runs the probe tool once on the file, and otherwise only
    prints. *)
Lemma get_video_info_trace (w : world) (video_path : string) :
  exists t, trace (get_video_info w video_path) = Run (ffprobe_cmd video_path) :: t
            /\ only_prints t.
Proof.
  unfold get_video_info. rewrite emit_then.
  destruct (run_process w (ffprobe_cmd video_path)) as [rc out | e]; cbn.
  - destruct (parse_video_info out) as [info | e]; cbn;
      [| destruct (is_Exception e)]; eexists; split; try reflexivity; auto with prints.
  - destruct (is_Exception e); eexists; split; try reflexivity; auto with prints.
Qed.

Lemma parse_video_info_outcome (stdout : string) (info : video_info) :
  parse_video_info stdout = Return info ->
  info = no_video_info \/ exists width height duration,
                            info = (Some width, Some height, duration).
Proof.
  unfold parse_video_info.
  destruct (search_digits (json_key "width") stdout) as [ws |];
    [| intros H; inversion H; auto].
  destruct (search_digits (json_key "height") stdout) as [hs |];
    [| intros H; inversion H; auto].
  destruct (py_int ws) as [wd | e1]; [| discriminate].
  destruct (py_int hs) as [ht | e2]; [| discriminate].
  cbn [bind].
  destruct (match search_quoted (json_key "duration") stdout with
            | Some ds => py_float ds
            | None => Return (float_of_int 0)
            end) as [d | e3]; [| discriminate].
  cbn [bind]. intros H; inversion H. right. eauto.
Qed.

(** The probe either fails, with no dimensions at all, or succeeds with
    both. *)
Lemma get_video_info_outcome (w : world) (video_path : string) (info : video_info) :
  outcome (get_video_info w video_path) = Return info ->
  info = no_video_info \/ exists width height duration,
                            info = (Some width, Some height, duration).
Proof.
  unfold get_video_info. rewrite emit_then.
  destruct (run_process w (ffprobe_cmd video_path)) as [rc out | e]; cbn.
  - destruct (parse_video_info out) as [info' | e] eqn:Hp; cbn.
    + intros H; inversion H; subst. apply (parse_video_info_outcome out), Hp.
    + destruct (is_Exception e); cbn; intros H; inversion H; auto.
  - destruct (is_Exception e); cbn; intros H; inversion H; auto.
Qed.

(** The [try] statement around an encode launches exactly the command it
    is given, runs no other tool, and terminates a process only on the
    user's interrupt. *)
Lemma encode_trace (w : world) (filename : string) (cmd : list string)
    (duration : float) (process : option (list string)) :
  exists t,
    trace (encode w filename cmd duration process) =
      Print MsgStarting :: Popen cmd :: t
    /\ runs t = [] /\ launches t = [].
Proof.
  unfold encode.
  destruct (popen w cmd) as [lines rc | lines | e]; rewrite !emit_then.
  - pose proof (read_lines_prints (platform w) duration lines initial_progress) as Hp.
    rewrite !io_bind_eq.
    destruct (read_lines (platform w) duration initial_progress lines) as [tl [st | e]];
      cbn [trace outcome fst snd] in *.
    + destruct (rc =? 0); cbn; eexists; (split; [reflexivity |]);
        rewrite runs_app, launches_app;
        destruct (only_prints_quiet tl Hp) as [-> ->]; split; reflexivity.
    + destruct (exn_eqb e KeyboardInterrupt); cbn; eexists; (split; [reflexivity |]);
        rewrite runs_app, launches_app;
        destruct (only_prints_quiet tl Hp) as [-> ->]; split; reflexivity.
  - pose proof (read_lines_prints (platform w) duration lines initial_progress) as Hp.
    rewrite !io_bind_eq.
    destruct (read_lines (platform w) duration initial_progress lines) as [tl [st | e]];
      cbn [trace outcome fst snd] in *.
    + cbn. eexists; (split; [reflexivity |]).
      rewrite !runs_app, !launches_app.
      destruct (only_prints_quiet tl Hp) as [-> ->]; split; reflexivity.
    + destruct (exn_eqb e KeyboardInterrupt); cbn; eexists; (split; [reflexivity |]);
        rewrite runs_app, launches_app;
        destruct (only_prints_quiet tl Hp) as [-> ->]; split; reflexivity.
  - cbn. destruct (exn_eqb e KeyboardInterrupt); [destruct process |];
      eexists; (split; [reflexivity |]); split; reflexivity.
Qed.

(** The body of the loop, case by case. *)
Lemma process_file_shape (w : world) (output_directory gpu_encoder : string)
    (total i : nat) (input_file : string) (process : option (list string)) :
  let filename := basename (platform w) input_file in
  let out := output_path w output_directory input_file in
  let head t := Print (MsgProcessing i total filename) :: Exists out :: t in
  process_file w output_directory gpu_encoder total i input_file process =
    if path_exists w out then
      (head [Print (MsgOutputExists out)], Return (Continue, process))
    else
      match get_video_info w input_file with
      | (tp, Raise e) => (head tp, Raise e)
      | (tp, Return (Some width, Some height, duration)) =>
          if (width =? 1920) && (height =? 1080) then
            (head (tp ++ [Print (MsgResolution width height duration);
                          Print MsgAlreadyCorrect])%list,
             Return (Continue, process))
          else
            match convert_video input_file out width height gpu_encoder with
            | Raise e =>
                (head (tp ++ [Print (MsgResolution width height duration)])%list,
                 Raise e)
            | Return cmd =>
                (head (tp ++ Print (MsgResolution width height duration)
                          :: trace (encode w filename cmd duration process))%list,
                 outcome (encode w filename cmd duration process))
            end
      | (tp, Return _) =>
          (head (tp ++ [Print (MsgNoVideoInfo filename)])%list,
           Return (Continue, process))
      end.
Proof.
  intros filename out head. unfold process_file.
  fold filename. change (join (platform w) output_directory ("converted_" ++ filename))
    with out.
  rewrite !emit_then. subst head. cbv beta.
  destruct (path_exists w out); [reflexivity |].
  rewrite io_bind_eq.
  destruct (get_video_info w input_file) as [tp [info | e]]; cbn [trace outcome fst snd];
    [| reflexivity].
  destruct info as [[[width |] [height |]] duration]; try reflexivity.
  rewrite emit_then.
  destruct ((width =? 1920) && (height =? 1080)); [reflexivity |].
  rewrite io_bind_eq. unfold lift. cbn [trace outcome fst snd].
  destruct (convert_video input_file out width height gpu_encoder) as [cmd | e];
    reflexivity.
Qed.

(** What one turn of the loop runs and launches: the probe runs unless
    the destination exists, and an encode is launched only in the one case
    in which the three guards pass, after the existence check and the
    probe, in that order. *)
Lemma job_effects (w : world) (output_directory gpu_encoder : string)
    (total i : nat) (input_file : string) (process : option (list string)) :
  let job := process_file w output_directory gpu_encoder total i input_file process in
  let out := output_path w output_directory input_file in
  runs (trace job) = (if path_exists w out then [] else [ffprobe_cmd input_file])
  /\ (launches (trace job) = []
      \/ exists cmd width height duration tp t2,
           destination_free w output_directory input_file
           /\ probe_succeeds w input_file width height duration
           /\ needs_conversion width height
           /\ convert_video input_file out width height gpu_encoder = Return cmd
           /\ launches (trace job) = [cmd]
           /\ trace job =
                (Print (MsgProcessing i total (basename (platform w) input_file))
                 :: Exists out :: Run (ffprobe_cmd input_file)
                 :: tp ++ Print (MsgResolution width height duration)
                 :: Print MsgStarting :: Popen cmd :: t2)%list
           /\ only_prints tp /\ runs t2 = [] /\ launches t2 = []).
Proof.
  intros job out. subst job. rewrite process_file_shape. fold out.
  destruct (path_exists w out) eqn:Hex; [split; [reflexivity | left; reflexivity] |].
  destruct (get_video_info_trace w input_file) as (tp & Htp & Hprints).
  destruct (only_prints_quiet tp Hprints) as [Hr Hl].
  destruct (get_video_info w input_file) as [t [info | e]] eqn:Hgvi;
    cbn [trace fst] in Htp; subst t.
  2:{ cbn [trace fst runs launches]. rewrite Hr, Hl. split; [reflexivity | left; reflexivity]. }
  destruct info as [[[width |] [height |]] duration];
    try (cbn [trace fst runs launches app]; rewrite runs_app, launches_app, Hr, Hl;
         split; [reflexivity | left; reflexivity]).
  destruct ((width =? 1920) && (height =? 1080)) eqn:Hdim.
  { cbn [trace fst runs launches app]; rewrite runs_app, launches_app, Hr, Hl.
    split; [reflexivity | left; reflexivity]. }
  destruct (convert_video input_file out width height gpu_encoder) as [cmd | e] eqn:Hcv.
  2:{ cbn [trace fst runs launches app]; rewrite runs_app, launches_app, Hr, Hl.
      split; [reflexivity | left; reflexivity]. }
  destruct (encode_trace w (basename (platform w) input_file) cmd duration process)
    as (t2 & Ht2 & Hr2 & Hl2).
  rewrite Ht2. cbn [trace fst runs launches app].
  rewrite runs_app, launches_app, Hr, Hl. cbn [runs launches app].
  rewrite Hr2, Hl2. split; [reflexivity | right].
  exists cmd, width, height, duration, tp, t2.
  repeat split; auto.
  - unfold probe_succeeds. rewrite Hgvi. reflexivity.
  - intros [Hw Hh]. subst. discriminate Hdim.
Qed.

Lemma process_files_cons (w : world) (output_directory gpu_encoder : string)
    (total i : nat) (input_file : string) (rest : list string)
    (process : option (list string)) :
  let job := process_file w output_directory gpu_encoder total i input_file process in
  process_files w output_directory gpu_encoder total i (input_file :: rest) process =
    match outcome job with
    | Return (Continue, process') =>
        ((trace job ++ trace (process_files w output_directory gpu_encoder total
                                (S i) rest process'))%list,
         outcome (process_files w output_directory gpu_encoder total (S i) rest process'))
    | Return (Break, process') => (trace job, Return (Break, process'))
    | Raise e => (trace job, Raise e)
    end.
Proof.
  intros job. cbn [process_files]. fold job. rewrite io_bind_eq.
  destruct (outcome job) as [[[] process'] | e]; cbn [trace outcome fst snd ret];
    rewrite ?app_nil_r; reflexivity.
Qed.

(** Every encode the loop launches was launched by the turn of one of
    the files, and so under the three guards. *)
Lemma batch_launches (w : world) (output_directory gpu_encoder : string)
    (total : nat) (files : list string) :
  forall (i : nat) (process : option (list string)) (cmd : list string),
    In cmd (launches (trace (process_files w output_directory gpu_encoder total i
                               files process))) ->
    exists input_file width height duration,
      In input_file files
      /\ destination_free w output_directory input_file
      /\ probe_succeeds w input_file width height duration
      /\ needs_conversion width height
      /\ convert_video input_file (output_path w output_directory input_file)
           width height gpu_encoder = Return cmd.
Proof.
  induction files as [| f rest IH]; intros i process cmd Hin.
  - contradiction.
  - rewrite process_files_cons in Hin.
    set (job := process_file w output_directory gpu_encoder total i f process) in *.
    assert (Hjob : In cmd (launches (trace job)) ->
                   exists input_file width height duration,
                     In input_file (f :: rest)
                     /\ destination_free w output_directory input_file
                     /\ probe_succeeds w input_file width height duration
                     /\ needs_conversion width height
                     /\ convert_video input_file (output_path w output_directory input_file)
                          width height gpu_encoder = Return cmd).
    { intros Hc.
      destruct (job_effects w output_directory gpu_encoder total i f process)
        as [_ [Hnone | (c & wd & ht & d & tp & t2 & Hfree & Hprobe & Hneed & Hcv & Hl & _)]];
        fold job in Hnone || fold job in Hl.
      - rewrite Hnone in Hc. contradiction.
      - rewrite Hl in Hc. destruct Hc as [<- | []].
        exists f, wd, ht, d. repeat split; auto. left. reflexivity. }
    destruct (outcome job) as [[[] process'] | e]; cbn [trace fst] in Hin; auto.
    rewrite launches_app in Hin. apply in_app_or in Hin as [Hc | Hc]; [auto |].
    destruct (IH _ _ _ Hc) as (g & wd & ht & d & Hg & Hrest).
    exists g, wd, ht, d. split; [right; exact Hg | exact Hrest].
Qed.

(** C3: in every turn of the batch loop an encode is launched only when
    the three guards pass, checked in this order: the destination does not
    exist, the probe succeeded, the probed dimensions are not exactly
    1920x1080.  A file whose destination exists causes neither a probe nor
    an encode; a file probed at exactly 1920x1080 causes no encode; the
    launch, when there is one, comes after the existence check and the
    probe, in that order, and is the only one of the turn; and every encode
    of a whole batch is the one of such a turn. *)
Theorem encode_only_after_guards (w : world) (output_directory gpu_encoder : string)
    (total i : nat) (input_file : string) (process : option (list string)) :
  let job := process_file w output_directory gpu_encoder total i input_file process in
  let out := output_path w output_directory input_file in
  (path_exists w out = true ->
   runs (trace job) = [] /\ launches (trace job) = [])
  /\ (forall duration,
        probe_succeeds w input_file 1920 1080 duration ->
        launches (trace job) = [])
  /\ (forall cmd,
        In cmd (launches (trace job)) ->
        exists width height duration tp t2,
          destination_free w output_directory input_file
          /\ probe_succeeds w input_file width height duration
          /\ needs_conversion width height
          /\ convert_video input_file out width height gpu_encoder = Return cmd
          /\ trace job =
               (Print (MsgProcessing i total (basename (platform w) input_file))
                :: Exists out :: Run (ffprobe_cmd input_file)
                :: tp ++ Print (MsgResolution width height duration)
                :: Print MsgStarting :: Popen cmd :: t2)%list
          /\ only_prints tp /\ runs t2 = [] /\ launches t2 = [])
  /\ (forall files j p cmd,
        In cmd (launches (trace (process_files w output_directory gpu_encoder total j
                                   files p))) ->
        exists f width height duration,
          In f files
          /\ destination_free w output_directory f
          /\ probe_succeeds w f width height duration
          /\ needs_conversion width height
          /\ convert_video f (output_path w output_directory f)
               width height gpu_encoder = Return cmd).
Proof.
  intros job out.
  destruct (job_effects w output_directory gpu_encoder total i input_file process)
    as [Hruns Hl]. fold job in Hruns, Hl. fold out in Hruns, Hl.
  split; [| split; [| split]].
  - intros Hex. rewrite Hex in Hruns. split; [exact Hruns |].
    destruct Hl as [Hnone | (c & wd & ht & d & tp & t2 & Hfree & _)]; [exact Hnone |].
    unfold destination_free in Hfree. fold out in Hfree. congruence.
  - intros duration Hprobe.
    destruct Hl as [Hnone | (c & wd & ht & d & tp & t2 & _ & Hp & Hneed & _)];
      [exact Hnone |].
    unfold probe_succeeds in *. rewrite Hprobe in Hp. inversion Hp; subst.
    exfalso. apply Hneed. split; reflexivity.
  - intros cmd Hin.
    destruct Hl as [Hnone | (c & wd & ht & d & tp & t2 & Hfree & Hp & Hneed & Hcv & Hlc & Hrest)].
    + rewrite Hnone in Hin. contradiction.
    + rewrite Hlc in Hin. destruct Hin as [<- | []].
      exists wd, ht, d, tp, t2. repeat split; tauto.
  - intros files j p cmd. apply batch_launches.
Qed.

(** The scenario of the specification, and a second run over it: the
    1280x720 file is probed and encoded, the 1920x1080 file is probed and
    not encoded, and the file whose destination exists is not even
    probed. *)
Lemma encode_only_after_guards_witness :
  (exists width height duration,
      probe_succeeds scenario_world "./a.mp4" width height duration
      /\ needs_conversion width height)
  /\ launches (trace (process_file scenario_world "./converted" "libx264" 2 2
                        "./b.mp4" None)) = []
  /\ runs (trace (process_file second_run_world "./converted" "libx264" 2 1
                    "./a.mp4" None)) = []
  /\ launches (trace (process_file second_run_world "./converted" "libx264" 2 1
                        "./a.mp4" None)) = [].
Proof.
  pose proof (encode_only_after_guards scenario_world "./converted" "libx264" 2 1
                "./a.mp4" None) as (_ & _ & Ha & _).
  pose proof (encode_only_after_guards scenario_world "./converted" "libx264" 2 2
                "./b.mp4" None) as (_ & Hb & _).
  pose proof (encode_only_after_guards second_run_world "./converted" "libx264" 2 1
                "./a.mp4" None) as (Hc & _).
  cbv zeta in Ha, Hb, Hc.
  split; [| split; [| exact (Hc eq_refl)]].
  - destruct (Ha ["ffmpeg"; "-i"; "./a.mp4"; "-vf"; scale_pad_filter; "-c:v"; "libx264";
                  "-c:a"; "copy"; "-preset"; "ultrafast"; "-crf"; "23"; "-y"; "-stats";
                  "./converted/converted_a.mp4"])
      as (wd & ht & d & _ & _ & _ & Hp & Hn & _).
    + vm_compute. left. reflexivity.
    + exists wd, ht, d. split; assumption.
  - apply (Hb (float_of_int 5)). vm_compute. reflexivity.
Defined.

(** ** The user's interrupt *)

(** Files whose turns all end by going on to the next file can be run
    first, and the loop picks up after them. *)
Lemma process_files_app (w : world) (output_directory gpu_encoder : string)
    (total : nat) (done rest : list string) :
  forall (i : nat) (process process1 : option (list string)),
    outcome (process_files w output_directory gpu_encoder total i done process)
      = Return (Continue, process1) ->
    process_files w output_directory gpu_encoder total i (done ++ rest) process =
      ((trace (process_files w output_directory gpu_encoder total i done process)
        ++ trace (process_files w output_directory gpu_encoder total
                    (i + List.length done) rest process1))%list,
       outcome (process_files w output_directory gpu_encoder total
                  (i + List.length done) rest process1)).
Proof.
  induction done as [| f done IH]; intros i process process1 Hdone.
  - cbn in Hdone. inversion Hdone; subst. cbn [app List.length trace fst ret].
    rewrite Nat.add_0_r. destruct (process_files _ _ _ _ _ rest process1). reflexivity.
  - cbn [app]. rewrite process_files_cons in Hdone |- *. rewrite process_files_cons.
    destruct (outcome (process_file w output_directory gpu_encoder total i f process))
      as [[[] process'] | e]; cbn [outcome snd] in Hdone; try discriminate Hdone.
    rewrite (IH (S i) process' process1 Hdone). cbn [trace outcome fst snd List.length].
    rewrite <- app_assoc. replace (S i + List.length done)%nat
      with (i + S (List.length done))%nat by lia. reflexivity.
Qed.

(** The turn of a file whose encode the user interrupts: the process is
    terminated and the loop is left. *)
Lemma process_file_interrupted (w : world) (output_directory gpu_encoder : string)
    (total i : nat) (input_file : string) (process : option (list string))
    (width height : Z) (duration : float) (cmd : list string)
    (lines : list string) (st : progress_state) :
  destination_free w output_directory input_file ->
  probe_succeeds w input_file width height duration ->
  needs_conversion width height ->
  convert_video input_file (output_path w output_directory input_file)
    width height gpu_encoder = Return cmd ->
  popen w cmd = Interrupted lines ->
  outcome (read_lines (platform w) duration initial_progress lines) = Return st ->
  let job := process_file w output_directory gpu_encoder total i input_file process in
  outcome job = Return (Break, Some cmd)
  /\ exists t, trace job = (t ++ [Print MsgInterrupted; Terminate cmd])%list
               /\ runs t = [ffprobe_cmd input_file] /\ launches t = [cmd].
Proof.
  intros Hfree Hprobe Hneed Hcv Hpopen Hread job. subst job.
  rewrite process_file_shape. unfold destination_free in Hfree. rewrite Hfree.
  destruct (get_video_info_trace w input_file) as (tp & Htp & Hprints).
  destruct (only_prints_quiet tp Hprints) as [Hr Hl].
  unfold probe_succeeds in Hprobe.
  destruct (get_video_info w input_file) as [t0 r0]. cbn [trace outcome fst snd] in *.
  subst t0 r0.
  assert (Hdim : (width =? 1920) && (height =? 1080) = false).
  { apply andb_false_iff. unfold needs_conversion in Hneed.
    destruct (Z.eqb_spec width 1920); destruct (Z.eqb_spec height 1080); auto.
    exfalso. apply Hneed. split; assumption. }
  rewrite Hdim, Hcv.
  pose proof (read_lines_prints (platform w) duration lines initial_progress) as Hlp.
  unfold encode. rewrite Hpopen, !emit_then, !io_bind_eq.
  destruct (read_lines (platform w) duration initial_progress lines) as [tl rl].
  cbn [trace outcome fst snd] in *. subst rl. cbn [throw trace outcome fst snd exn_eqb].
  split; [reflexivity |].
  destruct (only_prints_quiet tl Hlp) as [Hrl Hll].
  exists (Print (MsgProcessing i total (basename (platform w) input_file))
          :: Exists (output_path w output_directory input_file)
          :: Run (ffprobe_cmd input_file)
          :: tp ++ Print (MsgResolution width height duration)
          :: Print MsgStarting :: Popen cmd :: tl)%list.
  split.
  - cbn [app]. rewrite app_nil_r. do 3 f_equal.
    rewrite <- app_assoc. reflexivity.
  - cbn [runs launches]. rewrite !runs_app, !launches_app. cbn [runs launches].
    rewrite Hr, Hl, Hrl, Hll. split; reflexivity.
Qed.

(** C9: when the user interrupts while the encode of a file is being
    supervised, that encode is terminated and the loop is left: whatever
    files come after it in the queue, none of them is probed or encoded,
    and what the turns of the files before it did stands unchanged in front
    of the trace.  The interrupted file is one that reaches its encode (free
    destination, successful probe, not yet 1920x1080), the turns of the
    files before it all went on to the next file, and the lines read before
    the interrupt were handled without an exception. *)
Theorem interrupt_halts_queue (w : world) (output_directory gpu_encoder : string)
    (total i : nat) (done : list string) (input_file : string) (rest : list string)
    (process process1 : option (list string))
    (width height : Z) (duration : float) (cmd : list string)
    (lines : list string) (st : progress_state) :
  outcome (process_files w output_directory gpu_encoder total i done process)
    = Return (Continue, process1) ->
  destination_free w output_directory input_file ->
  probe_succeeds w input_file width height duration ->
  needs_conversion width height ->
  convert_video input_file (output_path w output_directory input_file)
    width height gpu_encoder = Return cmd ->
  popen w cmd = Interrupted lines ->
  outcome (read_lines (platform w) duration initial_progress lines) = Return st ->
  let before := process_files w output_directory gpu_encoder total i done process in
  let whole := process_files w output_directory gpu_encoder total i
                 (done ++ input_file :: rest) process in
  outcome whole = Return (Break, Some cmd)
  /\ (exists t,
        trace whole = (trace before ++ t ++ [Print MsgInterrupted; Terminate cmd])%list
        /\ runs t = [ffprobe_cmd input_file] /\ launches t = [cmd])
  /\ runs (trace whole) = (runs (trace before) ++ [ffprobe_cmd input_file])%list
  /\ launches (trace whole) = (launches (trace before) ++ [cmd])%list
  /\ whole = process_files w output_directory gpu_encoder total i
               (done ++ [input_file]) process.
Proof.
  intros Hdone Hfree Hprobe Hneed Hcv Hpopen Hread before whole.
  destruct (process_file_interrupted w output_directory gpu_encoder total
              (i + List.length done) input_file process1 width height duration cmd
              lines st Hfree Hprobe Hneed Hcv Hpopen Hread) as (Hout & t & Ht & Hr & Hl).
  assert (Hwhole : forall tail,
             process_files w output_directory gpu_encoder total i
               (done ++ input_file :: tail) process =
             ((trace before ++ t ++ [Print MsgInterrupted; Terminate cmd])%list,
              Return (Break, Some cmd))).
  { intros tail. rewrite (process_files_app _ _ _ _ done (input_file :: tail) i process
                            process1 Hdone).
    rewrite process_files_cons. rewrite Hout. cbn [trace outcome fst snd].
    rewrite Ht. reflexivity. }
  subst whole. rewrite (Hwhole rest), (Hwhole []). cbn [trace outcome fst snd].
  split; [reflexivity |]. split; [exists t; auto |].
  rewrite !runs_app, !launches_app, Hr, Hl. cbn [runs launches].
  rewrite !app_nil_r. repeat split; reflexivity.
Qed.

(** Three files, the user interrupting the encode of the second: the
    first is probed and encoded, the second probed, launched and
    terminated, the third untouched. *)
Lemma interrupt_halts_queue_witness :
  let whole := process_files interrupt_world "./converted" "libx264" 3 1
                 ["./a.mp4"; "./b.mp4"; "./c.mp4"] None in
  runs (trace whole) = [ffprobe_cmd "./a.mp4"; ffprobe_cmd "./b.mp4"]
  /\ List.length (launches (trace whole)) = 2%nat
  /\ exists cmd, outcome whole = Return (Break, Some cmd)
                 /\ In (Terminate cmd) (trace whole)
                 /\ In "./b.mp4" cmd.
Proof.
  intros whole.
  edestruct (interrupt_halts_queue interrupt_world "./converted" "libx264" 3 1
               ["./a.mp4"] "./b.mp4" ["./c.mp4"] None)
    as (Hout & (t & Ht & _) & Hruns & Hlaunch & _).
  - vm_compute. reflexivity.
  - reflexivity.
  - vm_compute. reflexivity.
  - intros [Hw _]. discriminate Hw.
  - vm_compute. reflexivity.
  - vm_compute. reflexivity.
  - vm_compute. reflexivity.
  - cbv zeta in Hout, Ht, Hruns, Hlaunch. cbn [app] in Hout, Ht, Hruns, Hlaunch.
    fold whole in Hout, Ht, Hruns, Hlaunch.
    split; [rewrite Hruns; vm_compute; reflexivity |].
    split; [rewrite Hlaunch; vm_compute; reflexivity |].
    eexists. split; [exact Hout |]. split.
    + rewrite Ht. apply in_or_app. right. apply in_or_app. right. right. left. reflexivity.
    + vm_compute. auto.
Defined.

(** ** Failures of one file *)

(** C4 (the code departs from it): a file the probe reports with a height
    of 0 makes [convert_video] divide by zero outside the [try] statement
    of the loop; the exception leaves [convert_all_mp4s], the files after
    it are never probed, and the process ends with status 1 although both
    tools were found at startup. *)
Theorem zero_height_aborts_batch :
  outcome (get_video_info zero_height_world "./a.mp4")
    = Return (Some 1920, Some 0, float_of_int 10)
  /\ outcome (discover zero_height_world ".") = Return ["./a.mp4"; "./b.mp4"]
  /\ outcome (convert_all_mp4s zero_height_world "." None) = Raise ZeroDivisionError
  /\ runs (fst (main zero_height_world)) =
       [["ffmpeg"; "-version"]; ["ffprobe"; "-version"];
        probe_cmd "h264_nvenc"; ffprobe_cmd "./a.mp4"]
  /\ launches (fst (main zero_height_world)) = []
  /\ snd (main zero_height_world) = 1.
Proof. repeat split; vm_compute; reflexivity. Qed.

(** ** Discovery *)

(** C5 (the code departs from it): on a platform whose file names are
    matched case-sensitively, a file whose extension is spelled [.Mp4]
    matches [*.mp4] case-insensitively and is not discovered: neither of
    the two patterns the loop tries matches it.  On Windows the same
    directory gives one job. *)
Theorem mixed_case_extension_missed :
  fnmatch Windows "clip.Mp4" "*.mp4" = true
  /\ outcome (discover (mixed_case_world Posix) ".") = Return []
  /\ trace (discover (mixed_case_world Posix) ".") = [Glob "./*.mp4"; Glob "./*.MP4"]
  /\ outcome (discover (mixed_case_world Windows) ".") = Return [".\clip.Mp4"].
Proof. repeat split; vm_compute; reflexivity. Qed.









(** The example of the specification: where paths are compared without
    regard to case, [Clip.MP4] and [clip.mp4] make one job; where they are
    compared as they are, two. *)
Lemma two_spellings :
  outcome (discover (two_spellings_world Windows) ".") = Return [".\Clip.MP4"]
  /\ outcome (discover (two_spellings_world Posix) ".")
       = Return ["./clip.mp4"; "./Clip.MP4"].
Proof. split; vm_compute; reflexivity. Qed.

(** A pattern of literal characters matches itself only, and a star in
    front of it matches every name that ends with it. *)
Lemma wildcard_literal (lit s : string) :
  all_chars literal_char lit = true ->
  wildcard lit s = true <-> s = lit.
Proof.
  revert s. induction lit as [| c lit IH]; intros s Hlit.
  - destruct s; cbn; split; congruence.
  - cbn [all_chars] in Hlit. apply andb_true_iff in Hlit as [Hc Hlit].
    unfold literal_char in Hc. apply andb_true_iff in Hc as [Hstar Hq].
    apply negb_true_iff in Hstar, Hq. cbn [wildcard]. rewrite Hstar, Hq.
    destruct s as [| a s]; [split; discriminate |].
    rewrite andb_true_iff, Ascii.eqb_eq, (IH s Hlit). split.
    + intros [-> ->]. reflexivity.
    + intros H. inversion H. auto.
Qed.

Lemma wildcard_star (pat s : string) :
  wildcard (String "*" pat) s =
  wildcard pat s
  || match s with
     | EmptyString => false
     | String _ s' => wildcard (String "*" pat) s'
     end.
Proof. destruct s; reflexivity. Qed.

Lemma wildcard_star_literal (lit s : string) :
  all_chars literal_char lit = true ->
  wildcard (String "*" lit) s = true <-> ends_with lit s.
Proof.
  intros Hlit. unfold ends_with. induction s as [| a s IH]; rewrite wildcard_star.
  - rewrite orb_false_r, (wildcard_literal lit EmptyString Hlit). split.
    + intros H. exists EmptyString. exact H.
    + intros ([| b pre] & H); [exact H | discriminate H].
  - rewrite orb_true_iff, (wildcard_literal lit (String a s) Hlit), IH. split.
    + intros [H | (pre & ->)]; [exists EmptyString; exact H |].
      exists (String a pre). reflexivity.
    + intros ([| b pre] & H); [left; exact H | right].
      inversion H. exists pre. reflexivity.
Qed.

(** Where names are matched as they are spelled, the names discovery
    looks for are exactly those that end with [.mp4] or with [.MP4]. *)
Lemma posix_patterns (name : string) :
  (fnmatch Posix name "*.mp4" || fnmatch Posix name "*.MP4") = true
  <-> ends_with ".mp4" name \/ ends_with ".MP4" name.
Proof.
  unfold fnmatch, normcase. rewrite orb_true_iff.
  rewrite (wildcard_star_literal ".mp4" name eq_refl).
  rewrite (wildcard_star_literal ".MP4" name eq_refl). reflexivity.
Qed.

(** ** What the loop does contain *)

Lemma py_int_raises (s : string) (e : exn) : py_int s = Raise e -> e = ValueError.
Proof.
  unfold py_int.
  destruct (match strip s with EmptyString => _ | String _ _ => _ end);
    intros H; inversion H. reflexivity.
Qed.

Lemma py_float_raises (s : string) (e : exn) : py_float s = Raise e -> e = ValueError.
Proof.
  unfold py_float. destruct (negb _); [intros H; inversion H; reflexivity |].
  destruct (take_sign _) as [neg u].
  destruct (_ || _); [discriminate |].
  destruct (String.eqb _ _); [discriminate |].
  destruct (parse_decimal u) as [[m x] |]; intros H; inversion H. reflexivity.
Qed.

Lemma int_truediv_raises (a b : Z) (e : exn) :
  int_truediv a b = Raise e -> e = ZeroDivisionError \/ e = OverflowError.
Proof.
  unfold int_truediv. destruct (b =? 0); [intros H; inversion H; auto |].
  destruct (is_finite _); intros H; inversion H. auto.
Qed.

Lemma parse_progress_raises (line : string) (duration : float) (e : exn) :
  parse_progress line duration = Raise e -> is_Exception e = true.
Proof.
  unfold parse_progress.
  destruct (contains "out_time_us=" line).
  - destruct (getitem (split "=" line) 1) as [field | e1] eqn:Hg; cbn [bind].
    + destruct (py_int (strip field)) as [v | e2] eqn:Hi; cbn [bind].
      * destruct (int_truediv v 1000000) as [t | e3] eqn:Hd; cbn [bind].
        -- destruct (fgtb _ _); discriminate.
        -- apply int_truediv_raises in Hd as [-> | ->]; cbn;
             intros H; inversion H; reflexivity.
      * apply py_int_raises in Hi. subst e2. discriminate.
    + apply getitem_raises in Hg. subst e1. discriminate.
  - destruct (contains "fps=" line); [| discriminate].
    destruct (getitem (split "=" line) 1) as [field | e1] eqn:Hg; cbn [bind].
    + destruct (py_float _) as [f | e2] eqn:Hf; cbn [bind]; [discriminate |].
      apply py_float_raises in Hf. subst e2. discriminate.
    + apply getitem_raises in Hg. subst e1. discriminate.
Qed.

Lemma update_progress_raises (ev : progress) (st : progress_state) (e : exn) :
  outcome (update_progress ev st) = Raise e -> is_Exception e = true.
Proof.
  unfold update_progress. destruct ev as [[t |] [p |]]; cbn; try discriminate.
  - destruct (fgtb _ _); discriminate.
  - intros H. inversion H. reflexivity.
Qed.

Lemma io_bind_raises {A B} (m : io A) (k : A -> io B) (e : exn) :
  outcome (io_bind m k) = Raise e ->
  outcome m = Raise e \/ exists a, outcome m = Return a /\ outcome (k a) = Raise e.
Proof.
  rewrite io_bind_eq. destruct (outcome m) as [a | e0]; cbn [outcome snd]; intros H;
    [right; eauto | left; inversion H; reflexivity].
Qed.

Lemma handle_line_raises (duration : float) (st : progress_state) (line : string)
    (e : exn) :
  outcome (handle_line duration st line) = Raise e -> is_Exception e = true.
Proof.
  unfold handle_line. intros H.
  apply io_bind_raises in H as [H | (ev & _ & H)].
  - eapply parse_progress_raises, H.
  - eapply update_progress_raises, H.
Qed.

Lemma handle_line_windows_raises (duration : float) (st : progress_state)
    (line : string) (e : exn) :
  outcome (handle_line_windows duration st line) = Raise e -> is_Exception e = true.
Proof.
  unfold handle_line_windows. intros H.
  apply io_bind_raises in H as [H | (ev & _ & H)];
    [eapply parse_progress_raises, H |].
  apply io_bind_raises in H as [H | (st' & _ & H)];
    [eapply update_progress_raises, H |].
  destruct (_ || _); [| discriminate H].
  destruct (search_time line) as [[[hours minutes] seconds] |]; [| discriminate H].
  destruct (fgtb duration _); [| discriminate H].
  apply io_bind_raises in H as [H | (h & _ & H)];
    [apply py_int_raises in H; subst e; reflexivity |].
  apply io_bind_raises in H as [H | (m & _ & H)];
    [apply py_int_raises in H; subst e; reflexivity |].
  apply io_bind_raises in H as [H | (sec & _ & H)];
    [apply py_float_raises in H; subst e; reflexivity |].
  cbv zeta in H. destruct (_ || _); discriminate H.
Qed.

(** Reading the output of an encode never raises [KeyboardInterrupt] of
    its own. *)
Lemma read_lines_raises (p : os) (duration : float) (lines : list string)
    (st : progress_state) (e : exn) :
  outcome (read_lines p duration st lines) = Raise e -> is_Exception e = true.
Proof.
  revert st. induction lines as [| line rest IH]; intros st; cbn [read_lines].
  - discriminate.
  - destruct p.
    + intros H. apply io_bind_raises in H as [H | (st' & _ & H)].
      * eapply handle_line_raises, H.
      * eapply IH, H.
    + destruct (String.eqb _ _); [apply IH |].
      intros H. apply io_bind_raises in H as [H | ([st' |] & _ & H)].
      * unfold io_try in H.
        destruct (_ <~ handle_line_windows duration st (strip line) ;; _)
          as [t0 [x | e0]] eqn:Hbody; [discriminate H |].
        assert (He0 : is_Exception e0 = true).
        { assert (Hb : outcome (st' <~ handle_line_windows duration st (strip line) ;;
                                ret (Some st')) = Raise e0) by (rewrite Hbody; reflexivity).
          apply io_bind_raises in Hb as [Hb | (x & _ & Hb)]; [| discriminate Hb].
          eapply handle_line_windows_raises, Hb. }
        rewrite He0 in H. discriminate H.
      * eapply IH, H.
      * discriminate H.
Qed.

Lemma checks_app (a b : list action) : checks (a ++ b) = (checks a ++ checks b)%list.
Proof.
  induction a as [| x a IH]; [reflexivity |].
  destruct x; cbn [app checks]; rewrite IH; reflexivity.
Qed.

Lemma checks_prints (t : list action) : only_prints t -> checks t = [].
Proof. induction 1 as [| a t [msg ->] Ht IH]; cbn [checks]; auto. Qed.

Ltac no_checks :=
  repeat (cbn [checks app trace fst] || rewrite checks_app);
  repeat match goal with H : checks _ = [] |- _ => rewrite H end;
  reflexivity.

(** The turn of a contained file ends by going on to the next file. *)
Lemma contained_continues (w : world) (output_directory gpu_encoder : string)
    (total i : nat) (input_file : string) (process : option (list string)) :
  contained w output_directory gpu_encoder input_file ->
  exists process' t,
    process_file w output_directory gpu_encoder total i input_file process =
      (Print (MsgProcessing i total (basename (platform w) input_file))
       :: Exists (output_path w output_directory input_file) :: t,
       Return (Continue, process'))
    /\ checks t = [].
Proof.
  intros Hc. rewrite process_file_shape.
  destruct (path_exists w (output_path w output_directory input_file)) eqn:Hex.
  { eexists _, _. split; reflexivity. }
  destruct (get_video_info_trace w input_file) as (tp & Htp & Hprints).
  pose proof (checks_prints tp Hprints) as Hctp.
  unfold contained, probe_succeeds in Hc.
  destruct (get_video_info w input_file) as [t0 r0] eqn:Hgvi.
  cbn [trace outcome fst snd] in *. subst t0.
  destruct Hc as [Hc | [Hc | [(d & Hc) | (wd & ht & d & cmd & Hc & Hcv & Hpopen)]]];
    [congruence | | |]; subst r0.
  - cbn. eexists _, _. split; [reflexivity |].
    no_checks.
  - cbn. eexists _, _. split; [reflexivity |].
    no_checks.
  - destruct ((wd =? 1920) && (ht =? 1080)).
    { eexists _, _. split; [reflexivity |].
      no_checks. }
    rewrite Hcv.
    pose proof (read_lines_prints (platform w) d) as Hlp.
    pose proof (read_lines_raises (platform w) d) as Hlr.
    unfold encode.
    destruct Hpopen as [(lines & rc & ->) | (e & -> & He)].
    + rewrite !emit_then, !io_bind_eq.
      specialize (Hlp lines initial_progress). specialize (Hlr lines initial_progress).
      destruct (read_lines (platform w) d initial_progress lines) as [tl [st | e]];
        cbn [trace outcome fst snd] in *.
      * pose proof (checks_prints tl Hlp) as Hctl.
        destruct (rc =? 0); cbn [emit ret trace outcome fst snd app];
          eexists _, _; (split; [reflexivity |]);
          no_checks.
      * pose proof (checks_prints tl Hlp) as Hctl.
        specialize (Hlr e eq_refl). unfold is_Exception in Hlr.
        apply negb_true_iff in Hlr. rewrite Hlr.
        eexists _, _. (split; [reflexivity |]).
        no_checks.
    + rewrite !emit_then. cbn [throw trace outcome fst snd].
      unfold is_Exception in He. apply negb_true_iff in He. rewrite He.
      eexists _, _. (split; [reflexivity |]).
      no_checks.
Qed.

(** When every file is contained, each gets its turn, in discovery order,
    and the loop runs to the end of the list. *)
Lemma contained_loop (w : world) (output_directory gpu_encoder : string)
    (total : nat) (files : list string) :
  (forall f, In f files -> contained w output_directory gpu_encoder f) ->
  forall (i : nat) (process : option (list string)),
  exists process',
    outcome (process_files w output_directory gpu_encoder total i files process)
      = Return (Continue, process')
    /\ checks (trace (process_files w output_directory gpu_encoder total i files process))
       = map (output_path w output_directory) files.
Proof.
  induction files as [| f rest IH]; intros Hall i process.
  - exists process. split; reflexivity.
  - rewrite process_files_cons.
    destruct (contained_continues w output_directory gpu_encoder total i f process
                (Hall f (or_introl eq_refl))) as (p1 & t & -> & Ht).
    cbn [outcome trace fst snd].
    destruct (IH (fun g Hg => Hall g (or_intror Hg)) (S i) p1) as (p2 & Hout & Hchecks).
    exists p2. split; [exact Hout |].
    cbn [app checks map]. f_equal.
    rewrite checks_app, Ht, Hchecks. reflexivity.
Qed.

(** * Further properties *)

(** ** Reading the answer of the probe tool *)

Lemma span_all (f : ascii -> bool) (s : string) :
  all_chars f (fst (span f s)) = true.
Proof.
  induction s as [| a s IH]; cbn [span]; [reflexivity |].
  destruct (f a) eqn:Hf; [| reflexivity].
  destruct (span f s) as [h t]. cbn [fst all_chars] in *. rewrite Hf, IH. reflexivity.
Qed.

Lemma search_digits_step (key s : string) :
  search_digits key s =
  match match drop_prefix key s with
        | Some r =>
            match fst (span is_digit (lstrip r)) with
            | EmptyString => None
            | ds => Some ds
            end
        | None => None
        end, s with
  | Some ds, _ => Some ds
  | None, String _ s' => search_digits key s'
  | None, EmptyString => None
  end.
Proof. destruct s; reflexivity. Qed.

(** What the digits pattern captures is a non-empty run of digits. *)
Lemma search_digits_digits (key s ds : string) :
  search_digits key s = Some ds ->
  ds <> EmptyString /\ all_chars is_digit ds = true.
Proof.
  induction s as [| a s IH]; rewrite search_digits_step.
  - destruct (drop_prefix key EmptyString) as [r |]; [| discriminate].
    pose proof (span_all is_digit (lstrip r)) as Hall.
    destruct (fst (span is_digit (lstrip r))); [discriminate |].
    intros H. inversion H. subst. split; [discriminate | exact Hall].
  - destruct (drop_prefix key (String a s)) as [r |]; [| exact IH].
    pose proof (span_all is_digit (lstrip r)) as Hall.
    destruct (fst (span is_digit (lstrip r))); [exact IH |].
    intros H. inversion H. subst. split; [discriminate | exact Hall].
Qed.

Lemma digit_not_space (a : ascii) : is_digit a = true -> negb (is_space a) = true.
Proof.
  unfold is_digit, is_space. generalize (code a). intros n H.
  apply andb_true_iff in H as [H1 H2]. apply Z.leb_le in H1, H2.
  apply negb_true_iff.
  repeat (apply orb_false_iff; split);
    try (apply andb_false_iff; (left; apply Z.leb_gt; lia) || (right; apply Z.leb_gt; lia));
    apply Z.eqb_neq; lia.
Qed.

Lemma digit_value_nonneg (a : ascii) : is_digit a = true -> 0 <= digit_value a <= 9.
Proof.
  unfold is_digit, digit_value. generalize (code a). intros n H.
  apply andb_true_iff in H as [H1 H2]. apply Z.leb_le in H1, H2. lia.
Qed.

Lemma int_digits_all (s : string) :
  all_chars is_digit s = true ->
  forall (b : bool) (acc : Z),
    (s <> EmptyString \/ b = true) -> 0 <= acc ->
    exists v, int_digits b acc s = Some v /\ acc <= v.
Proof.
  induction s as [| a s IH]; intros Hall b acc Hne Hacc.
  - destruct Hne as [Hne | ->]; [congruence |]. exists acc. split; [reflexivity | lia].
  - cbn [all_chars] in Hall. apply andb_true_iff in Hall as [Ha Hs].
    cbn [int_digits]. rewrite Ha.
    pose proof (digit_value_nonneg a Ha) as Hv.
    destruct (IH Hs true (10 * acc + digit_value a)) as (v & Hv1 & Hv2); [auto | lia |].
    exists v. split; [exact Hv1 | lia].
Qed.

(** [int] reads a non-empty run of digits as a number that is not
    negative. *)
Lemma py_int_digits (ds : string) :
  ds <> EmptyString -> all_chars is_digit ds = true ->
  exists v, py_int ds = Return v /\ 0 <= v.
Proof.
  intros Hne Hall.
  assert (Hs : strip ds = ds).
  { apply strip_no_space. apply (all_chars_impl is_digit); [| exact Hall].
    apply digit_not_space. }
  unfold py_int. rewrite Hs.
  destruct (int_digits_all ds Hall false 0) as (v & Hv & Hpos); [auto | lia |].
  exists v. split; [| exact Hpos].
  destruct ds as [| a s]; [congruence |].
  assert (Ha : is_digit a = true) by (cbn [all_chars] in Hall; apply andb_true_iff in Hall; tauto).
  replace (match String a s with
           | String "+"%char u => int_digits false 0 u
           | String "-"%char u => option_map Z.opp (int_digits false 0 u)
           | _ => int_digits false 0 (String a s)
           end) with (int_digits false 0 (String a s)).
  - rewrite Hv. reflexivity.
  - destruct a as [[] [] [] [] [] [] [] []]; try reflexivity; discriminate Ha.
Qed.

Lemma parse_video_info_raises (stdout : string) (e : exn) :
  parse_video_info stdout = Raise e -> e = ValueError.
Proof.
  unfold parse_video_info.
  destruct (search_digits (json_key "width") stdout) as [ws |]; [| discriminate].
  destruct (search_digits (json_key "height") stdout) as [hs |]; [| discriminate].
  destruct (py_int ws) as [wd | e1] eqn:H1; cbn [bind];
    [| intros H; inversion H; subst; eapply py_int_raises, H1].
  destruct (py_int hs) as [ht | e2] eqn:H2; cbn [bind];
    [| intros H; inversion H; subst; eapply py_int_raises, H2].
  destruct (search_quoted (json_key "duration") stdout) as [ds |]; [| discriminate].
  destruct (py_float ds) as [d | e3] eqn:H3; cbn [bind]; [discriminate |].
  intros H; inversion H; subst. eapply py_float_raises, H3.
Qed.

Lemma parse_video_info_nonneg (stdout : string) (width height : Z) (duration : float) :
  parse_video_info stdout = Return (Some width, Some height, duration) ->
  0 <= width /\ 0 <= height.
Proof.
  unfold parse_video_info.
  destruct (search_digits (json_key "width") stdout) as [ws |] eqn:Hw;
    [| discriminate].
  destruct (search_digits (json_key "height") stdout) as [hs |] eqn:Hh;
    [| discriminate].
  apply search_digits_digits in Hw as [Hw1 Hw2], Hh as [Hh1 Hh2].
  destruct (py_int_digits ws Hw1 Hw2) as (wd & -> & Hwd).
  destruct (py_int_digits hs Hh1 Hh2) as (ht & -> & Hht).
  cbn [bind].
  destruct (match search_quoted (json_key "duration") stdout with
            | Some ds => py_float ds
            | None => Return (float_of_int 0)
            end) as [d | e3]; [| discriminate].
  cbn [bind]. intros H; inversion H; subst. auto.
Qed.

(** The probe returns unless [subprocess.run] itself was interrupted. *)
Lemma probe_escape (w : world) (video_path : string) :
  (exists info, outcome (get_video_info w video_path) = Return info)
  \/ (run_process w (ffprobe_cmd video_path) = Failed KeyboardInterrupt
      /\ outcome (get_video_info w video_path) = Raise KeyboardInterrupt).
Proof.
  unfold get_video_info. rewrite emit_then.
  destruct (run_process w (ffprobe_cmd video_path)) as [rc out | e]; cbn.
  - left. destruct (parse_video_info out) as [info | e] eqn:Hp; cbn; [eauto |].
    apply parse_video_info_raises in Hp. subst e. cbn. eauto.
  - destruct e; cbn; try (left; eexists; reflexivity).
    right. split; reflexivity.
Qed.

(** X1: whatever the probe tool does, [get_video_info] runs it once on
    the file and otherwise only prints; it returns, with no dimension or
    with both, unless [subprocess.run] itself was interrupted from the
    keyboard: every exception of class [Exception] is caught. *)
Theorem probe_contained (w : world) (video_path : string) :
  (exists t, trace (get_video_info w video_path) = Run (ffprobe_cmd video_path) :: t
             /\ only_prints t)
  /\ ((exists info,
          outcome (get_video_info w video_path) = Return info
          /\ (info = no_video_info
              \/ exists width height duration,
                   info = (Some width, Some height, duration)))
      \/ (run_process w (ffprobe_cmd video_path) = Failed KeyboardInterrupt
          /\ outcome (get_video_info w video_path) = Raise KeyboardInterrupt)).
Proof.
  split; [apply get_video_info_trace |].
  destruct (probe_escape w video_path) as [(info & Hinfo) | Hint]; [left | right; exact Hint].
  exists info. split; [exact Hinfo |]. apply (get_video_info_outcome w video_path), Hinfo.
Qed.

Lemma probed_nonneg (w : world) (video_path : string)
    (width height : Z) (duration : float) :
  probe_succeeds w video_path width height duration -> 0 <= width /\ 0 <= height.
Proof.
  unfold probe_succeeds, get_video_info. rewrite emit_then.
  destruct (run_process w (ffprobe_cmd video_path)) as [rc out | e]; cbn.
  - destruct (parse_video_info out) as [info | e] eqn:Hp; cbn.
    + intros H. inversion H. subst. apply (parse_video_info_nonneg out _ _ _ Hp).
    + destruct (is_Exception e); cbn; discriminate.
  - destruct (is_Exception e); cbn; discriminate.
Qed.

(** X2: the dimensions a successful probe returns are never negative
    (the patterns capture digits only); they can be zero, and a height of
    zero is not the target height, so the loop does not skip such a
    file. *)
Theorem probed_dimensions_nonnegative (w : world) (video_path : string)
    (width height : Z) (duration : float) :
  outcome (get_video_info w video_path) = Return (Some width, Some height, duration) ->
  0 <= width /\ 0 <= height
  /\ (height = 0 -> needs_conversion width height).
Proof.
  intros H. destruct (probed_nonneg w video_path width height duration H) as [Hw Hh].
  split; [exact Hw |]. split; [exact Hh |].
  intros -> [_ Hbad]. discriminate Hbad.
Qed.

Lemma probed_dimensions_nonnegative_witness :
  outcome (get_video_info zero_height_world "./a.mp4")
    = Return (Some 1920, Some 0, float_of_int 10)
  /\ 0 <= 1920 /\ 0 <= 0 /\ (0 = 0 -> needs_conversion 1920 0).
Proof.
  assert (H : outcome (get_video_info zero_height_world "./a.mp4")
              = Return (Some 1920, Some 0, float_of_int 10)) by (vm_compute; reflexivity).
  split; [exact H |].
  exact (probed_dimensions_nonnegative zero_height_world "./a.mp4" 1920 0
           (float_of_int 10) H).
Defined.

Lemma drop_prefix_prefix (key s r : string) :
  drop_prefix key s = Some r -> prefix key s = true.
Proof.
  revert s. induction key as [| a key IH]; intros s; [destruct s; reflexivity |].
  destruct s as [| b s]; cbn [drop_prefix prefix]; [discriminate |].
  destruct (Ascii.eqb_spec a b) as [-> | Hne]; [| discriminate].
  destruct (ascii_dec b b); [apply IH | congruence].
Qed.

Lemma search_digits_contains (key s ds : string) :
  search_digits key s = Some ds -> contains key s = true.
Proof.
  induction s as [| a s IH]; rewrite search_digits_step; cbn [contains].
  - destruct (drop_prefix key EmptyString) as [r |] eqn:Hd; [| discriminate].
    rewrite (drop_prefix_prefix _ _ _ Hd). reflexivity.
  - destruct (drop_prefix key (String a s)) as [r |] eqn:Hd.
    + rewrite (drop_prefix_prefix _ _ _ Hd). reflexivity.
    + intros H. rewrite (IH H). destruct (prefix key (String a s)); reflexivity.
Qed.

(** X3: the exit status of the probe tool is never looked at; an answer
    that lacks the width key or the height key gives no dimensions, and
    nothing is printed about it. *)
Theorem probe_needs_both_keys (w : world) (video_path : string)
    (returncode : Z) (stdout : string) :
  run_process w (ffprobe_cmd video_path) = Completed returncode stdout ->
  contains (json_key "width") stdout = false
  \/ contains (json_key "height") stdout = false ->
  get_video_info w video_path = ([Run (ffprobe_cmd video_path)], Return no_video_info).
Proof.
  intros Hrun Hkeys. unfold get_video_info. rewrite emit_then, Hrun.
  assert (Hp : parse_video_info stdout = Return no_video_info).
  { unfold parse_video_info.
    destruct (search_digits (json_key "width") stdout) as [ws |] eqn:Hw; [| reflexivity].
    destruct (search_digits (json_key "height") stdout) as [hs |] eqn:Hh; [| reflexivity].
    apply search_digits_contains in Hw, Hh. destruct Hkeys; congruence. }
  rewrite Hp. reflexivity.
Qed.

Lemma probe_needs_both_keys_witness :
  get_video_info (silent_probe_world 1) "./a.mp4"
    = ([Run (ffprobe_cmd "./a.mp4")], Return no_video_info).
Proof.
  apply (probe_needs_both_keys (silent_probe_world 1) "./a.mp4" 1 EmptyString).
  - reflexivity.
  - left. reflexivity.
Defined.

(** *** The answer for one stream, read back *)

Lemma drop_prefix_app (key r : string) : drop_prefix key (key ++ r) = Some r.
Proof.
  induction key as [| a key IH]; [reflexivity |].
  cbn [append drop_prefix]. rewrite Ascii.eqb_refl. exact IH.
Qed.









Lemma show_digits_nonempty (fuel : nat) (n : Z) (c : ascii) (acc : string) :
  exists a s, show_digits fuel n (String c acc) = String a s.
Proof.
  revert n c acc. induction fuel as [| fuel IH]; intros n c acc.
  - cbn [show_digits]. eauto.
  - rewrite show_digits_S. destruct (n <? 10); [eauto | apply IH].
Qed.

Lemma show_Z_digits (z : Z) :
  0 <= z ->
  all_chars is_digit (show_Z z) = true /\ exists a s, show_Z z = String a s.
Proof.
  intros Hz. unfold show_Z.
  replace (z <? 0) with false by (symmetry; apply Z.ltb_ge; exact Hz).
  split; [apply show_digits_chars; [exact Hz | reflexivity] |].
  rewrite show_digits_S. destruct (z <? 10); [eauto | apply show_digits_nonempty].
Qed.


Lemma lstrip_space (a : ascii) (s : string) :
  is_space a = true -> lstrip (String a s) = lstrip s.
Proof. intros H. cbn [lstrip]. rewrite H. reflexivity. Qed.

Lemma lstrip_plain (a : ascii) (s : string) :
  is_space a = false -> lstrip (String a s) = String a s.
Proof. intros H. cbn [lstrip]. rewrite H. reflexivity. Qed.

Lemma lstrip_digits (a rest : string) :
  all_chars is_digit a = true -> a <> EmptyString -> lstrip (a ++ rest) = a ++ rest.
Proof.
  destruct a as [| x a]; [congruence |]. intros H _.
  cbn [all_chars] in H. apply andb_true_iff in H as [Hx _].
  apply digit_not_space, negb_true_iff in Hx. cbn [append]. apply lstrip_plain, Hx.
Qed.





(** ** The encoder selector, beyond its result *)

(** The shape of every run of the selector: it probes the candidates in
    order, each at most once, and stops by announcing an accepted
    candidate, by announcing the fallback after the last candidate, or by
    an exception it does not catch. *)
Lemma detect_loop_shape (w : world) (candidates : list (string * string)) :
  exists k,
    (k <= List.length candidates)%nat
    /\ let probed := map Run (firstn k (map probe_cmd (map fst candidates))) in
       ((exists enc name,
            In (enc, name) candidates
            /\ detect_loop w candidates =
                 ((probed ++ [Print (MsgUsingEncoder name enc)])%list, Return enc))
        \/ (k = List.length candidates
            /\ detect_loop w candidates =
                 ((probed ++ [Print MsgNoGpuEncoder])%list, Return "libx264"))
        \/ (exists e,
              one_of [TimeoutExpired; CalledProcessError; FileNotFoundError] e = false
              /\ detect_loop w candidates = (probed, Raise e))).
Proof.
  induction candidates as [| [enc name] rest IH].
  - exists O. split; [reflexivity |]. right. left. split; reflexivity.
  - rewrite detect_loop_step.
    destruct IH as (k & Hk & IH).
    destruct (run_process w (probe_cmd enc)) as [rc out | e].
    + destruct (rc =? 0).
      * exists 1%nat. split; [cbn; lia |]. left. exists enc, name.
        split; [left; reflexivity | reflexivity].
      * exists (S k). split; [cbn; lia |].
        destruct IH as [(e1 & n1 & Hin & ->) | [[-> ->] | (e & He & ->)]].
        -- left. exists e1, n1. split; [right; exact Hin | reflexivity].
        -- right. left. split; reflexivity.
        -- right. right. exists e. split; [exact He | reflexivity].
    + destruct (one_of _ e) eqn:He.
      * exists (S k). split; [cbn; lia |].
        destruct IH as [(e1 & n1 & Hin & ->) | [[-> ->] | (e' & He' & ->)]].
        -- left. exists e1, n1. split; [right; exact Hin | reflexivity].
        -- right. left. split; reflexivity.
        -- right. right. exists e'. split; [exact He' | reflexivity].
      * exists 1%nat. split; [cbn; lia |]. right. right. exists e.
        split; [exact He | reflexivity].
Qed.

Lemma runs_map_Run (cmds : list (list string)) : runs (map Run cmds) = cmds.
Proof. induction cmds as [| c cmds IH]; cbn [map runs]; congruence. Qed.

Lemma launches_map_Run (cmds : list (list string)) : launches (map Run cmds) = [].
Proof. induction cmds as [| c cmds IH]; cbn [map launches]; congruence. Qed.

(** X5: the selector probes candidates in the order of the list, each at
    most once, launches nothing, and prints one announcement when it
    returns: the name and identifier of the candidate it returns, or the
    fallback notice, which comes only after every candidate was probed. *)
Theorem selector_announces_its_result (w : world) (candidates : list (string * string)) :
  let m := detect_loop w candidates in
  (exists k, runs (trace m) = firstn k (map probe_cmd (map fst candidates)))
  /\ launches (trace m) = []
  /\ (forall enc,
        outcome m = Return enc ->
        exists k msg,
          trace m = (map Run (firstn k (map probe_cmd (map fst candidates)))
                     ++ [Print msg])%list
          /\ ((exists name, In (enc, name) candidates /\ msg = MsgUsingEncoder name enc)
              \/ (enc = "libx264" /\ msg = MsgNoGpuEncoder
                  /\ runs (trace m) = map probe_cmd (map fst candidates))))
  /\ (forall e,
        outcome m = Raise e ->
        one_of [TimeoutExpired; CalledProcessError; FileNotFoundError] e = false
        /\ only_runs (trace m)).
Proof.
  intros m. subst m.
  destruct (detect_loop_shape w candidates)
    as (k & Hk & [(enc & name & Hin & ->) | [[-> ->] | (e & He & ->)]]);
    cbn [trace outcome fst snd].
  - split; [exists k; rewrite runs_app, runs_map_Run; apply app_nil_r |].
    split; [rewrite launches_app, launches_map_Run; reflexivity |].
    split; [| discriminate].
    intros enc' H. inversion H; subst enc'. exists k, (MsgUsingEncoder name enc).
    split; [reflexivity |]. left. exists name. split; [exact Hin | reflexivity].
  - split; [eexists; rewrite runs_app, runs_map_Run; apply app_nil_r |].
    split; [rewrite launches_app, launches_map_Run; reflexivity |].
    split; [| discriminate].
    intros enc' H. inversion H; subst enc'.
    exists (List.length candidates), MsgNoGpuEncoder.
    split; [reflexivity |]. right. split; [reflexivity |]. split; [reflexivity |].
    rewrite runs_app, runs_map_Run, app_nil_r.
    rewrite <- (length_map fst candidates), <- (length_map probe_cmd (map fst candidates)).
    apply firstn_all.
  - split; [exists k; apply runs_map_Run |].
    split; [apply launches_map_Run |].
    split; [discriminate |].
    intros e' H. inversion H; subst e'. split; [exact He |].
    unfold only_runs. apply Forall_forall. intros a Ha.
    apply in_map_iff in Ha as (c & <- & _). eauto.
Qed.

(** X6: an exception of [subprocess.run] other than the three the
    selector names is not caught: it leaves the selector at the candidate
    whose probe raised it, no later candidate is probed, and it leaves
    [convert_all_mp4s] before any file is looked for. *)
Theorem selector_lets_other_exceptions_out (w : world)
    (pre : list (string * string)) (enc name : string)
    (post : list (string * string)) (e : exn) :
  forallb (probe_rejects w) (map fst pre) = true ->
  run_process w (probe_cmd enc) = Failed e ->
  one_of [TimeoutExpired; CalledProcessError; FileNotFoundError] e = false ->
  detect_loop w (pre ++ (enc, name) :: post) =
    (map Run (map probe_cmd (map fst pre ++ [enc])), Raise e)
  /\ (encoders = (pre ++ (enc, name) :: post)%list ->
      forall input_directory output_directory,
        convert_all_mp4s w input_directory (Some output_directory) =
          (Makedirs output_directory
           :: map Run (map probe_cmd (map fst pre ++ [enc])), Raise e)).
Proof.
  intros Hpre Hrun He.
  assert (Hloop : detect_loop w (pre ++ (enc, name) :: post) =
                    (map Run (map probe_cmd (map fst pre ++ [enc])), Raise e)).
  { clear - Hpre Hrun He. induction pre as [| [c n] pre IH]; cbn [app map fst].
    - rewrite detect_loop_step, Hrun, He. reflexivity.
    - cbn [map fst forallb] in Hpre. apply andb_true_iff in Hpre as [Hc Hpre].
      rewrite detect_loop_step. unfold probe_rejects in Hc.
      destruct (run_process w (probe_cmd c)) as [rc out | e0].
      + apply negb_true_iff in Hc. rewrite Hc, (IH Hpre). reflexivity.
      + rewrite Hc, (IH Hpre). reflexivity. }
  split; [exact Hloop |].
  intros Henc input_directory output_directory.
  unfold convert_all_mp4s, detect_gpu_encoder. rewrite emit_then, Henc, Hloop.
  reflexivity.
Qed.

Lemma selector_lets_other_exceptions_out_witness :
  detect_loop refused_probe_world encoders =
    ([Run (probe_cmd "h264_nvenc"); Run (probe_cmd "h264_amf")], Raise OtherError)
  /\ convert_all_mp4s refused_probe_world "." (Some "out") =
       ([Makedirs "out"; Run (probe_cmd "h264_nvenc"); Run (probe_cmd "h264_amf")],
        Raise OtherError).
Proof.
  destruct (selector_lets_other_exceptions_out refused_probe_world
              [("h264_nvenc", "NVIDIA NVENC")] "h264_amf" "AMD AMF"
              [("h264_qsv", "Intel QuickSync"); ("libx264", "CPU (fallback)")]
              OtherError eq_refl eq_refl eq_refl) as [H1 H2].
  split; [exact H1 | exact (H2 eq_refl "." "out")].
Defined.

(** ** The command builder and the dimensions *)

(** X7: the dimensions decide only whether a command is built, never
    what it says: whenever [convert_video] returns for two pairs of
    dimensions, the two commands are the same. *)
Theorem command_ignores_dimensions (input_path output_path : string)
    (w1 h1 w2 h2 : Z) (gpu_encoder : string) (cmd1 cmd2 : list string) :
  convert_video input_path output_path w1 h1 gpu_encoder = Return cmd1 ->
  convert_video input_path output_path w2 h2 gpu_encoder = Return cmd2 ->
  cmd1 = cmd2.
Proof.
  unfold convert_video.
  destruct (int_truediv w1 h1) as [a1 | e1]; [| discriminate].
  destruct (int_truediv w2 h2) as [a2 | e2]; [| discriminate].
  destruct (int_truediv 1920 1080) as [t | e]; [| discriminate].
  cbn [bind]. destruct (fgtb a1 t), (fgtb a2 t); congruence.
Qed.

Lemma command_ignores_dimensions_witness :
  exists cmd,
    convert_video "a.mp4" "out.mp4" 2560 1080 "libx264" = Return cmd
    /\ convert_video "a.mp4" "out.mp4" 1080 1920 "libx264" = Return cmd.
Proof.
  eexists. split; [vm_compute; reflexivity |].
  assert (H2 : exists c, convert_video "a.mp4" "out.mp4" 1080 1920 "libx264" = Return c)
    by (eexists; vm_compute; reflexivity).
  destruct H2 as [c H2]. rewrite H2. f_equal.
  refine (command_ignores_dimensions "a.mp4" "out.mp4" 1080 1920 2560 1080 "libx264"
            c _ H2 _).
  vm_compute. reflexivity.
Defined.

(** ** The progress parser, beyond the elapsed-time marker *)

(** Every way the parser can return. *)
Lemma parse_progress_cases (line : string) (duration : float) (ev : progress) :
  parse_progress line duration = Return ev ->
  ev = no_event
  \/ (exists field v t,
        contains "out_time_us=" line = true
        /\ numeric_field line = Return field
        /\ py_int (strip field) = Return v
        /\ int_truediv v 1000000 = Return t
        /\ fgtb duration (float_of_int 0) = true
        /\ ev = (Some t, Some (fmul (fdiv t duration) (float_of_int 100))))
  \/ (exists fps,
        contains "out_time_us=" line = false
        /\ contains "fps=" line = true
        /\ ev = (None, Some fps)).
Proof.
  unfold parse_progress, numeric_field.
  destruct (contains "out_time_us=" line).
  - destruct (getitem (split "=" line) 1) as [field | e1] eqn:Hg; cbn [bind].
    + destruct (py_int (strip field)) as [v | e2] eqn:Hi; cbn [bind].
      * destruct (int_truediv v 1000000) as [t | e3] eqn:Hd; cbn [bind].
        -- destruct (fgtb duration (float_of_int 0)) eqn:Hpos; cbn.
           ++ intros H. inversion H. right. left. exists field, v, t. repeat split; auto.
           ++ intros H. inversion H. left. reflexivity.
        -- apply int_truediv_raises in Hd as [-> | ->]; cbn; discriminate.
      * apply py_int_raises in Hi. subst e2. cbn. intros H. inversion H. left. reflexivity.
    + apply getitem_raises in Hg. subst e1. cbn. intros H. inversion H. left. reflexivity.
  - destruct (contains "fps=" line); [| cbn; intros H; inversion H; left; reflexivity].
    destruct (getitem (split "=" line) 1) as [field | e1] eqn:Hg; cbn [bind].
    + destruct (py_float _) as [f | e2] eqn:Hf; cbn [bind].
      * cbn. intros H. inversion H. right. right. exists f. repeat split; auto.
      * apply py_float_raises in Hf. subst e2. cbn. intros H. inversion H. left. reflexivity.
    + apply getitem_raises in Hg. subst e1. cbn. intros H. inversion H. left. reflexivity.
Qed.

(** The parser raises nothing but [OverflowError], and only on a line
    with the elapsed-time marker. *)
Lemma parse_progress_overflow (line : string) (duration : float) (e : exn) :
  parse_progress line duration = Raise e ->
  e = OverflowError /\ contains "out_time_us=" line = true.
Proof.
  unfold parse_progress.
  destruct (contains "out_time_us=" line).
  - destruct (getitem (split "=" line) 1) as [field | e1] eqn:Hg; cbn [bind].
    + destruct (py_int (strip field)) as [v | e2] eqn:Hi; cbn [bind].
      * destruct (int_truediv v 1000000) as [t | e3] eqn:Hd; cbn [bind].
        -- destruct (fgtb _ _); discriminate.
        -- unfold int_truediv in Hd. cbn [Z.eqb] in Hd.
           destruct (is_finite _); inversion Hd. cbn.
           intros H. inversion H. split; reflexivity.
      * apply py_int_raises in Hi. subst e2. discriminate.
    + apply getitem_raises in Hg. subst e1. discriminate.
  - destruct (contains "fps=" line); [| discriminate].
    destruct (getitem (split "=" line) 1) as [field | e1] eqn:Hg; cbn [bind].
    + destruct (py_float _) as [f | e2] eqn:Hf; cbn [bind]; [discriminate |].
      apply py_float_raises in Hf. subst e2. discriminate.
    + apply getitem_raises in Hg. subst e1. discriminate.
Qed.

Lemma int_truediv_finite (a b : Z) (q : float) :
  int_truediv a b = Return q -> is_finite q = true /\ q = round_quotient a b.
Proof.
  unfold int_truediv. destruct (b =? 0); [discriminate |].
  destruct (is_finite (round_quotient a b)) eqn:Hf; [| discriminate].
  intros H. inversion H. subst. auto.
Qed.

(** X8: the pair the parser returns is the no-event pair, or elapsed
    seconds together with a percentage, or a frame rate alone; it never
    holds elapsed seconds without a percentage.  Elapsed seconds come only
    from a line with the elapsed-time marker and a duration above zero, are
    a finite float, and the percentage is computed from them; a frame rate
    comes only from a line without the elapsed-time marker. *)
Theorem parse_progress_events (line : string) (duration : float) (ev : progress) :
  parse_progress line duration = Return ev ->
  ev = no_event
  \/ (exists t,
        ev = (Some t, Some (fmul (fdiv t duration) (float_of_int 100)))
        /\ is_finite t = true
        /\ contains "out_time_us=" line = true
        /\ fgtb duration (float_of_int 0) = true)
  \/ (exists fps,
        ev = (None, Some fps)
        /\ contains "out_time_us=" line = false
        /\ contains "fps=" line = true).
Proof.
  intros H.
  destruct (parse_progress_cases line duration ev H)
    as [-> | [(field & v & t & Hc & _ & _ & Hd & Hpos & ->) | (fps & Hc & Hf & ->)]].
  - left. reflexivity.
  - right. left. exists t. apply int_truediv_finite in Hd as [Hfin _]. auto.
  - right. right. exists fps. auto.
Qed.

Lemma parse_progress_events_witness :
  (Some (float_of_int 30), Some (float_of_int 25)) = no_event
  \/ (exists t,
        (Some (float_of_int 30), Some (float_of_int 25))
          = (Some t, Some (fmul (fdiv t (float_of_int 120)) (float_of_int 100)))
        /\ is_finite t = true
        /\ contains "out_time_us=" "out_time_us=30000000" = true
        /\ fgtb (float_of_int 120) (float_of_int 0) = true)
  \/ (exists fps,
        (Some (float_of_int 30), Some (float_of_int 25)) = (None, Some fps)
        /\ contains "out_time_us=" "out_time_us=30000000" = false
        /\ contains "fps=" "out_time_us=30000000" = true).
Proof.
  apply (parse_progress_events "out_time_us=30000000" (float_of_int 120)).
  vm_compute. reflexivity.
Defined.

(** X9: the parser raises in one case only: the number after the
    elapsed-time marker is an integer of magnitude 2^1023 or more, whose
    division by 1000000 overflows a float; the exception is
    [OverflowError], which the function does not catch. *)
Theorem parse_progress_raises_only_overflow (line : string) (duration : float)
    (e : exn) :
  parse_progress line duration = Raise e ->
  e = OverflowError
  /\ contains "out_time_us=" line = true
  /\ exists field v,
       numeric_field line = Return field
       /\ py_int (strip field) = Return v
       /\ 2 ^ 1023 <= Z.abs v.
Proof.
  unfold parse_progress, numeric_field.
  destruct (contains "out_time_us=" line).
  - destruct (getitem (split "=" line) 1) as [field | e1] eqn:Hg; cbn [bind].
    + destruct (py_int (strip field)) as [v | e2] eqn:Hi; cbn [bind].
      * destruct (Z.lt_ge_cases (Z.abs v) (2 ^ 1023)) as [Hlt | Hge].
        -- rewrite int_truediv_returns by (assumption || discriminate). cbn [bind].
           destruct (fgtb _ _); discriminate.
        -- destruct (int_truediv v 1000000) as [t | e3] eqn:Hd; cbn [bind].
           ++ destruct (fgtb _ _); discriminate.
           ++ assert (e3 = OverflowError).
              { unfold int_truediv in Hd. cbn [Z.eqb] in Hd.
                destruct (is_finite _); inversion Hd. reflexivity. }
              subst e3. cbn. intros H. inversion H. subst e.
              split; [reflexivity |]. split; [reflexivity |]. eauto.
      * apply py_int_raises in Hi. subst e2. discriminate.
    + apply getitem_raises in Hg. subst e1. discriminate.
  - destruct (contains "fps=" line); [| discriminate].
    destruct (getitem (split "=" line) 1) as [field | e1] eqn:Hg; cbn [bind].
    + destruct (py_float _) as [f | e2] eqn:Hf; cbn [bind]; [discriminate |].
      apply py_float_raises in Hf. subst e2. discriminate.
    + apply getitem_raises in Hg. subst e1. discriminate.
Qed.


Lemma parse_progress_raises_only_overflow_witness :
  parse_progress ("out_time_us=" ++ show_Z (10 ^ 400)) (float_of_int 120)
    = Raise OverflowError
  /\ exists field v,
       numeric_field ("out_time_us=" ++ show_Z (10 ^ 400)) = Return field
       /\ py_int (strip field) = Return v
       /\ 2 ^ 1023 <= Z.abs v.
Proof.
  assert (H : parse_progress ("out_time_us=" ++ show_Z (10 ^ 400)) (float_of_int 120)
              = Raise OverflowError) by (vm_compute; reflexivity).
  split; [exact H |].
  apply (parse_progress_raises_only_overflow _ _ _ H).
Defined.

(** *** Lines with the frame-rate marker *)

Lemma prefix_split (p s : string) : prefix p s = true -> exists r, s = p ++ r.
Proof.
  revert s. induction p as [| a p IH]; intros s H; [exists s; reflexivity |].
  destruct s as [| b s]; cbn [prefix] in H; [discriminate |].
  destruct (ascii_dec a b) as [-> | _]; [| discriminate].
  destruct (IH s H) as [r ->]. exists r. reflexivity.
Qed.

Lemma contains_split (sub s : string) :
  contains sub s = true -> exists a b, s = a ++ sub ++ b.
Proof.
  induction s as [| c s IH]; cbn [contains].
  - destruct (prefix sub EmptyString) eqn:Hp; [| discriminate].
    intros _. apply prefix_split in Hp as [r Hr]. exists EmptyString, r. exact Hr.
  - destruct (prefix sub (String c s)) eqn:Hp.
    + intros _. apply prefix_split in Hp as [r Hr]. exists EmptyString, r. exact Hr.
    + intros H. destruct (IH H) as (a & b & ->). exists (String c a), b. reflexivity.
Qed.

(** A text without an equals sign holds no marker. *)
Lemma contains_marker_plain (marker s : string) :
  all_chars not_eq_sign s = true -> contains (marker ++ "=") s = false.
Proof.
  intros Hs. destruct (contains (marker ++ "=") s) eqn:Hc; [| reflexivity].
  apply contains_split in Hc as (a & b & ->).
  rewrite !all_chars_app in Hs. cbn in Hs.
  rewrite !andb_false_r in Hs. discriminate Hs.
Qed.

Lemma first_eq_sign (x y u v : string) :
  all_chars not_eq_sign x = true -> all_chars not_eq_sign y = true ->
  x ++ String "=" u = y ++ String "=" v -> x = y.
Proof.
  revert y. induction x as [| a x IH]; intros [| b y] Hx Hy H; cbn [append] in H.
  - reflexivity.
  - inversion H. subst b. cbn in Hy. discriminate Hy.
  - inversion H. subst a. cbn in Hx. discriminate Hx.
  - inversion H. subst b. f_equal.
    cbn [all_chars] in Hx, Hy. apply andb_true_iff in Hx as [_ Hx], Hy as [_ Hy].
    apply (IH y Hx Hy). assumption.
Qed.

(** The elapsed-time marker does not occur in a line whose only equals
    sign is that of the frame-rate marker. *)
Lemma no_time_marker (pre field : string) :
  all_chars not_eq_sign pre = true ->
  all_chars not_eq_sign field = true ->
  contains "out_time_us=" (pre ++ "fps=" ++ field) = false.
Proof.
  intros Hpre Hfield.
  assert (Hprefix : forall p, all_chars not_eq_sign p = true ->
                              prefix "out_time_us=" (p ++ "fps=" ++ field) = false).
  { intros p Hp. destruct (prefix _ _) eqn:E; [| reflexivity].
    apply prefix_split in E as [r E].
    assert (Hx : p ++ "fps" = "out_time_us").
    { apply (first_eq_sign _ _ field r).
      - rewrite all_chars_app, Hp. reflexivity.
      - reflexivity.
      - rewrite append_assoc. exact E. }
    clear - Hx.
    do 12 (destruct p as [| ? p]; [discriminate Hx |]). discriminate Hx. }
  induction pre as [| c pre IH].
  - cbn [append].
    repeat match goal with
           | |- contains _ (String _ _) = false =>
               cbn [contains];
               let E := fresh in
               destruct (prefix _ _) eqn:E;
               [apply prefix_split in E as [? E]; discriminate E |]
           end.
    apply (contains_marker_plain "out_time_us"), Hfield.
  - cbn [all_chars] in Hpre. apply andb_true_iff in Hpre as [Hc Hpre].
    assert (Hp : prefix "out_time_us=" (String c pre ++ "fps=" ++ field) = false)
      by (apply Hprefix; cbn [all_chars]; rewrite Hc, Hpre; reflexivity).
    specialize (IH Hpre). cbn [append] in Hp, IH. cbn [append contains].
    rewrite Hp. exact IH.
Qed.

(** X10: a line whose only equals sign is that of the frame-rate marker
    gives the frame rate [float] reads after the marker, a trailing [ fps]
    removed, whatever the duration; when [float] rejects the text the
    line gives no event. *)
Theorem fps_line_read (pre field : string) (duration : float) :
  all_chars not_eq_sign pre = true ->
  all_chars not_eq_sign field = true ->
  parse_progress (pre ++ "fps=" ++ field) duration =
    match py_float (strip (replace " fps" "" (strip field))) with
    | Return fps => Return (None, Some fps)
    | Raise _ => Return no_event
    end.
Proof.
  intros Hpre Hfield. unfold parse_progress.
  rewrite (no_time_marker pre field Hpre Hfield).
  rewrite (contains_app "fps=" pre field).
  pose proof (numeric_field_marker pre "fps" field Hpre eq_refl Hfield) as Hn.
  unfold numeric_field in Hn. cbn [append] in Hn. cbn [append].
  rewrite Hn. cbn [bind].
  destruct (py_float _) as [fps | e] eqn:Hf; cbn [bind]; [reflexivity |].
  apply py_float_raises in Hf. subst e. reflexivity.
Qed.

Lemma fps_line_read_witness :
  parse_progress ("" ++ "fps=" ++ "50.0 fps") (float_of_int 120)
    = Return (None, Some (float_of_int 50)).
Proof.
  apply (fps_line_read "" "50.0 fps" (float_of_int 120)); reflexivity.
Defined.

(** *** The statistics line of the encoder *)

Lemma digit_facts (a : ascii) :
  is_digit a = true ->
  Ascii.eqb a "_" = false /\ Ascii.eqb a "." = false /\ lower_ascii a = a
  /\ Ascii.eqb a "i" = false /\ Ascii.eqb a "n" = false
  /\ not_eq_sign a = true /\ Ascii.eqb a " " = false
  /\ forall s, take_sign (String a s) = (false, String a s).
Proof.
  destruct a as [[] [] [] [] [] [] [] []]; intros H; try discriminate H;
    repeat split; reflexivity.
Qed.

Lemma underscores_ok_digits (s : string) (b : bool) :
  all_chars is_digit s = true -> underscores_ok b s = true.
Proof.
  revert b. induction s as [| a s IH]; intros b H; [reflexivity |].
  cbn [all_chars] in H. apply andb_true_iff in H as [Ha Hs].
  cbn [underscores_ok]. destruct (digit_facts a Ha) as (-> & _). apply IH, Hs.
Qed.

Lemma remove_underscores_digits (s : string) :
  all_chars is_digit s = true -> remove_underscores s = s.
Proof.
  induction s as [| a s IH]; intros H; [reflexivity |].
  cbn [all_chars] in H. apply andb_true_iff in H as [Ha Hs].
  cbn [remove_underscores]. destruct (digit_facts a Ha) as (-> & _).
  rewrite (IH Hs). reflexivity.
Qed.

Lemma lower_digits (s : string) : all_chars is_digit s = true -> lower s = s.
Proof.
  induction s as [| a s IH]; intros H; [reflexivity |].
  cbn [all_chars] in H. apply andb_true_iff in H as [Ha Hs].
  cbn [lower]. destruct (digit_facts a Ha) as (_ & _ & -> & _).
  rewrite (IH Hs). reflexivity.
Qed.

(** The digits reader of [float] and that of [int] agree on a run of
    digits. *)
Lemma take_digits_all (s : string) :
  all_chars is_digit s = true ->
  forall (acc : Z) (k : nat),
    exists v, take_digits acc k s = (v, (k + String.length s)%nat, EmptyString)
              /\ int_digits true acc s = Some v.
Proof.
  induction s as [| a s IH]; intros H acc k.
  - exists acc. cbn. rewrite Nat.add_0_r. split; reflexivity.
  - cbn [all_chars] in H. apply andb_true_iff in H as [Ha Hs].
    cbn [take_digits int_digits String.length]. rewrite Ha.
    destruct (IH Hs (10 * acc + digit_value a) (S k)) as (v & Hv1 & Hv2).
    exists v. split; [| exact Hv2]. rewrite Hv1. do 2 f_equal. lia.
Qed.

Lemma round_decimal_int (n : Z) : 0 <= n -> round_decimal false n 0 = float_of_int n.
Proof.
  intros Hn. destruct n as [| p | p]; [reflexivity | | lia].
  unfold round_decimal, float_of_int, round_quotient. cbn [Z.leb Z.compare Z.abs].
  change (Z.to_pos (10 ^ 0)) with 1%positive. rewrite Pos.mul_1_r. reflexivity.
Qed.

(** [float] reads the digits of an integer that is not negative as that
    integer. *)
Lemma py_float_show (n : Z) : 0 <= n -> py_float (show_Z n) = Return (float_of_int n).
Proof.
  intros Hn. destruct (show_Z_digits n Hn) as (Hd & a & s & E).
  assert (Hs : strip (show_Z n) = show_Z n).
  { apply strip_no_space. apply (all_chars_impl is_digit); [| exact Hd].
    apply digit_not_space. }
  unfold py_float. rewrite Hs, underscores_ok_digits by exact Hd. cbn [negb].
  rewrite remove_underscores_digits by exact Hd.
  assert (Ha : is_digit a = true)
    by (rewrite E in Hd; cbn [all_chars] in Hd; apply andb_true_iff in Hd; tauto).
  destruct (digit_facts a Ha) as (_ & _ & _ & Hi & Hnn & _ & _ & Hsign).
  rewrite E, Hsign, <- E. rewrite lower_digits by exact Hd.
  assert (Hkw : String.eqb (show_Z n) "inf" || String.eqb (show_Z n) "infinity" = false
                /\ String.eqb (show_Z n) "nan" = false).
  { rewrite E. cbn [String.eqb]. rewrite Hi, Hnn. split; reflexivity. }
  destruct Hkw as [-> ->].
  destruct (take_digits_all (show_Z n) Hd 0 O) as (v & Htd & Hv).
  assert (v = n).
  { unfold show_Z in Hv.
    replace (n <? 0) with false in Hv by (symmetry; apply Z.ltb_ge; exact Hn).
    rewrite int_digits_show in Hv by (split; [lia | apply log2_fuel; lia]).
    cbn [int_digits] in Hv. congruence. }
  subst v. unfold parse_decimal. rewrite Htd.
  rewrite E at 1. cbn [String.length Nat.add Nat.eqb].
  rewrite round_decimal_int by exact Hn. reflexivity.
Qed.

Lemma lstrip_blanks (pad s : string) :
  all_chars is_blank pad = true -> lstrip (pad ++ s) = lstrip s.
Proof.
  induction pad as [| a pad IH]; intros H; [reflexivity |].
  cbn [all_chars] in H. apply andb_true_iff in H as [Ha Hp].
  apply Ascii.eqb_eq in Ha. subst a. cbn [append].
  rewrite lstrip_space by reflexivity. apply IH, Hp.
Qed.

Lemma rstrip_last (a : string) (c : ascii) :
  is_space c = false -> rstrip (a ++ String c EmptyString) = a ++ String c EmptyString.
Proof.
  intros Hc. induction a as [| x a IH]; cbn [append rstrip].
  - rewrite Hc. reflexivity.
  - rewrite IH. destruct a; reflexivity.
Qed.

Lemma replace_fps_suffix (ds : string) :
  all_chars is_digit ds = true -> replace " fps" "" (ds ++ " fps") = ds.
Proof.
  unfold replace. induction ds as [| a ds IH]; intros H; [reflexivity |].
  cbn [all_chars] in H. apply andb_true_iff in H as [Ha Hd].
  cbn [append replace_from prefix].
  destruct (ascii_dec " " a) as [<- | _]; [discriminate Ha |].
  rewrite (IH Hd). reflexivity.
Qed.

(** X11: on the statistics line of the encoder, which carries the frame
    counter before the frame-rate marker, the parser returns the frame
    counter as the frame rate: the text between the first two equals signs
    is the counter followed by [ fps]. *)
Theorem stats_line_frame_count_as_fps (pad : string) (frames : Z) (rest : string)
    (duration : float) :
  all_chars is_blank pad = true ->
  0 <= frames ->
  contains "out_time_us=" (stats_line pad frames rest) = false ->
  numeric_field (stats_line pad frames rest) = Return (pad ++ show_Z frames ++ " fps")
  /\ parse_progress (stats_line pad frames rest) duration
       = Return (None, Some (float_of_int frames)).
Proof.
  intros Hpad Hn Hc.
  destruct (show_Z_digits frames Hn) as (Hd & a & s & E).
  assert (Hpad_eq : all_chars not_eq_sign pad = true).
  { apply (all_chars_impl is_blank); [| exact Hpad].
    intros x Hx. apply Ascii.eqb_eq in Hx. subst x. reflexivity. }
  assert (Hd_eq : all_chars not_eq_sign (show_Z frames) = true).
  { apply (all_chars_impl is_digit); [| exact Hd]. intros x Hx. apply digit_facts, Hx. }
  assert (Hfield : numeric_field (stats_line pad frames rest)
                   = Return (pad ++ show_Z frames ++ " fps")).
  { unfold numeric_field, stats_line.
    replace ("frame=" ++ pad ++ show_Z frames ++ " fps=" ++ rest)
      with ("frame" ++ String "=" ((pad ++ show_Z frames ++ " fps") ++ String "=" rest))
      by (rewrite !append_assoc; reflexivity).
    rewrite split_app by reflexivity.
    rewrite split_app
      by (change (all_chars not_eq_sign (pad ++ show_Z frames ++ " fps") = true);
          rewrite !all_chars_app, Hpad_eq, Hd_eq; reflexivity).
    reflexivity. }
  split; [exact Hfield |].
  assert (Hfps : contains "fps=" (stats_line pad frames rest) = true).
  { unfold stats_line.
    replace ("frame=" ++ pad ++ show_Z frames ++ " fps=" ++ rest)
      with (("frame=" ++ pad ++ show_Z frames ++ " ") ++ "fps=" ++ rest)
      by (rewrite !append_assoc; reflexivity).
    apply contains_app. }
  assert (Hstrip : strip (pad ++ show_Z frames ++ " fps") = show_Z frames ++ " fps").
  { unfold strip. rewrite lstrip_blanks by exact Hpad.
    rewrite lstrip_digits by (exact Hd || congruence).
    replace (show_Z frames ++ " fps") with ((show_Z frames ++ " fp") ++ "s")
      by (rewrite !append_assoc; reflexivity).
    apply rstrip_last. reflexivity. }
  assert (Hplain : strip (show_Z frames) = show_Z frames).
  { apply strip_no_space. apply (all_chars_impl is_digit); [| exact Hd].
    apply digit_not_space. }
  unfold parse_progress. unfold numeric_field in Hfield.
  rewrite Hc, Hfps, Hfield. cbn [bind].
  rewrite Hstrip, replace_fps_suffix, Hplain, py_float_show by assumption.
  reflexivity.
Qed.

Lemma stats_line_frame_count_as_fps_witness :
  parse_progress "frame=  250 fps= 50 q=-1.0 size=    1024kB" (float_of_int 10)
    = Return (None, Some (float_of_int 250)).
Proof.
  apply (stats_line_frame_count_as_fps "  " 250 " 50 q=-1.0 size=    1024kB"
           (float_of_int 10)).
  - reflexivity.
  - lia.
  - reflexivity.
Defined.

(** ** The reading loop and exceptions *)

Lemma update_progress_returns (ev : progress) (st : progress_state) :
  (forall t, ev <> (Some t, None)) ->
  exists st', outcome (update_progress ev st) = Return st'.
Proof.
  intros Hev. unfold update_progress. destruct ev as [[t |] [p |]].
  - destruct (fgtb _ _); eexists; reflexivity.
  - exfalso. apply (Hev t). reflexivity.
  - eexists. reflexivity.
  - eexists. reflexivity.
Qed.

Lemma parse_progress_paired (line : string) (duration : float) (ev : progress) :
  parse_progress line duration = Return ev -> forall t, ev <> (Some t, None).
Proof.
  intros H t.
  destruct (parse_progress_cases line duration ev H)
    as [-> | [(field & v & t' & _ & _ & _ & _ & _ & ->) | (fps & _ & _ & ->)]];
    discriminate.
Qed.




(** X13: on a platform other than Windows, a line without the
    elapsed-time marker prints nothing and leaves the last percentage as
    it was: only lines with the marker can show progress there. *)
Theorem unmarked_lines_show_no_progress (duration : float) (lines : list string) :
  Forall (fun line => contains "out_time_us=" (strip line) = false) lines ->
  forall st,
    exists st',
      read_lines Posix duration st lines = ([], Return st')
      /\ last_percentage st' = last_percentage st.
Proof.
  induction 1 as [| line rest Hline Hrest IH]; intros st; cbn [read_lines].
  - exists st. split; reflexivity.
  - unfold handle_line.
    destruct (parse_progress (strip line) duration) as [ev | e] eqn:Hp.
    + destruct (parse_progress_cases _ _ _ Hp)
        as [-> | [(field & v & t & Hc & _) | (fps & _ & _ & ->)]].
      * cbn. destruct (IH st) as (st' & -> & Hst'). exists st'. split; [reflexivity | exact Hst'].
      * congruence.
      * cbn.
        destruct (IH {| current_fps := fps; last_percentage := last_percentage st |})
          as (st' & -> & Hst').
        exists st'. split; [reflexivity | exact Hst'].
    + apply parse_progress_overflow in Hp as [_ Hc]. congruence.
Qed.

Lemma unmarked_lines_show_no_progress_witness :
  exists st',
    read_lines Posix (float_of_int 10) initial_progress
      ["frame=  250 fps= 50 q=-1.0 size=    1024kB"; "video:1024kB audio:0kB"]
      = ([], Return st')
    /\ last_percentage st' = last_percentage initial_progress.
Proof.
  apply (unmarked_lines_show_no_progress (float_of_int 10)
           ["frame=  250 fps= 50 q=-1.0 size=    1024kB"; "video:1024kB audio:0kB"]).
  repeat constructor.
Defined.

(** ** Paths and discovery *)









(** *** The two patterns on a platform that matches names as spelled *)





(** *** The two patterns on Windows *)




(** *** Destinations *)

Lemma separators_plain (p : os) (s : string) :
  existsb (is_sep p) (list_ascii_of_string s) = negb (sep_free p s).
Proof.
  unfold sep_free. induction s as [| a s IH]; [reflexivity |].
  cbn [list_ascii_of_string existsb all_chars]. rewrite IH.
  destruct (is_sep p a); reflexivity.
Qed.

Lemma basename_sep_free (p : os) (name : string) :
  sep_free p name = true -> basename p name = name.
Proof.
  intros H. destruct name as [| a s]; [reflexivity |].
  cbn [basename]. rewrite separators_plain, H. reflexivity.
Qed.

Lemma basename_after_sep (p : os) (a : string) (c : ascii) (name : string) :
  is_sep p c = true -> sep_free p name = true ->
  basename p (a ++ String c name) = name.
Proof.
  intros Hc Hname.
  assert (Hsep : forall b, sep_free p (b ++ String c name) = false).
  { intros b. unfold sep_free. rewrite all_chars_app. cbn [all_chars].
    rewrite Hc. cbn [negb andb]. apply andb_false_r. }
  induction a as [| x a IH].
  - pose proof (Hsep EmptyString) as H0. cbn [append] in H0.
    cbn [append basename]. rewrite separators_plain, H0. cbn [negb].
    apply basename_sep_free, Hname.
  - cbn [append basename].
    change (String x (a ++ String c name)) with (String x a ++ String c name).
    rewrite separators_plain, Hsep. cbn [negb]. exact IH.
Qed.

Lemma last_char_spec (a : string) (c : ascii) :
  last_char a = Some c -> exists a', a = a' ++ String c EmptyString.
Proof.
  induction a as [| x a IH]; [discriminate |].
  destruct a as [| y a].
  - cbn. intros H. inversion H. exists EmptyString. reflexivity.
  - intros H. destruct (IH H) as [a' Ha']. exists (String x a'). cbn [append].
    rewrite <- Ha'. reflexivity.
Qed.

(** The name of a file found in a directory is what [basename] gives
    back from its path. *)
Lemma basename_join (p : os) (directory name : string) :
  no_drive_end p directory -> plain_name p name = true ->
  basename p (join p directory name) = name.
Proof.
  intros Hd Hname. unfold plain_name in Hname. apply andb_true_iff in Hname as [Hname _].
  unfold join.
  destruct (last_char directory) as [c |] eqn:Hlast; [| apply basename_sep_free, Hname].
  destruct p.
  - destruct (Ascii.eqb c slash) eqn:Hc.
    + apply last_char_spec in Hlast as [a' ->]. rewrite append_assoc. cbn [append].
      apply basename_after_sep; [exact Hc | exact Hname].
    + apply basename_after_sep; [reflexivity | exact Hname].
  - destruct (is_sep Windows c) eqn:Hc; cbn [orb].
    + apply last_char_spec in Hlast as [a' ->]. rewrite append_assoc. cbn [append].
      apply basename_after_sep; [exact Hc | exact Hname].
    + destruct (Ascii.eqb_spec c ":") as [-> | _].
      * destruct Hd as [Hd | Hd]; [discriminate Hd | congruence].
      * apply basename_after_sep; [reflexivity | exact Hname].
Qed.

(** X16: the destination of a file found as entry [name] of the input
    directory is the entry [converted_name] of the output directory: the
    name the loop takes off the path is the entry itself. *)
Theorem destination_of_entry (w : world) (input_directory output_directory name : string) :
  no_drive_end (platform w) input_directory ->
  plain_name (platform w) name = true ->
  basename (platform w) (join (platform w) input_directory name) = name
  /\ output_path w output_directory (join (platform w) input_directory name)
     = join (platform w) output_directory ("converted_" ++ name).
Proof.
  intros Hd Hname. unfold output_path.
  rewrite (basename_join _ _ _ Hd Hname). split; reflexivity.
Qed.

Lemma destination_of_entry_witness :
  output_path scenario_world "./converted" "./a.mp4" = "./converted/converted_a.mp4".
Proof.
  refine (proj2 (destination_of_entry scenario_world "." "./converted" "a.mp4" _ _)).
  - left. reflexivity.
  - reflexivity.
Defined.





(** ** The batch as a whole *)

Lemma encode_checks (w : world) (filename : string) (cmd : list string)
    (duration : float) (process : option (list string)) :
  checks (trace (encode w filename cmd duration process)) = [].
Proof.
  unfold encode.
  destruct (popen w cmd) as [lines rc | lines | e]; rewrite !emit_then.
  - pose proof (checks_prints _ (read_lines_prints (platform w) duration lines
                                   initial_progress)) as Hp.
    rewrite !io_bind_eq.
    destruct (read_lines (platform w) duration initial_progress lines) as [tl [st | e]];
      cbn [trace outcome fst snd] in *.
    + destruct (rc =? 0); cbn; rewrite checks_app, Hp; reflexivity.
    + destruct (exn_eqb e KeyboardInterrupt); cbn; rewrite checks_app, Hp; reflexivity.
  - pose proof (checks_prints _ (read_lines_prints (platform w) duration lines
                                   initial_progress)) as Hp.
    rewrite !io_bind_eq.
    destruct (read_lines (platform w) duration initial_progress lines) as [tl [st | e]];
      cbn [trace outcome fst snd] in *.
    + cbn. rewrite !checks_app, Hp. reflexivity.
    + destruct (exn_eqb e KeyboardInterrupt); cbn; rewrite checks_app, Hp; reflexivity.
  - cbn. destruct (exn_eqb e KeyboardInterrupt); [destruct process |]; reflexivity.
Qed.

(** Each turn of the loop checks one destination: that of its file. *)
Lemma job_checks (w : world) (output_directory gpu_encoder : string)
    (total i : nat) (input_file : string) (process : option (list string)) :
  checks (trace (process_file w output_directory gpu_encoder total i input_file process))
  = [output_path w output_directory input_file].
Proof.
  rewrite process_file_shape.
  destruct (path_exists w (output_path w output_directory input_file)); [reflexivity |].
  destruct (get_video_info_trace w input_file) as (tp & Htp & Hprints).
  pose proof (checks_prints tp Hprints) as Hc.
  destruct (get_video_info w input_file) as [t [info | e]];
    cbn [trace fst] in Htp; subst t.
  2:{ cbn [trace fst checks]. rewrite Hc. reflexivity. }
  destruct info as [[[width |] [height |]] duration];
    try (cbn [trace fst checks app]; rewrite checks_app, Hc; reflexivity).
  destruct ((width =? 1920) && (height =? 1080));
    [cbn [trace fst checks app]; rewrite checks_app, Hc; reflexivity |].
  destruct (convert_video _ _ width height gpu_encoder) as [cmd | e];
    [| cbn [trace fst checks app]; rewrite checks_app, Hc; reflexivity].
  cbn [trace fst checks app]. rewrite checks_app, Hc. cbn [checks app].
  rewrite encode_checks. reflexivity.
Qed.

(** X22: whatever happens to the files, the loop takes them in the order
    of the queue, each at most once, up to the file at which it stops; it
    checks the destination of each file it takes, and runs the probe tool
    for exactly those among them whose destination does not exist yet. *)
Theorem queue_order (w : world) (output_directory gpu_encoder : string)
    (total : nat) (files : list string) (i : nat) (process : option (list string)) :
  let t := trace (process_files w output_directory gpu_encoder total i files process) in
  exists n,
    checks t = map (output_path w output_directory) (firstn n files)
    /\ runs t =
         map ffprobe_cmd
             (filter (fun f => negb (path_exists w (output_path w output_directory f)))
                     (firstn n files))
    /\ (forall r, outcome (process_files w output_directory gpu_encoder total i files
                             process) = Return (Continue, r) ->
                  n = List.length files).
Proof.
  cbv zeta. revert i process. induction files as [| f rest IH]; intros i process.
  - exists O. repeat split; reflexivity.
  - rewrite process_files_cons.
    pose proof (job_checks w output_directory gpu_encoder total i f process) as Hc.
    destruct (job_effects w output_directory gpu_encoder total i f process) as [Hr _].
    cbv zeta in Hr.
    assert (Hone : runs (trace (process_file w output_directory gpu_encoder total i f
                                  process)) =
                   map ffprobe_cmd
                     (filter (fun f => negb (path_exists w (output_path w output_directory f)))
                             [f])).
    { rewrite Hr. cbn [filter]. destruct (path_exists w _); reflexivity. }
    destruct (outcome (process_file w output_directory gpu_encoder total i f process))
      as [[[] p1] | e].
    + destruct (IH (S i) p1) as (n & Hn1 & Hn2 & Hn3).
      exists (S n). cbn [trace outcome fst snd firstn map].
      rewrite checks_app, runs_app, Hc, Hn1, Hone, Hn2.
      split; [reflexivity |]. split.
      * cbn [filter]. destruct (negb _); reflexivity.
      * intros r Hret. cbn [List.length]. f_equal. apply (Hn3 r Hret).
    + exists 1%nat. cbn [trace outcome fst snd firstn map].
      rewrite Hc, Hone. repeat split; try reflexivity. discriminate.
    + exists 1%nat. cbn [trace outcome fst snd firstn map].
      rewrite Hc, Hone. repeat split; try reflexivity. discriminate.
Qed.

(** A loop that ran to the end of the queue ran the probe tool for
    exactly the files whose destination did not exist. *)
Lemma finished_loop_runs (w : world) (output_directory gpu_encoder : string)
    (total : nat) (files : list string) :
  forall (i : nat) (process r : option (list string)),
    outcome (process_files w output_directory gpu_encoder total i files process)
      = Return (Continue, r) ->
    runs (trace (process_files w output_directory gpu_encoder total i files process))
    = map ffprobe_cmd
          (filter (fun f => negb (path_exists w (output_path w output_directory f)))
                  files).
Proof.
  induction files as [| f rest IH]; intros i process r; [reflexivity |].
  rewrite process_files_cons.
  destruct (job_effects w output_directory gpu_encoder total i f process) as [Hr _].
  cbv zeta in Hr.
  destruct (outcome (process_file w output_directory gpu_encoder total i f process))
    as [[[] p1] | e]; cbn [trace outcome fst snd]; try discriminate.
  intros Hout. rewrite runs_app, Hr, (IH _ _ _ Hout). cbn [filter].
  destruct (path_exists w _); reflexivity.
Qed.

(** X19: failures of single files stay with them: when every file of the
    queue is contained (its destination exists, or its probe fails, or it
    has the target dimensions already, or its command is built and its
    encode ends, with any status, or fails to start), each file gets its
    turn, in the order of the queue, the loop runs to the end, and the
    probe tool was run for every file whose destination did not exist. *)
Theorem failures_isolated (w : world) (output_directory gpu_encoder : string)
    (total : nat) (files : list string) :
  (forall f, In f files -> contained w output_directory gpu_encoder f) ->
  forall (i : nat) (process : option (list string)),
  exists process',
    outcome (process_files w output_directory gpu_encoder total i files process)
      = Return (Continue, process')
    /\ checks (trace (process_files w output_directory gpu_encoder total i files process))
       = map (output_path w output_directory) files
    /\ runs (trace (process_files w output_directory gpu_encoder total i files process))
       = map ffprobe_cmd
             (filter (fun f => negb (path_exists w (output_path w output_directory f)))
                     files).
Proof.
  intros Hall i process.
  destruct (contained_loop w output_directory gpu_encoder total files Hall i process)
    as (process' & Hout & Hchecks).
  exists process'. split; [exact Hout |]. split; [exact Hchecks |].
  apply (finished_loop_runs _ _ _ _ _ _ _ _ Hout).
Qed.

Lemma failures_isolated_witness :
  exists process',
    outcome (process_files scenario_world "./converted" "libx264" 2 1
               ["./a.mp4"; "./b.mp4"] None) = Return (Continue, process')
    /\ checks (trace (process_files scenario_world "./converted" "libx264" 2 1
                        ["./a.mp4"; "./b.mp4"] None))
       = ["./converted/converted_a.mp4"; "./converted/converted_b.mp4"]
    /\ runs (trace (process_files scenario_world "./converted" "libx264" 2 1
                      ["./a.mp4"; "./b.mp4"] None))
       = [ffprobe_cmd "./a.mp4"; ffprobe_cmd "./b.mp4"].
Proof.
  apply (failures_isolated scenario_world "./converted" "libx264" 2
           ["./a.mp4"; "./b.mp4"]).
  intros f [<- | [<- | []]].
  - right. right. right.
    exists 1280, 720, (float_of_int 10),
      (encode_cmd "./a.mp4" "./converted/converted_a.mp4" "libx264"
         ["-preset"; "ultrafast"; "-crf"; "23"]).
    split; [vm_compute; reflexivity |]. split; [vm_compute; reflexivity |].
    left. eexists _, _. reflexivity.
  - right. right. left. exists (float_of_int 5). vm_compute. reflexivity.
Defined.

Lemma run_checked_ok (w : world) (cmd : list string) :
  tool_ok w cmd = true -> run_checked w cmd = ([Run cmd], Return tt).
Proof.
  unfold tool_ok, run_checked. rewrite emit_then.
  destruct (run_process w cmd) as [rc out | e]; [| discriminate].
  intros ->. reflexivity.
Qed.

Lemma run_checked_fails (w : world) (cmd : list string) :
  tool_fails w cmd = true ->
  exists e, run_checked w cmd = ([Run cmd], Raise e)
            /\ one_of [CalledProcessError; FileNotFoundError] e = true.
Proof.
  unfold tool_fails, run_checked. rewrite emit_then.
  destruct (run_process w cmd) as [rc out | e].
  - intros H. apply negb_true_iff in H. rewrite H. exists CalledProcessError.
    split; reflexivity.
  - intros H. exists e. split; [reflexivity | exact H].
Qed.




(** X21: when the version check of a tool fails as the script expects
    (another exit status, or no such executable), the script exits with
    status 1 and has done nothing but run the version checks: a missing
    [ffmpeg] is noticed before [ffprobe] is tried, no directory is
    created and no file is looked for. *)
Theorem missing_tools_exit_one (w : world) :
  (tool_fails w ["ffmpeg"; "-version"] = true ->
   snd (main w) = 1
   /\ deeds (fst (main w)) = [Run ["ffmpeg"; "-version"]])
  /\ (tool_ok w ["ffmpeg"; "-version"] = true ->
      tool_fails w ["ffprobe"; "-version"] = true ->
      snd (main w) = 1
      /\ deeds (fst (main w)) = [Run ["ffmpeg"; "-version"]; Run ["ffprobe"; "-version"]]).
Proof.
  split.
  - intros H. destruct (run_checked_fails _ _ H) as (e & Hrun & He).
    unfold main. rewrite Hrun. cbn [io_bind io_try]. rewrite He. split; reflexivity.
  - intros Hok H. destruct (run_checked_fails _ _ H) as (e & Hrun & He).
    unfold main. rewrite (run_checked_ok _ _ Hok), Hrun. cbn [io_bind io_try app].
    rewrite He. split; reflexivity.
Qed.

Lemma missing_tools_exit_one_witness :
  snd (main no_tools_world) = 1
  /\ deeds (fst (main no_tools_world)) = [Run ["ffmpeg"; "-version"]].
Proof.
  apply (proj1 (missing_tools_exit_one no_tools_world)). reflexivity.
Defined.

(** ** The two reading branches *)

Lemma io_bind_ret {A} (m : io A) : (x <~ m ;; ret x) = m.
Proof.
  destruct m as [t [a | e]]; cbn [io_bind ret]; [rewrite app_nil_r |]; reflexivity.
Qed.

(** X23: the two platform branches of the reading loop agree on lines
    that carry neither [frame=] nor [time=] and on which the parser does
    not raise: the same messages are printed and the same state is reached.
    (On the other lines only the Windows branch goes on to read the
    clock.) *)
Theorem platforms_agree_without_clock (duration : float) (lines : list string) :
  Forall (fun line =>
            contains "frame=" (strip line) = false
            /\ contains "time=" (strip line) = false
            /\ exists ev, parse_progress (strip line) duration = Return ev) lines ->
  forall st,
    read_lines Windows duration st lines = read_lines Posix duration st lines.
Proof.
  induction 1 as [| line rest (Hframe & Htime & ev & Hev) Hrest IH]; intros st;
    [reflexivity |].
  cbn [read_lines].
  assert (Hwin : handle_line_windows duration st (strip line)
                 = handle_line duration st line).
  { unfold handle_line_windows, handle_line. rewrite Hframe, Htime. cbn [orb].
    rewrite Hev. unfold lift. cbn [io_bind]. rewrite io_bind_ret. reflexivity. }
  destruct (String.eqb_spec (strip line) EmptyString) as [Hempty | Hne].
  - unfold handle_line. rewrite Hempty. cbn. rewrite IH.
    destruct (read_lines Posix duration st rest) as [t r]. reflexivity.
  - rewrite Hwin. unfold handle_line. rewrite Hev.
    pose proof (update_progress_returns ev st (parse_progress_paired _ _ _ Hev))
      as [st' Hst'].
    destruct (update_progress ev st) as [t [s1 | e]] eqn:Hup;
      cbn [outcome snd] in Hst'; [| discriminate Hst'].
    unfold lift. cbn [io_bind]. rewrite Hup. cbn. rewrite IH.
    destruct (read_lines Posix duration s1 rest) as [t2 r2].
    rewrite app_nil_r. reflexivity.
Qed.

Lemma platforms_agree_without_clock_witness :
  read_lines Windows (float_of_int 10) initial_progress
    ["out_time_us=2000000"; ""; "fps=50.0"]
  = read_lines Posix (float_of_int 10) initial_progress
      ["out_time_us=2000000"; ""; "fps=50.0"].
Proof.
  apply (platforms_agree_without_clock (float_of_int 10)
           ["out_time_us=2000000"; ""; "fps=50.0"]).
  repeat constructor; eexists; vm_compute; reflexivity.
Defined.

(** ** Showing progress *)

(** One update either prints the percentage, which then is more than 1
    above the last one shown and becomes the last one shown, or prints
    nothing and keeps the last one shown. *)
Lemma update_progress_step (ev : progress) (st : progress_state) :
  (exists p,
      update_progress ev st =
        ([Print (MsgProgress p (current_fps st))],
         Return {| current_fps := current_fps st; last_percentage := p |})
      /\ fgtb p (fadd (last_percentage st) (float_of_int 1)) = true)
  \/ (trace (update_progress ev st) = []
      /\ forall st', outcome (update_progress ev st) = Return st' ->
                     last_percentage st' = last_percentage st).
Proof.
  unfold update_progress. destruct ev as [[t |] [p |]].
  - destruct (fgtb p _) eqn:Hp.
    + left. exists p. split; [reflexivity | exact Hp].
    + right. split; [reflexivity |]. intros st' H. inversion H. reflexivity.
  - right. split; [reflexivity | discriminate].
  - right. split; [reflexivity |]. intros st' H. inversion H. reflexivity.
  - right. split; [reflexivity |]. intros st' H. inversion H. reflexivity.
Qed.

Lemma percentages_app (a b : list action) :
  percentages (a ++ b) = (percentages a ++ percentages b)%list.
Proof.
  induction a as [| x a IH]; [reflexivity |].
  destruct x as [| | | | | | msg]; cbn [app percentages]; try exact IH.
  destruct msg; cbn [app]; rewrite ?IH; reflexivity.
Qed.

Lemma last_after {A} (l : list A) (x d : A) : last (x :: l) d = last l x.
Proof.
  revert x d. induction l as [| y l IH]; intros x d; [reflexivity |].
  change (last (x :: y :: l) d) with (last (y :: l) d). rewrite !IH. reflexivity.
Qed.

(** X24: on a platform other than Windows the progress messages of one
    encode are throttled: each shows a percentage more than 1 above that
    of the message before it, the first being more than 1 above the
    starting value; and the last percentage the loop remembers is that of
    its last message. *)
Theorem progress_throttled (duration : float) (lines : list string)
    (st : progress_state) :
  let m := read_lines Posix duration st lines in
  steps_up (last_percentage st) (percentages (trace m))
  /\ (forall st', outcome m = Return st' ->
                  last_percentage st' = last (percentages (trace m)) (last_percentage st)).
Proof.
  cbv zeta. revert st. induction lines as [| line rest IH]; intros st.
  - split; [exact I |]. intros st' H. inversion H. reflexivity.
  - cbn [read_lines]. unfold handle_line.
    destruct (parse_progress (strip line) duration) as [ev | e];
      [| split; [exact I | discriminate]].
    unfold lift. cbn [io_bind app].
    destruct (update_progress_step ev st) as [(p & -> & Hp) | [Ht Hst]].
    + cbn [io_bind app].
      destruct (IH {| current_fps := current_fps st; last_percentage := p |})
        as [IH1 IH2].
      destruct (read_lines Posix duration _ rest) as [t2 r2].
      cbn [trace outcome fst snd last_percentage percentages steps_up] in *.
      split; [split; [exact Hp | exact IH1] |].
      intros st' H. rewrite (IH2 st' H). symmetry. apply last_after.
    + destruct (update_progress ev st) as [t1 [st1 | e1]];
        cbn [trace outcome fst snd] in Ht, Hst; subst t1;
        [| split; [exact I | discriminate]].
      cbn [io_bind app]. destruct (IH st1) as [IH1 IH2].
      destruct (read_lines Posix duration st1 rest) as [t2 r2].
      cbn [trace outcome fst snd] in *.
      rewrite (Hst st1 eq_refl) in IH1, IH2. split; [exact IH1 | exact IH2].
Qed.

(** ** What can leave a turn of the loop *)

Lemma get_video_info_raises (w : world) (video_path : string) (e : exn) :
  outcome (get_video_info w video_path) = Raise e ->
  e = KeyboardInterrupt
  /\ run_process w (ffprobe_cmd video_path) = Failed KeyboardInterrupt.
Proof.
  intros H. destruct (probe_escape w video_path) as [(info & Hinfo) | [Hrun Hout]].
  - congruence.
  - split; [congruence | exact Hrun].
Qed.

(** [convert_video] raises when the height is zero, or when the quotient
    of a width of 2^1023 or more by the height overflows a float. *)
Lemma convert_video_raises (input_path output_path : string) (width height : Z)
    (gpu_encoder : string) (e : exn) :
  convert_video input_path output_path width height gpu_encoder = Raise e ->
  (e = ZeroDivisionError /\ height = 0)
  \/ (e = OverflowError /\ height <> 0 /\ 2 ^ 1023 <= Z.abs width).
Proof.
  unfold convert_video.
  rewrite (int_truediv_returns 1920 1080) by (discriminate || reflexivity).
  destruct (Z.eq_dec height 0) as [-> | Hh].
  - unfold int_truediv at 1. cbn [Z.eqb bind]. intros H. inversion H. auto.
  - destruct (Z.lt_ge_cases (Z.abs width) (2 ^ 1023)) as [Hlt | Hge].
    + rewrite (int_truediv_returns width height Hh Hlt). cbn [bind]. discriminate.
    + unfold int_truediv at 1. rewrite (proj2 (Z.eqb_neq height 0) Hh).
      destruct (is_finite _); cbn [bind]; [discriminate |].
      intros H. inversion H. auto.
Qed.

Lemma encode_raises (w : world) (filename : string) (cmd : list string)
    (duration : float) (process : option (list string)) (e : exn) :
  outcome (encode w filename cmd duration process) = Raise e ->
  e = OtherError /\ process = None /\ popen w cmd = LaunchFailed KeyboardInterrupt.
Proof.
  unfold encode.
  destruct (popen w cmd) as [lines rc | lines | e0]; rewrite !emit_then.
  - rewrite !io_bind_eq.
    destruct (read_lines (platform w) duration initial_progress lines) as [tl [st | e1]];
      cbn [trace outcome fst snd].
    + destruct (rc =? 0); cbn; discriminate.
    + destruct (exn_eqb e1 KeyboardInterrupt); cbn; discriminate.
  - rewrite !io_bind_eq.
    destruct (read_lines (platform w) duration initial_progress lines) as [tl [st | e1]];
      cbn [trace outcome fst snd].
    + cbn. discriminate.
    + destruct (exn_eqb e1 KeyboardInterrupt); cbn; discriminate.
  - cbn. destruct (exn_eqb e0 KeyboardInterrupt) eqn:He; [| cbn; discriminate].
    destruct e0; try discriminate He.
    destruct process; cbn; [discriminate |].
    intros H. inversion H. auto.
Qed.

(** X25: the exceptions that leave a turn of the loop, and so the
    function, are these and no others: the keyboard interrupt of the probe
    run itself; [ZeroDivisionError] from [convert_video] for a probed
    height of zero; [OverflowError] from [convert_video] for a probed width
    of 2^1023 or more; and the failure of the interrupt handler when the
    interrupt comes while the first encode is being launched, so that
    there is no process to terminate yet.  In each case the destination
    did not exist. *)
Theorem turn_escapes (w : world) (output_directory gpu_encoder : string)
    (total i : nat) (input_file : string) (process : option (list string)) (e : exn) :
  outcome (process_file w output_directory gpu_encoder total i input_file process)
    = Raise e ->
  destination_free w output_directory input_file
  /\ ((e = KeyboardInterrupt
       /\ run_process w (ffprobe_cmd input_file) = Failed KeyboardInterrupt)
      \/ exists width height duration,
           probe_succeeds w input_file width height duration
           /\ needs_conversion width height
           /\ ((e = ZeroDivisionError /\ height = 0)
               \/ (e = OverflowError /\ 2 ^ 1023 <= width)
               \/ (e = OtherError /\ process = None
                   /\ exists cmd,
                        convert_video input_file
                          (output_path w output_directory input_file)
                          width height gpu_encoder = Return cmd
                        /\ popen w cmd = LaunchFailed KeyboardInterrupt))).
Proof.
  rewrite process_file_shape. unfold destination_free.
  destruct (path_exists w (output_path w output_directory input_file));
    [discriminate |].
  intros H. split; [reflexivity |].
  destruct (get_video_info w input_file) as [tp [info | e0]] eqn:Hgvi.
  2:{ cbn [outcome snd] in H. inversion H. subst e0. left.
      apply (get_video_info_raises w input_file). rewrite Hgvi. reflexivity. }
  destruct info as [[[width |] [height |]] duration]; try discriminate H.
  destruct ((width =? 1920) && (height =? 1080)) eqn:Hdim; [discriminate H |].
  right. exists width, height, duration.
  assert (Hp : probe_succeeds w input_file width height duration)
    by (unfold probe_succeeds; rewrite Hgvi; reflexivity).
  split; [exact Hp |].
  split; [intros [-> ->]; discriminate Hdim |].
  destruct (convert_video input_file _ width height gpu_encoder) as [cmd | e1] eqn:Hcv.
  - cbn [outcome snd] in H. apply encode_raises in H as (-> & -> & Hpopen).
    right. right. repeat split; try reflexivity. exists cmd. split; [reflexivity | exact Hpopen].
  - cbn [outcome snd] in H. inversion H. subst e1.
    apply convert_video_raises in Hcv as [[-> ->] | (-> & _ & Hbig)]; [left; auto |].
    right. left. split; [reflexivity |].
    destruct (probed_nonneg w input_file width height duration Hp) as [Hw _].
    rewrite Z.abs_eq in Hbig by exact Hw. exact Hbig.
Qed.

Lemma turn_escapes_witness :
  destination_free zero_height_world "./converted" "./a.mp4"
  /\ ((ZeroDivisionError = KeyboardInterrupt
       /\ run_process zero_height_world (ffprobe_cmd "./a.mp4") = Failed KeyboardInterrupt)
      \/ exists width height duration,
           probe_succeeds zero_height_world "./a.mp4" width height duration
           /\ needs_conversion width height
           /\ ((ZeroDivisionError = ZeroDivisionError /\ height = 0)
               \/ (ZeroDivisionError = OverflowError /\ 2 ^ 1023 <= width)
               \/ (ZeroDivisionError = OtherError /\ @None (list string) = None
                   /\ exists cmd,
                        convert_video "./a.mp4"
                          (output_path zero_height_world "./converted" "./a.mp4")
                          width height "libx264" = Return cmd
                        /\ popen zero_height_world cmd = LaunchFailed KeyboardInterrupt))).
Proof.
  apply (turn_escapes zero_height_world "./converted" "libx264" 2 1 "./a.mp4" None
           ZeroDivisionError).
  vm_compute. reflexivity.
Defined.
